(** * NeoXtractor: the IDX/WPK archive reader

    A shallow embedding of [core/wpk/wpk_file.py], [core/wpk/class_types.py],
    [core/detection.py] and the path pairing of [core/args.py], with the
    properties of the archive reader proved over it; then of the callers of
    the reader in the GUI: the list model of [gui/models/wpk_file_model.py],
    the extraction and the rename of [gui/widgets/wpk_file_list.py], and
    the loading of an archive in [gui/windows/main_window.py].

    Conventions of the embedding:
    - Python [int] fields filled by [read_uint32]/[read_uint16] are [N];
      ordinals handed to [read_entry] are arbitrary Python ints, hence [Z];
      an [IntFlag] is a [Z] combined with [Z.lor].
    - [bytes] is [list byte]; [str] is [string] (for file names: the UTF-8
      bytes of the text, on which the ASCII path separators behave as in
      Python).
    - [self.entries] (a dict keyed by ordinal) is a [gmap Z WPKEntry];
      [self.indices] is a list.
    - Python objects are mutated in place; every attribute copied from an
      index record to an entry is an immutable value (str, int, bytes,
      enum member), so an entry never aliases its index record and the two
      are modelled as separate record values.
    - Exceptions, the mutable container, the file system and the log are
      threaded by the state-and-exception monad [M].  Every call made to
      an outside collaborator (file system, logger, decode primitives) is
      appended to [trace], which is what the theorems observe. *)

From Stdlib Require Import ZArith NArith Strings.String Strings.Ascii Strings.Byte.
From stdpp Require Import base numbers option list sorting gmap strings pretty.

Open Scope string_scope.
Open Scope list_scope.
Open Scope Z_scope.

(** ** Python values *)

Abbreviation bytes := (list byte).

#[global] Instance byte_eq_dec : EqDecision byte := Byte.byte_eq_dec.

Inductive exception :=
| OSError (path : string)          (* open / makedirs / write failures *)
| ValueError (value : Z)           (* [Enum(value)] on an unknown value *)
| UnicodeDecodeError
| StructError                      (* short read in a binary field reader *)
| IndexError
| PrimitiveError (what : string).  (* raised by a decode primitive *)

Inductive result (A : Type) :=
| Ok (a : A)
| Raise (e : exception).
Arguments Ok {A} a.
Arguments Raise {A} e.

(** Whether a call returned. *)
Definition returned {A} (r : result A) : bool :=
  match r with
  | Ok _ => true
  | Raise _ => false
  end.

(** ** posixpath: [os.path.splitext], [os.path.join], [os.path.dirname] *)

Module os_path.

Definition sep : ascii := "/"%char.
Definition extsep : ascii := "."%char.

(** [p.rfind(c)], with -1 when [c] does not occur. *)
Fixpoint rfind_from (c : ascii) (l : list ascii) (i acc : Z) : Z :=
  match l with
  | [] => acc
  | x :: l' => rfind_from c l' (i + 1) (if Ascii.eqb x c then i else acc)
  end.

Definition rfind (p : string) (c : ascii) : Z :=
  rfind_from c (list_ascii_of_string p) 0 (-1).

(** [p[:i]] and [p[i:]] for [0 <= i]. *)
Definition upto (p : string) (i : Z) : string :=
  string_of_list_ascii (take (Z.to_nat i) (list_ascii_of_string p)).
Definition from (p : string) (i : Z) : string :=
  string_of_list_ascii (drop (Z.to_nat i) (list_ascii_of_string p)).

(** The loop of [genericpath._splitext] that skips leading dots:
    [while filenameIndex < dotIndex: if p[filenameIndex] != extsep: return
    p[:dotIndex], p[dotIndex:]; filenameIndex += 1]; [None] when the loop
    runs out. [n] counts the remaining iterations. *)
Fixpoint skip_leading_dots (p : string) (dotIndex filenameIndex : Z) (n : nat)
  : option (string * string) :=
  match n with
  | O => None
  | S n' =>
      match list_ascii_of_string p !! Z.to_nat filenameIndex with
      | Some c =>
          if Ascii.eqb c extsep
          then skip_leading_dots p dotIndex (filenameIndex + 1) n'
          else Some (upto p dotIndex, from p dotIndex)
      | None => Some (upto p dotIndex, from p dotIndex)
      end
  end.

Definition splitext (p : string) : string * string :=
  let sepIndex := rfind p sep in
  let dotIndex := rfind p extsep in
  if sepIndex <? dotIndex then
    let filenameIndex := sepIndex + 1 in
    match skip_leading_dots p dotIndex filenameIndex
            (Z.to_nat (dotIndex - filenameIndex)) with
    | Some r => r
    | None => (p, "")
    end
  else (p, "").

Definition startswith_sep (p : string) : bool :=
  match p with
  | String c _ => Ascii.eqb c sep
  | EmptyString => false
  end.

Definition endswith_sep (p : string) : bool :=
  match last (list_ascii_of_string p) with
  | Some c => Ascii.eqb c sep
  | None => false
  end.

(** [os.path.join(a, b)]: an absolute [b] discards [a]. *)
Definition join (a b : string) : string :=
  if startswith_sep b then b
  else if bool_decide (a = "") || endswith_sep a then a +:+ b
  else a +:+ "/" +:+ b.

(** [head.rstrip('/')] *)
Fixpoint lstrip_sep (l : list ascii) : list ascii :=
  match l with
  | c :: l' => if Ascii.eqb c sep then lstrip_sep l' else l
  | [] => []
  end.

Definition rstrip_sep (p : string) : string :=
  string_of_list_ascii (reverse (lstrip_sep (reverse (list_ascii_of_string p)))).

Definition all_sep (p : string) : bool :=
  forallb (fun c => Ascii.eqb c sep) (list_ascii_of_string p).

(** [os.path.dirname(p)] *)
Definition dirname (p : string) : string :=
  let i := rfind p sep + 1 in
  let head := upto p i in
  if negb (bool_decide (head = "")) && negb (all_sep head)
  then rstrip_sep head
  else head.

End os_path.


(** ** core/wpk/class_types.py *)

(** [class WPKEntryDataFlags(IntFlag)]: [auto()] numbers the members with
    successive powers of two. *)
Module WPKEntryDataFlags.
Definition NONE : Z := 0.
Definition TEXT : Z := 1.
Definition NXS3_PACKED : Z := 2.
Definition ROTOR_PACKED : Z := 4.
Definition ENCRYPTED : Z := 8.
Definition ERROR : Z := 16.
(** [flags & member] as a truth value. *)
Definition has (flags member : Z) : bool := negb (Z.land flags member =? 0).
End WPKEntryDataFlags.

(** [core.npk.enums] is not part of the sources at hand.  An enum member is
    represented by its integer value; which values are members, and the value
    of [NONE], are fields of [Collaborators] below.  The file categories are
    only ever produced by [get_file_category], except for the default
    [OTHER]. *)
Inductive NPKEntryFileCategories :=
| OTHER
| Category (name : string).

Record WPKReadOptions := mkWPKReadOptions {
  decryption_key : option Z;
  aes_key : option bytes;
  info_size : option Z
}.

(** [WPKReadOptions()] *)
Definition WPKReadOptions_default : WPKReadOptions :=
  {| decryption_key := None; aes_key := None; info_size := None |}.

Record WPKIndex := mkWPKIndex {
  filename : string;
  file_offset : N;
  file_length : N;
  file_original_length : N;
  zcrc : N;
  crc : N;
  file_structure : option bytes;
  zip_flag : Z;
  encrypt_flag : Z;
  data_flags : Z
}.

(** [class WPKEntry(WPKIndex)]: the inherited attributes are kept together in
    [base], so that the attribute-by-attribute copy of [read_entry] is one
    assignment. *)
Record WPKEntry := mkWPKEntry {
  base :> WPKIndex;
  data : bytes;
  extension : string;
  category : NPKEntryFileCategories
}.

Definition set_filename (idx : WPKIndex) (name : string) : WPKIndex :=
  {| filename := name; file_offset := file_offset idx;
     file_length := file_length idx;
     file_original_length := file_original_length idx;
     zcrc := zcrc idx; crc := crc idx; file_structure := file_structure idx;
     zip_flag := zip_flag idx; encrypt_flag := encrypt_flag idx;
     data_flags := data_flags idx |}.

Definition set_data_flags (idx : WPKIndex) (flags : Z) : WPKIndex :=
  {| filename := filename idx; file_offset := file_offset idx;
     file_length := file_length idx;
     file_original_length := file_original_length idx;
     zcrc := zcrc idx; crc := crc idx; file_structure := file_structure idx;
     zip_flag := zip_flag idx; encrypt_flag := encrypt_flag idx;
     data_flags := flags |}.

Definition entry_set_base (e : WPKEntry) (idx : WPKIndex) : WPKEntry :=
  {| base := idx; data := data e; extension := extension e; category := category e |}.
Definition entry_set_data (e : WPKEntry) (d : bytes) : WPKEntry :=
  {| base := base e; data := d; extension := extension e; category := category e |}.
Definition entry_set_extension (e : WPKEntry) (x : string) : WPKEntry :=
  {| base := base e; data := data e; extension := x; category := category e |}.
Definition entry_set_category (e : WPKEntry) (c : NPKEntryFileCategories) : WPKEntry :=
  {| base := base e; data := data e; extension := extension e; category := c |}.
(** [entry.filename = name] *)
Definition entry_set_filename (e : WPKEntry) (name : string) : WPKEntry :=
  entry_set_base e (set_filename e name).
(** [entry.data_flags |= flag] *)
Definition entry_or_flag (e : WPKEntry) (flag : Z) : WPKEntry :=
  entry_set_base e (set_data_flags e (Z.lor (data_flags e) flag)).

(** ** The collaborators that are imported but not defined here

    [core.npk.enums], [core.npk.decryption], [core.npk.decompression],
    [core.npk.detection] and the UTF-8 codec.  The reader only relies on
    their interface: each may return or raise. *)
Class Collaborators := {
  CompressionType_NONE : Z;
  CompressionType_members : list Z;
  DecryptionType_NONE : Z;
  DecryptionType_members : list Z;
  decode_utf8 : bytes -> result string;
  decrypt_entry : WPKEntry -> option Z -> result bytes;
  decompress_entry : WPKEntry -> result bytes;
  check_rotor : WPKEntry -> result bool;
  unpack_rotor : bytes -> result bytes;
  check_nxs3 : WPKEntry -> result bool;
  unpack_nxs3 : bytes -> result bytes;
  is_binary : bytes -> result bool;
  get_ext : bytes -> Z -> result string;
  get_file_category : string -> result NPKEntryFileCategories
}.

(** The file system, as far as the reader uses it.  [fs_open_rb] is
    [open(path, "rb")] and yields the bytes of the file; [fs_makedirs] is
    [os.makedirs(path, exist_ok=True)]; [fs_write] is [open(path, "wb")]
    followed by one [write]. *)
Class FileSystem (FS : Type) := {
  fs_open_rb : FS -> string -> result bytes;
  fs_makedirs : FS -> string -> result FS;
  fs_write : FS -> string -> bytes -> result FS
}.

(** An [io.BufferedReader] over a regular file: its bytes and the cursor. *)
Record BufferedReader := mkReader {
  content : bytes;
  position : nat
}.

(** [file.seek(offset)]: the cursor may be placed beyond the end. *)
Definition file_seek (f : BufferedReader) (offset : N) : BufferedReader :=
  {| content := content f; position := N.to_nat offset |}.

(** [file.read(size)]: the bytes from the cursor on, at most [size] of them;
    fewer (down to none) when the file ends first.  No exception is raised
    at the end of the file. *)
Definition file_read (f : BufferedReader) (size : N) : bytes * BufferedReader :=
  let got := take (N.to_nat size) (drop (position f) (content f)) in
  (got, {| content := content f; position := (position f + length got)%nat |}).

(** ** Observable calls *)

Inductive log_level := DEBUG | INFO | ERROR | CRITICAL.

Inductive log_arg :=
| ArgInt (z : Z)
| ArgStr (s : string)
| ArgIndex (idx : WPKIndex)
| ArgCategory (c : NPKEntryFileCategories).

Inductive stage :=
| Decrypt | Decompress | CheckRotor | UnpackRotor | CheckNxs3 | UnpackNxs3
| IsBinary | GetExt | GetFileCategory.

Inductive event :=
| Log (level : log_level) (format : string) (args : list log_arg)
| OpenRb (path : string)                  (* open(path, "rb") *)
| Seek (offset : N)                       (* file.seek *)
| Read (size : N) (got : bytes)           (* file.read and what it returned *)
| Call (st : stage) (entry : WPKEntry)    (* a decode primitive, with the entry as it is at the call *)
| Makedirs (path : string)                (* os.makedirs(path, exist_ok=True) *)
| WriteFile (path : string) (d : bytes).  (* open(path, "wb") and f.write(d) *)

Record WPKFile := mkWPKFile {
  idx_path : string;
  wpk_path : string;
  options : WPKReadOptions;
  entries : gmap Z WPKEntry;
  indices : list WPKIndex
}.

(** ** The state-and-exception monad

    A computation maps a state to a result and the state it leaves behind.
    An exception keeps the state reached when it was raised. *)

Definition ST (S A : Type) : Type := S -> result A * S.

Definition ret {S A} (a : A) : ST S A := fun s => (Ok a, s).

Definition bind {S A B} (m : ST S A) (f : A -> ST S B) : ST S B :=
  fun s =>
    match m s with
    | (Ok a, s') => f a s'
    | (Raise e, s') => (Raise e, s')
    end.

Declare Scope ST_scope.
Delimit Scope ST_scope with ST.
Bind Scope ST_scope with ST.
Notation "x ← y ; z" := (bind y (fun x => z)) : ST_scope.
Notation "' x ← y ; z" := (bind y (fun x => z)) : ST_scope.
Notation "x ;; z" := (bind x (fun _ => z)) : ST_scope.
Open Scope ST_scope.

(** [self] is the [WPKFile] object the methods run on, [disk] the file system,
    [trace] the calls made so far, oldest first. *)

Section Reader.
Context {FS : Type} `{!FileSystem FS} `{!Collaborators}.

Record state := mkState {
  self : WPKFile;
  disk : FS;
  trace : list event
}.

Abbreviation M := (ST state).

Definition raise {A} (e : exception) : M A := fun s => (Raise e, s).

Definition lift {A} (r : result A) : M A := fun s => (r, s).

Definition emit (ev : event) : M unit :=
  fun s => (Ok tt, {| self := self s; disk := disk s; trace := trace s ++ [ev] |}).

Definition get_self : M WPKFile := fun s => (Ok (self s), s).

Definition put_self (w : WPKFile) : M unit :=
  fun s => (Ok tt, {| self := w; disk := disk s; trace := trace s |}).

(** [get_logger().<level>(format, *args)] *)
Definition log (level : log_level) (format : string) (args : list log_arg) : M unit :=
  emit (Log level format args).

(** The answers of the file system. *)
Definition sys_open_rb (path : string) : M BufferedReader :=
  fun s => match fs_open_rb (disk s) path with
           | Ok c => (Ok {| content := c; position := 0 |}, s)
           | Raise e => (Raise e, s)
           end.

Definition sys_makedirs (path : string) : M unit :=
  fun s => match fs_makedirs (disk s) path with
           | Ok d => (Ok tt, {| self := self s; disk := d; trace := trace s |})
           | Raise e => (Raise e, s)
           end.

Definition sys_write (path : string) (d : bytes) : M unit :=
  fun s => match fs_write (disk s) path d with
           | Ok dk => (Ok tt, {| self := self s; disk := dk; trace := trace s |})
           | Raise e => (Raise e, s)
           end.

(** [open(path, "rb")] *)
Definition open_rb (path : string) : M BufferedReader :=
  emit (OpenRb path);; sys_open_rb path.

Definition seek (f : BufferedReader) (offset : N) : M BufferedReader :=
  emit (Seek offset);; ret (file_seek f offset).

Definition read (f : BufferedReader) (size : N) : M (bytes * BufferedReader) :=
  emit (Read size (file_read f size).1);; ret (file_read f size).

(** A call of a decode primitive on [entry]. *)
Definition call {A} (st : stage) (entry : WPKEntry) (r : result A) : M A :=
  emit (Call st entry);; lift r.

(** [os.makedirs(path, exist_ok=True)] *)
Definition makedirs (path : string) : M unit :=
  emit (Makedirs path);; sys_makedirs path.

(** [with open(path, "wb") as f: f.write(d)] *)
Definition write_file (path : string) (d : bytes) : M unit :=
  emit (WriteFile path d);; sys_write path d.

(** ** core.binary_readers and core.npk.enums, as far as the reader needs them *)

(** The integer a little-endian byte string stands for. *)
Fixpoint le_decode (bs : bytes) : N :=
  match bs with
  | [] => 0%N
  | b :: bs' => (Byte.to_N b + 256 * le_decode bs')%N
  end.

(** Modelled from the spec: [core.binary_readers.read_uint32] and
    [read_uint16] are imported by [wpk_file.py] but their module is missing.
    The spec: "reads fixed-width little/big-endian integers from a stream at
    the current cursor", "all integers little-endian"; a stream that ends
    inside the field is a fatal structural error. *)
Definition read_uint (width : nat) (f : BufferedReader) : result (N * BufferedReader) :=
  let '(got, f') := file_read f (N.of_nat width) in
  if bool_decide (length got = width) then Ok (le_decode got, f') else Raise StructError.

Definition read_uint32 : BufferedReader -> result (N * BufferedReader) := read_uint 4.
Definition read_uint16 : BufferedReader -> result (N * BufferedReader) := read_uint 2.

(** [CompressionType(value)] and [DecryptionType(value)]: the member with that
    value, or [ValueError]. *)
Definition CompressionType (value : N) : result Z :=
  if bool_decide (Z.of_N value ∈ CompressionType_members)
  then Ok (Z.of_N value) else Raise (ValueError (Z.of_N value)).

Definition DecryptionType (value : N) : result Z :=
  if bool_decide (Z.of_N value ∈ DecryptionType_members)
  then Ok (Z.of_N value) else Raise (ValueError (Z.of_N value)).

(** [WPKIndex()] and [WPKEntry()] *)
Definition WPKIndex_default : WPKIndex :=
  {| filename := ""; file_offset := 0; file_length := 0;
     file_original_length := 0; zcrc := 0; crc := 0; file_structure := None;
     zip_flag := CompressionType_NONE; encrypt_flag := DecryptionType_NONE;
     data_flags := WPKEntryDataFlags.NONE |}.

Definition WPKEntry_default : WPKEntry :=
  {| base := WPKIndex_default; data := []; extension := ""; category := OTHER |}.

(** ** core/wpk/wpk_file.py *)

(** One round of the loop of [_read_indices]; [f] is [idx_file]. *)
Definition _read_index (f : BufferedReader) : M BufferedReader :=
  '(offset, f) ← lift (read_uint32 f);
  '(length_, f) ← lift (read_uint32 f);
  '(original, f) ← lift (read_uint32 f);
  '(zip_raw, f) ← lift (read_uint16 f);
  zip ← lift (CompressionType zip_raw);
  '(enc_raw, f) ← lift (read_uint16 f);
  enc ← lift (DecryptionType enc_raw);
  '(name_len, f) ← lift (read_uint16 f);
  name ← lift (decode_utf8 (file_read f name_len).1);
  let f := (file_read f name_len).2 in
  let index :=
    {| filename := name; file_offset := offset; file_length := length_;
       file_original_length := original;
       zcrc := zcrc WPKIndex_default; crc := crc WPKIndex_default;
       file_structure := file_structure WPKIndex_default;
       zip_flag := zip; encrypt_flag := enc;
       data_flags := data_flags WPKIndex_default |} in
  w ← get_self;
  put_self {| idx_path := idx_path w; wpk_path := wpk_path w;
              options := options w; entries := entries w;
              indices := indices w ++ [index] |};;
  log DEBUG "Index: %s" [ArgIndex index];;
  ret f.

(** [for _ in range(count)] *)
Fixpoint _read_indices_loop (count : nat) (f : BufferedReader) : M BufferedReader :=
  match count with
  | O => ret f
  | S n => f ← _read_index f; _read_indices_loop n f
  end.

Definition _read_indices (idx_file : BufferedReader) : M unit :=
  '(count, f) ← lift (read_uint32 idx_file);
  _read_indices_loop (N.to_nat count) f;;
  ret tt.

(** [WPKFile.__init__] *)
Definition WPKFile_init (idx_path_ : string) (wpk_path_ : option string)
    (options_ : option WPKReadOptions) : M unit :=
  put_self
    {| idx_path := idx_path_;
       wpk_path :=
         match wpk_path_ with
         | Some p => if bool_decide (p = "") then (os_path.splitext idx_path_).1 +:+ ".wpk" else p
         | None => (os_path.splitext idx_path_).1 +:+ ".wpk"
         end;
       options := default WPKReadOptions_default options_;
       entries := ∅;
       indices := [] |};;
  log INFO "Opening WPK index: %s" [ArgStr idx_path_];;
  f ← open_rb idx_path_;
  _read_indices f.

Definition is_entry_loaded (index : Z) : M bool :=
  w ← get_self; ret (bool_decide (is_Some (entries w !! index))).

(** [self.options.decryption_key is not None and self.options.decryption_key != 0] *)
Definition key_configured (o : WPKReadOptions) : bool :=
  match decryption_key o with
  | Some k => negb (k =? 0)
  | None => false
  end.

(** [_load_entry_data]; the result is the entry as the method leaves it.
    The early [return] of the [except] branch is the [inl] case. *)
Definition _load_entry_data (entry : WPKEntry) (file : BufferedReader) : M WPKEntry :=
  w ← get_self;
  file ← seek file (file_offset entry);
  '(got, file) ← read file (file_length entry);
  let entry := entry_set_data entry got in
  entry ← (if negb (encrypt_flag entry =? DecryptionType_NONE)
           then d ← call Decrypt entry (decrypt_entry entry (decryption_key (options w)));
                ret (entry_set_data entry d)
           else ret entry : M WPKEntry);
  r ← (if negb (zip_flag entry =? CompressionType_NONE)
       then emit (Call Decompress entry);;
            match decompress_entry entry with
            | Ok d => ret (inr (entry_set_data entry d))
            | Raise _ =>
                if key_configured (options w)
                then log ERROR "Error decompressing file; check decryption key" [];;
                     ret (inl (entry_or_flag entry WPKEntryDataFlags.ENCRYPTED))
                else log CRITICAL "Error decompressing the file using %s compression"
                       [ArgInt (zip_flag entry)];;
                     ret (inl (entry_or_flag entry WPKEntryDataFlags.ERROR))
            end
       else ret (inr entry) : M (WPKEntry + WPKEntry));
  match r with
  | inl entry => ret entry
  | inr entry =>
      rotor ← call CheckRotor entry (check_rotor entry);
      entry ← (if rotor : bool
               then let entry := entry_or_flag entry WPKEntryDataFlags.ROTOR_PACKED in
                    d ← call UnpackRotor entry (unpack_rotor (data entry));
                    ret (entry_set_data entry d)
               else ret entry : M WPKEntry);
      nxs3 ← call CheckNxs3 entry (check_nxs3 entry);
      entry ← (if nxs3 : bool
               then let entry := entry_or_flag entry WPKEntryDataFlags.NXS3_PACKED in
                    d ← call UnpackNxs3 entry (unpack_nxs3 (data entry));
                    ret (entry_set_data entry d)
               else ret entry : M WPKEntry);
      binary ← call IsBinary entry (is_binary (data entry));
      let entry := if binary : bool then entry
                   else entry_or_flag entry WPKEntryDataFlags.TEXT in
      ext ← call GetExt entry (get_ext (data entry) (data_flags entry));
      let entry := entry_set_extension entry ext in
      cat ← call GetFileCategory entry (get_file_category (extension entry));
      let entry := entry_set_category entry cat in
      log DEBUG "Entry %s: %s" [ArgStr (filename entry); ArgCategory (category entry)];;
      ret entry
  end.

(** [read_entry] *)
Definition read_entry (index : Z) : M WPKEntry :=
  w ← get_self;
  match entries w !! index with
  | Some cached => ret cached
  | None =>
      let entry := WPKEntry_default in
      if negb ((0 <=? index) && (index <? Z.of_nat (length (indices w))))
      then log CRITICAL "Entry index out of range: %d" [ArgInt index];;
           ret (entry_or_flag entry WPKEntryDataFlags.ERROR)
      else
        match indices w !! Z.to_nat index with
        | None => ret entry (* not reached: the ordinal is in range *)
        | Some idx =>
            let entry := entry_set_base entry idx in
            file ← open_rb (wpk_path w);
            entry ← (_load_entry_data entry file : M WPKEntry);
            let entry := if bool_decide (extension entry = "") then entry
                         else entry_set_filename entry
                                (filename entry +:+ "." +:+ extension entry) in
            w ← get_self;
            put_self {| idx_path := idx_path w; wpk_path := wpk_path w;
                        options := options w;
                        entries := <[index := entry]> (entries w);
                        indices := indices w |};;
            ret entry
        end
  end.

(** [WPKEntry.save_to_file] *)
Definition save_to_file (entry : WPKEntry) (path : string) : M unit :=
  makedirs (os_path.dirname path);;
  write_file path (data entry).

(** [for i in <ordinals>] of [extract_all] *)
Fixpoint extract_all_loop (output_dir : string) (ordinals : list Z) : M unit :=
  match ordinals with
  | [] => ret tt
  | i :: rest =>
      entry ← (read_entry i : M WPKEntry);
      let path := os_path.join output_dir (filename entry) in
      save_to_file entry path;;
      extract_all_loop output_dir rest
  end.

Definition extract_all (output_dir : string) : M unit :=
  w ← get_self;
  extract_all_loop output_dir (seqZ 0 (Z.of_nat (length (indices w)))).

(** ** core/detection.py *)

(** [b"IDX\x00"] and [b"WPK\x00"] *)
Definition IDX_SIGNATURE : bytes := [x49; x44; x58; x00]%byte.
Definition WPK_SIGNATURE : bytes := [x57; x50; x4b; x00]%byte.

(** [data.startswith(prefix)] *)
Definition startswith (d prefix : bytes) : bool :=
  bool_decide (take (length prefix) d = prefix).

Definition is_idx_signature (d : bytes) : bool :=
  bool_decide (length IDX_SIGNATURE ≤ length d)%nat && startswith d IDX_SIGNATURE.

Definition is_wpk_signature (d : bytes) : bool :=
  bool_decide (length WPK_SIGNATURE ≤ length d)%nat && startswith d WPK_SIGNATURE.

Definition detect_file_type (path : string) : M (option string) :=
  let max_len := Nat.max (length IDX_SIGNATURE) (length WPK_SIGNATURE) in
  file ← open_rb path;
  '(header, _) ← read file (N.of_nat max_len);
  if is_idx_signature header then ret (Some "idx")
  else if is_wpk_signature header then ret (Some "wpk")
  else ret None.

(** ** core/args.py: the [wpk] subcommand *)

Record Namespace := mkNamespace {
  arg_subcommand : option string;
  arg_path : string;
  arg_wpk_path : option string;
  arg_output : string;
  arg_key : option Z
}.

(** Lines 39 to 49 of [parse_args]: the pair [(idx_path, wpk_path)] handed to
    [WPKFile]. *)
Definition pair_paths (path : string) (wpk_path_ : option string)
  : M (string * option string) :=
  let idx_path_ := path in
  detected ← detect_file_type idx_path_;
  if bool_decide (detected = Some "wpk") then
    ret ((os_path.splitext idx_path_).1 +:+ ".idx", Some idx_path_)
  else if bool_decide (detected = Some "idx") && bool_decide (wpk_path_ = None) then
    ret (idx_path_, Some ((os_path.splitext idx_path_).1 +:+ ".wpk"))
  else
    match wpk_path_ with
    | Some p =>
        if bool_decide (p = "") then ret (idx_path_, wpk_path_)
        else
          detected2 ← detect_file_type p;
          if bool_decide (detected2 = Some "idx")
          then ret (p, Some idx_path_)
          else ret (idx_path_, wpk_path_)
    | None => ret (idx_path_, wpk_path_)
    end.

Definition parse_args (arguments : Namespace) : M unit :=
  if bool_decide (arg_subcommand arguments = Some "wpk") then
    '(idx_path_, wpk_path_) ← pair_paths (arg_path arguments) (arg_wpk_path arguments);
    let options_ :=
      {| decryption_key := arg_key arguments; aes_key := None; info_size := None |} in
    WPKFile_init idx_path_ wpk_path_ (Some options_);;
    extract_all (arg_output arguments)
  else ret tt.

(** ** gui/widgets/wpk_file_list.py: the rename of [show_rename_dialog]

    [row] is the row of a valid model index, [new_name] the accepted text;
    the dialog itself and the view update are left out. *)
Definition show_rename_dialog (row : nat) (new_name : string) : M unit :=
  w ← get_self;
  match indices w !! row with
  | None => raise IndexError
  | Some entry_index =>
      if bool_decide (new_name = "") then ret tt
      else
        put_self
          {| idx_path := idx_path w; wpk_path := wpk_path w; options := options w;
             entries :=
               match entries w !! Z.of_nat row with
               | Some e => <[Z.of_nat row := entry_set_filename e new_name]> (entries w)
               | None => entries w
               end;
             indices := <[row := set_filename entry_index new_name]> (indices w) |}
  end.

End Reader.

Arguments state FS : clear implicits.

Abbreviation M FS := (ST (state FS)).

(** ** A small concrete world

    An in-memory disk and stand-ins for the decode primitives, on which the
    definitions above can be run.
    - the disk maps a path to the bytes of the file there; a missing file
      cannot be opened for reading, and the empty path cannot be created;
    - tags 0 (none) to 3 are known;
    - decryption rejects an empty payload and otherwise drops the first byte;
    - decompression expects a leading zero byte and drops it;
    - there is no secondary layer;
    - a payload that starts with "h" is text with extension "txt";
    - UTF-8 decoding accepts ASCII. *)
Module Fake.

Definition fs : FileSystem (gmap string bytes) :=
  {| fs_open_rb d path :=
       match d !! path with Some c => Ok c | None => Raise (OSError path) end;
     fs_makedirs d path :=
       if bool_decide (path = "") then Raise (OSError path) else Ok d;
     fs_write d path c := Ok (<[path := c]> d) |}.

Definition starts_with_h (d : bytes) : bool :=
  match d with
  | x68%byte :: _ => true
  | _ => false
  end.

Definition collaborators : Collaborators :=
  {| CompressionType_NONE := 0;
     CompressionType_members := [0; 1; 2; 3];
     DecryptionType_NONE := 0;
     DecryptionType_members := [0; 1; 2; 3];
     decode_utf8 bs :=
       if forallb (fun b => (Byte.to_N b <? 128)%N) bs
       then Ok (string_of_list_byte bs) else Raise UnicodeDecodeError;
     decrypt_entry e _ :=
       match data e with
       | [] => Raise (PrimitiveError "decrypt")
       | _ :: d => Ok d
       end;
     decompress_entry e :=
       match data e with
       | x00%byte :: d => Ok d
       | _ => Raise (PrimitiveError "decompress")
       end;
     check_rotor _ := Ok false;
     unpack_rotor d := Ok d;
     check_nxs3 _ := Ok false;
     unpack_nxs3 d := Ok d;
     is_binary d := Ok (negb (starts_with_h d));
     get_ext d _ := Ok (if starts_with_h d then "txt" else "");
     get_file_category ext :=
       Ok (if bool_decide (ext = "") then OTHER else Category ext) |}.

(** The little-endian bytes of a [width]-byte field. *)
Fixpoint le_encode (width : nat) (n : N) : bytes :=
  match width with
  | O => []
  | S w => default x00%byte (Byte.of_N (n mod 256)) :: le_encode w (n / 256)
  end.

(** An index record and an index file, as bytes. *)
Definition encode_index (idx : WPKIndex) : bytes :=
  le_encode 4 (file_offset idx) ++ le_encode 4 (file_length idx) ++
  le_encode 4 (file_original_length idx) ++
  le_encode 2 (Z.to_N (zip_flag idx)) ++ le_encode 2 (Z.to_N (encrypt_flag idx)) ++
  le_encode 2 (N.of_nat (length (list_byte_of_string (filename idx)))) ++
  list_byte_of_string (filename idx).

Definition encode_indices (idxs : list WPKIndex) : bytes :=
  le_encode 4 (N.of_nat (length idxs)) ++ (idxs ≫= encode_index).

Definition index (name : string) (offset length_ : N) (zip enc : Z) : WPKIndex :=
  {| filename := name; file_offset := offset; file_length := length_;
     file_original_length := length_; zcrc := 0; crc := 0; file_structure := None;
     zip_flag := zip; encrypt_flag := enc; data_flags := WPKEntryDataFlags.NONE |}.

(** The data file of every archive below: "hello", a zero byte, "abc", "zz". *)
Definition wpk_bytes : bytes :=
  list_byte_of_string "hello" ++ [x00%byte] ++ list_byte_of_string "abc" ++
  list_byte_of_string "zz".

(** "game": a plain text, a compressed entry that decompresses, a compressed
    entry that does not. *)
Definition game : list WPKIndex :=
  [index "greeting" 0 5 0 0; index "dir/packed" 5 4 1 0; index "broken" 9 2 1 0].

(** "odd": an encrypted entry whose slice lies past the end of the data file,
    and a plain entry that asks for more bytes than the file has. *)
Definition odd : list WPKIndex :=
  [index "sealed" 11 4 0 1; index "tail" 9 100 0 0].

(** "abs": two entries with distinct names, one of them absolute. *)
Definition abs : list WPKIndex :=
  [index "x" 9 2 0 0; index "/out/x" 6 3 0 0].

(** "data.wpk" and "index.idx" carry the signatures the sniffer looks for. *)
Definition disk0 : gmap string bytes :=
  {[ "game.idx" := encode_indices game; "game.wpk" := wpk_bytes;
     "odd.idx" := encode_indices odd; "odd.wpk" := wpk_bytes;
     "abs.idx" := encode_indices abs; "abs.wpk" := wpk_bytes;
     "data.wpk" := WPK_SIGNATURE ++ wpk_bytes;
     "index.idx" := IDX_SIGNATURE ++ encode_indices game ]}.

Definition blank : WPKFile :=
  {| idx_path := ""; wpk_path := ""; options := WPKReadOptions_default;
     entries := ∅; indices := [] |}.

(** Before any container is opened. *)
Definition s0 : state (gmap string bytes) :=
  {| self := blank; disk := disk0; trace := [] |}.

(** After [WPKFile(name + ".idx", options=o)]. *)
Definition opened (name : string) (idxs : list WPKIndex) (o : WPKReadOptions)
  : state (gmap string bytes) :=
  {| self := {| idx_path := name +:+ ".idx"; wpk_path := name +:+ ".wpk";
                options := o; entries := ∅; indices := idxs |};
     disk := disk0;
     trace := Log INFO "Opening WPK index: %s" [ArgStr (name +:+ ".idx")]
              :: OpenRb (name +:+ ".idx")
              :: ((fun idx => Log DEBUG "Index: %s" [ArgIndex idx]) <$> idxs) |}.

Definition game_at := opened "game" game.
Definition odd_at := opened "odd" odd.
Definition abs_at := opened "abs" abs.

Definition greeting : WPKIndex := index "greeting" 0 5 0 0.
Definition broken : WPKIndex := index "broken" 9 2 1 0.
Definition sealed : WPKIndex := index "sealed" 11 4 0 1.
Definition tail : WPKIndex := index "tail" 9 100 0 0.

Definition no_key : WPKReadOptions := WPKReadOptions_default.
Definition key_5 : WPKReadOptions :=
  {| decryption_key := Some 5; aes_key := None; info_size := None |}.

End Fake.

(** ** Reading a trace *)

(** The place of an event in one resolution: the data file is opened, the
    slice is read, then the stages run in the order of the pipeline. *)
Definition rank (ev : event) : nat :=
  match ev with
  | OpenRb _ => 1
  | Seek _ => 2
  | Read _ _ => 3
  | Call Decrypt _ => 4
  | Call Decompress _ => 5
  | Call CheckRotor _ => 6
  | Call UnpackRotor _ => 7
  | Call CheckNxs3 _ => 8
  | Call UnpackNxs3 _ => 9
  | Call IsBinary _ => 10
  | Call GetExt _ => 11
  | Call GetFileCategory _ => 12
  | Log _ _ _ => 13
  | Makedirs _ => 14
  | WriteFile _ _ => 15
  end.

(** The events of a trace that touch the data file or run a decode stage. *)
Definition is_decode_work (ev : event) : bool :=
  match ev with
  | OpenRb _ | Seek _ | Read _ _ | Call _ _ => true
  | _ => false
  end.

(** The events of a trace that write to the destination. *)
Definition is_output (ev : event) : bool :=
  match ev with
  | Makedirs _ | WriteFile _ _ => true
  | _ => false
  end.

(** How often the work of rank [r] was done in a trace. *)
Definition times (r : nat) (t : list event) : nat :=
  length (filter (fun ev => rank ev = r) t).

(** The files written by a trace: path and bytes, oldest first. *)
Fixpoint written (t : list event) : list (string * bytes) :=
  match t with
  | [] => []
  | WriteFile p d :: t' => (p, d) :: written t'
  | _ :: t' => written t'
  end.


(** ** The index file as the spec lays it out

    Section 6 of the spec gives the index file as a byte layout: a [u32]
    record count, then per record three [u32], three [u16] and the name, all
    integers little-endian, tags validated against their enumeration.  This
    is that layout as a parser over the remaining bytes, for comparison with
    [_read_indices]. *)

Section IndexLayout.
Context `{!Collaborators}.

Definition take_bytes (n : nat) : ST bytes bytes :=
  fun bs => (Ok (take n bs), drop n bs).

Definition take_uint (width : nat) : ST bytes N :=
  fun bs =>
    if bool_decide (width ≤ length bs)%nat
    then (Ok (le_decode (take width bs)), drop width bs)
    else (Raise StructError, bs).

Definition checked {A} (r : result A) : ST bytes A := fun bs => (r, bs).

Definition layout_record : ST bytes WPKIndex :=
  offset ← take_uint 4;
  length_ ← take_uint 4;
  original ← take_uint 4;
  zip_raw ← take_uint 2;
  zip ← checked (CompressionType zip_raw);
  enc_raw ← take_uint 2;
  enc ← checked (DecryptionType enc_raw);
  name_len ← take_uint 2;
  raw ← take_bytes (N.to_nat name_len);
  name ← checked (decode_utf8 raw);
  ret {| filename := name; file_offset := offset; file_length := length_;
         file_original_length := original; zcrc := 0; crc := 0;
         file_structure := None; zip_flag := zip; encrypt_flag := enc;
         data_flags := WPKEntryDataFlags.NONE |}.

Fixpoint layout_records (count : nat) : ST bytes (list WPKIndex) :=
  match count with
  | O => ret []
  | S n => idx ← layout_record; rest ← layout_records n; ret (idx :: rest)
  end.

End IndexLayout.

(** ** Vocabulary of the statements *)

Section Vocabulary.
Context {FS : Type} `{!FileSystem FS} `{!Collaborators}.

Implicit Types (s : state FS) (w : WPKFile) (i : Z) (e entry : WPKEntry) (d : list event).

(** The state after [d] more events. *)
Definition after s d : state FS :=
  {| self := self s; disk := disk s; trace := trace s ++ d |}.

(** The container with [e] cached under [i]. *)
Definition cached w i e : WPKFile :=
  {| idx_path := idx_path w; wpk_path := wpk_path w; options := options w;
     entries := <[i := e]> (entries w); indices := indices w |}.

Definition with_self s w : state FS :=
  {| self := w; disk := disk s; trace := trace s |}.

Definition with_disk s (dk : FS) : state FS :=
  {| self := self s; disk := dk; trace := trace s |}.

(** [0 <= index < len(self.indices)] *)
Definition valid_ordinal w i : Prop := 0 ≤ i < Z.of_nat (length (indices w)).

(** The record of ordinal [i]. *)
Definition record w i : option WPKIndex :=
  if bool_decide (0 ≤ i) then indices w !! Z.to_nat i else None.

(** The fresh entry of [read_entry] once the attributes of the index record
    are copied into it. *)
Definition entry_of (idx : WPKIndex) : WPKEntry := entry_set_base WPKEntry_default idx.

(** The placeholder returned for an ordinal out of range. *)
Definition error_entry : WPKEntry :=
  entry_or_flag WPKEntry_default WPKEntryDataFlags.ERROR.

(** The rename at the end of [read_entry]. *)
Definition with_extension e : WPKEntry :=
  if bool_decide (extension e = "") then e
  else entry_set_filename e (filename e +:+ "." +:+ extension e).

(** The bytes the raw-slice stage takes from a data file of content [c]. *)
Definition raw_slice (c : bytes) (idx : WPKIndex) : bytes :=
  take (N.to_nat (file_length idx)) (drop (N.to_nat (file_offset idx)) c).

(** The same for an open file, wherever its cursor is. *)
Definition slice_of (file : BufferedReader) entry : bytes :=
  (file_read (file_seek file (file_offset entry)) (file_length entry)).1.

(** The stage that receives the raw slice. *)
Definition first_stage (idx : WPKIndex) : stage :=
  if negb (encrypt_flag idx =? DecryptionType_NONE) then Decrypt
  else if negb (zip_flag idx =? CompressionType_NONE) then Decompress
  else CheckRotor.

(** The entry as it reaches the decompression stage: the raw slice, decrypted
    when the record is encrypted. *)
Definition before_decompression (key : option Z) entry : result WPKEntry :=
  if negb (encrypt_flag entry =? DecryptionType_NONE)
  then match decrypt_entry entry key with
       | Ok d => Ok (entry_set_data entry d)
       | Raise x => Raise x
       end
  else Ok entry.

(** The events up to the decompression stage. *)
Definition events_before_decompression entry : list event :=
  if negb (encrypt_flag entry =? DecryptionType_NONE)
  then [Call Decrypt entry] else [].

(** The flag and the log record of a failed decompression. *)
Definition failure_flag (o : WPKReadOptions) : Z :=
  if key_configured o then WPKEntryDataFlags.ENCRYPTED else WPKEntryDataFlags.ERROR.

Definition failure_log (o : WPKReadOptions) entry : event :=
  if key_configured o
  then Log ERROR "Error decompressing file; check decryption key" []
  else Log CRITICAL "Error decompressing the file using %s compression"
         [ArgInt (zip_flag entry)].

(** Two records that differ at most in their data flags. *)
Definition same_record (a b : WPKIndex) : Prop :=
  set_data_flags a 0 = set_data_flags b 0.

(** The events of the decode stages: each stage at most once, in the order
    of the pipeline. *)
Definition decode_trace d : Prop :=
  StronglySorted lt (rank <$> d) ∧ Forall (fun ev => 4 ≤ rank ev ≤ 13)%nat d.

(** The bytes an open file still has to give. *)
Definition remaining (f : BufferedReader) : bytes := drop (position f) (content f).

(** The container with [idxs] appended to its index table. *)
Definition with_indices w (idxs : list WPKIndex) : WPKFile :=
  {| idx_path := idx_path w; wpk_path := wpk_path w; options := options w;
     entries := entries w; indices := indices w ++ idxs |}.

(** The debug record [_read_indices] logs for an index record. *)
Definition index_log (idx : WPKIndex) : event := Log DEBUG "Index: %s" [ArgIndex idx].

Definition is_log (ev : event) : bool :=
  match ev with
  | Log _ _ _ => true
  | _ => false
  end.

(** The info record [__init__] logs. *)
Definition opening_log (idx_path_ : string) : event :=
  Log INFO "Opening WPK index: %s" [ArgStr idx_path_].

(** The container [__init__] sets up before it reads the index file. *)
Definition empty_container (idx_path_ : string) (wpk_path_ : option string)
    (options_ : option WPKReadOptions) : WPKFile :=
  {| idx_path := idx_path_;
     wpk_path :=
       match wpk_path_ with
       | Some p => if bool_decide (p = "") then (os_path.splitext idx_path_).1 +:+ ".wpk" else p
       | None => (os_path.splitext idx_path_).1 +:+ ".wpk"
       end;
     options := default WPKReadOptions_default options_;
     entries := ∅;
     indices := [] |}.

(** The log record of an ordinal out of range. *)
Definition out_of_range_log i : event :=
  Log CRITICAL "Entry index out of range: %d" [ArgInt i].

(** The five ways [read_entry] can go, with the result and the state each
    leaves behind. *)
Inductive resolution i s : result WPKEntry -> state FS -> Prop :=
| res_cached e :
    entries (self s) !! i = Some e ->
    resolution i s (Ok e) s
| res_out_of_range :
    entries (self s) !! i = None ->
    ¬ valid_ordinal (self s) i ->
    resolution i s (Ok error_entry) (after s [out_of_range_log i])
| res_not_opened idx x :
    entries (self s) !! i = None ->
    record (self s) i = Some idx ->
    fs_open_rb (disk s) (wpk_path (self s)) = Raise x ->
    resolution i s (Raise x) (after s [OpenRb (wpk_path (self s))])
| res_raised idx c x d :
    entries (self s) !! i = None ->
    record (self s) i = Some idx ->
    fs_open_rb (disk s) (wpk_path (self s)) = Ok c ->
    decode_trace d ->
    head d = Some (Call (first_stage idx) (entry_set_data (entry_of idx) (raw_slice c idx))) ->
    resolution i s (Raise x)
      (after s (OpenRb (wpk_path (self s)) :: Seek (file_offset idx)
                :: Read (file_length idx) (raw_slice c idx) :: d))
| res_resolved idx c e0 d :
    entries (self s) !! i = None ->
    record (self s) i = Some idx ->
    fs_open_rb (disk s) (wpk_path (self s)) = Ok c ->
    decode_trace d ->
    head d = Some (Call (first_stage idx) (entry_set_data (entry_of idx) (raw_slice c idx))) ->
    same_record e0 idx ->
    extension e0 = "" ∨ get_ext (data e0) (data_flags e0) = Ok (extension e0) ->
    resolution i s (Ok (with_extension e0))
      (with_self
         (after s (OpenRb (wpk_path (self s)) :: Seek (file_offset idx)
                   :: Read (file_length idx) (raw_slice c idx) :: d))
         (cached (self s) i (with_extension e0))).

(** A file name that does not start with the separator. *)
Definition relative (name : string) : Prop := os_path.startswith_sep name = false.

(** Where [extract_all] puts an entry, and what it asks of the file system
    for it. *)
Definition destination (output_dir : string) e : string :=
  os_path.join output_dir (filename e).

Definition outputs (output_dir : string) e : list event :=
  [Makedirs (os_path.dirname (destination output_dir e));
   WriteFile (destination output_dir e) (data e)].

(** What [detect_file_type] makes of a file with content [c]. *)
Definition sniff (c : bytes) : option string :=
  if is_idx_signature (take 4 c) then Some "idx"
  else if is_wpk_signature (take 4 c) then Some "wpk"
  else None.

(** [w'] is [w] with possibly more entries cached: same paths, options and
    index table, and every entry of [w] still there. *)
Definition extends_cache w w' : Prop :=
  idx_path w' = idx_path w ∧ wpk_path w' = wpk_path w ∧ options w' = options w ∧
  indices w' = indices w ∧ entries w ⊆ entries w'.

(** The operations a consumer runs on an open container. *)
Inductive operation :=
| OpReadEntry (index : Z)
| OpIsEntryLoaded (index : Z)
| OpExtractAll (output_dir : string).

Definition run_operation (op : operation) s : state FS :=
  match op with
  | OpReadEntry i => (read_entry i s).2
  | OpIsEntryLoaded i => (is_entry_loaded i s).2
  | OpExtractAll dir => (extract_all dir s).2
  end.

Definition run_operations (ops : list operation) s : state FS :=
  foldl (fun s op => run_operation op s) s ops.

(** The states a container goes through: it is opened, then resolved from,
    extracted, renamed in by the file list, while the disk may change under
    it. *)
Inductive reachable : state FS -> Prop :=
| reach_open idx_path_ wpk_path_ options_ s0 s :
    WPKFile_init idx_path_ wpk_path_ options_ s0 = (Ok tt, s) -> reachable s
| reach_operation op s : reachable s -> reachable (run_operation op s)
| reach_rename row name s :
    reachable s -> reachable (show_rename_dialog row name s).2
| reach_disk dk s : reachable s -> reachable (with_disk s dk).

(** What every reachable container satisfies: only ordinals in range are
    cached, and no index record carries a data flag. *)
Definition well_formed w : Prop :=
  (∀ i, is_Some (entries w !! i) -> valid_ordinal w i) ∧
  Forall (fun idx => data_flags idx = WPKEntryDataFlags.NONE) (indices w).

End Vocabulary.

(** ** core/wpk/class_types.py: the read-only properties of an entry *)

Section EntryProperties.
Context `{!Collaborators}.

(** [WPKEntry.is_compressed], [WPKEntry.is_encrypted], [WPKEntry.get_data] *)
Definition is_compressed (e : WPKEntry) : bool :=
  negb (zip_flag e =? CompressionType_NONE).

Definition is_encrypted (e : WPKEntry) : bool :=
  negb (encrypt_flag e =? DecryptionType_NONE).

Definition get_data (e : WPKEntry) : bytes := data e.

End EntryProperties.

(** ** More vocabulary *)

#[global] Instance stage_eq_dec : EqDecision stage.
Proof. solve_decision. Defined.

(** The entries handed to the primitive of stage [st] in a trace, oldest
    first. *)
Fixpoint calls_of (st : stage) (t : list event) : list WPKEntry :=
  match t with
  | [] => []
  | Call st' e :: t' => if decide (st' = st) then e :: calls_of st t' else calls_of st t'
  | _ :: t' => calls_of st t'
  end.

Section MoreVocabulary.
Context {FS : Type} `{!FileSystem FS} `{!Collaborators}.

Implicit Types (s : state FS) (w : WPKFile) (i : Z) (e entry : WPKEntry) (d : list event).

(** The options [parse_args] builds from [--key]. *)
Definition options_of (arguments : Namespace) : WPKReadOptions :=
  {| decryption_key := arg_key arguments; aes_key := None; info_size := None |}.

(** A cached entry and its index record agree on everything the index file
    gave: only the name and the data flags are the entry's own. *)
Definition same_fields e (idx : WPKIndex) : Prop :=
  file_offset e = file_offset idx ∧ file_length e = file_length idx ∧
  file_original_length e = file_original_length idx ∧
  zcrc e = zcrc idx ∧ crc e = crc idx ∧ file_structure e = file_structure idx ∧
  zip_flag e = zip_flag idx ∧ encrypt_flag e = encrypt_flag idx.

Definition consistent w : Prop :=
  ∀ i e, entries w !! i = Some e ->
         ∃ idx, record w i = Some idx ∧ same_fields e idx ∧
                (filename e = filename idx ∨
                 filename e = filename idx +:+ "." +:+ extension e).

End MoreVocabulary.

(** The flags of an entry that went through the whole pipeline: what it
    had, ROTOR_PACKED and NXS3_PACKED when the secondary-layer checks
    accepted it, TEXT unless [is_binary] said yes. *)
Definition decoded_flags (flags : Z) (rotor nxs3 binary : bool) : Z :=
  let flags := if rotor then Z.lor flags WPKEntryDataFlags.ROTOR_PACKED else flags in
  let flags := if nxs3 then Z.lor flags WPKEntryDataFlags.NXS3_PACKED else flags in
  if binary then flags else Z.lor flags WPKEntryDataFlags.TEXT.

(** The characters of a string do not include [c]. *)
Definition without (c : ascii) (p : string) : Prop := c ∉ list_ascii_of_string p.


(** A file name has a stem when some character of it is not a dot: the
    test of the loop in [os.path.splitext] that skips leading dots. *)
Definition has_stem (name : string) : bool :=
  existsb (fun c => negb (Ascii.eqb c os_path.extsep)) (list_ascii_of_string name).

Section StageCounts.
Context `{!Collaborators}.

(** How often the primitive of each stage is called while the pipeline runs
    on [entry]: decryption and decompression when the record asks for them;
    after a failed decompression ([failed]) nothing else; otherwise each
    check and each classification step once, and an unpacking step when its
    check accepted ([rotor], [nxs3]). *)
Definition pipeline_runs (entry : WPKEntry) (failed rotor nxs3 : bool) (st : stage) : nat :=
  match st with
  | Decrypt => if is_encrypted entry then 1 else 0
  | Decompress => if is_compressed entry then 1 else 0
  | UnpackRotor => if negb failed && rotor then 1 else 0
  | UnpackNxs3 => if negb failed && nxs3 then 1 else 0
  | CheckRotor | CheckNxs3 | IsBinary | GetExt | GetFileCategory =>
      if failed then 0 else 1
  end.

(** The same, read off the index record and the flags of the entry that
    came back. *)
Definition stage_runs (idx : WPKIndex) (e : WPKEntry) (st : stage) : nat :=
  pipeline_runs (entry_of idx)
    (WPKEntryDataFlags.has (data_flags e) WPKEntryDataFlags.ERROR ||
     WPKEntryDataFlags.has (data_flags e) WPKEntryDataFlags.ENCRYPTED)
    (WPKEntryDataFlags.has (data_flags e) WPKEntryDataFlags.ROTOR_PACKED)
    (WPKEntryDataFlags.has (data_flags e) WPKEntryDataFlags.NXS3_PACKED)
    st.

End StageCounts.


(** ** posixpath: [os.path.basename] *)

Module posixpath.

(** [p[p.rfind('/') + 1:]] *)
Definition basename (p : string) : string :=
  os_path.from p (os_path.rfind p os_path.sep + 1).

End posixpath.

(** ** Python values of the GUI code *)

(** [l[i]] on a list: a negative index counts from the end, an index out of
    range raises [IndexError]. *)
Definition getitem {A} (l : list A) (i : Z) : result A :=
  let n := Z.of_nat (length l) in
  let k := if i <? 0 then i + n else i in
  if (0 <=? k) && (k <? n)
  then match l !! Z.to_nat k with
       | Some a => Ok a
       | None => Raise IndexError
       end
  else Raise IndexError.

(** [str.lower] on the ASCII letters.  The only use is the test
    [path.lower().endswith(".idx")], whose outcome the other characters do
    not change: none of them has a lower case form ending in one of the
    four characters of ".idx". *)
Definition ascii_lower (c : ascii) : ascii :=
  let n := N_of_ascii c in
  if (65 <=? n)%N && (n <=? 90)%N then ascii_of_N (n + 32) else c.

Definition lower (p : string) : string :=
  string_of_list_ascii (ascii_lower <$> list_ascii_of_string p).

(** [p.endswith(suffix)] *)
Definition endswith (p suffix : string) : bool :=
  let lp := list_ascii_of_string p in
  let ls := list_ascii_of_string suffix in
  bool_decide (length ls ≤ length lp)%nat &&
  bool_decide (drop (length lp - length ls) lp = ls).


(** A [QModelIndex], as far as the code looks at it. *)
Record QModelIndex := mkQModelIndex {
  isValid : bool;
  row : Z
}.

(** [QtCore.Qt.ItemDataRole]: the three roles [data] answers, and the
    others. *)
Inductive ItemDataRole := DisplayRole | DecorationRole | UserRole | OtherRole.

(** The standard icons the model picks in [__init__]; the list view always
    creates its model with itself as parent, so the four are set. *)
Inductive QIcon :=
| SP_BrowserReload          (* _loading_icon *)
| SP_MessageBoxWarning      (* _encrypted_icon *)
| SP_MessageBoxCritical     (* _errored_icon *)
| SP_FileIcon.              (* _file_icon *)

(** What [data] returns. *)
Inductive item_data :=
| NoData                        (* None *)
| Text (text : string)
| Icon (icon : QIcon)
| IndexRecord (idx : WPKIndex).

(** [QMessageBox.information(self, title, text)] and
    [QMessageBox.critical(self, title, text + str(e))]. *)
Inductive QMessageBox :=
| information (title text : string)
| critical (title text : string) (e : exception).

(** ** The state of the window

    [world] holds the container of the application property "wpk_file", the
    disk and the trace; [loaded] tells whether that property is set (when it
    is not, the container in [world] is not reachable from the code).  The
    list view's model and the property are always replaced together
    ([refresh_wpk_file] follows every [setProperty]), so the model's
    [_wpk_file] is that same container and a model exists exactly when
    [loaded].  [_file_names_cache] is a class attribute of [WPKFileModel]: a
    dict that every model instance shares and that no code path clears.
    [boxes] lists the message boxes shown, oldest first.  Calls that only
    change how widgets look are left out. *)

Section Window.
Context {FS : Type} `{!FileSystem FS} `{!Collaborators}.

Record application := mkApplication {
  world : state FS;
  loaded : bool;
  _file_names_cache : gmap Z string;
  boxes : list QMessageBox
}.

Abbreviation G := (ST application).

Definition get_application : G application := fun g => (Ok g, g).

(** A method of the container, or a call to the file system or the logger,
    run from the window. *)
Definition on_world {A} (m : M FS A) : G A :=
  fun g =>
    let '(r, s) := m (world g) in
    (r, {| world := s; loaded := loaded g;
           _file_names_cache := _file_names_cache g; boxes := boxes g |}).

(** [self.app.setProperty("wpk_file", ...)] followed by
    [refresh_wpk_file()]. *)
Definition set_loaded (b : bool) : G unit :=
  fun g => (Ok tt, {| world := world g; loaded := b;
                      _file_names_cache := _file_names_cache g; boxes := boxes g |}).

(** [self._file_names_cache[row] = name] *)
Definition remember_name (row_ : Z) (name : string) : G unit :=
  fun g => (Ok tt, {| world := world g; loaded := loaded g;
                      _file_names_cache := <[row_ := name]> (_file_names_cache g);
                      boxes := boxes g |}).


(** The window states that differ at most in the names cache. *)
Definition same_but_names (g g' : application) : Prop :=
  world g' = world g ∧ loaded g' = loaded g ∧ boxes g' = boxes g.

End Window.

Arguments application FS : clear implicits.

Abbreviation G FS := (ST (application FS)).

(** ** gui/models/wpk_file_model.py *)

Module WPKFileModel.
Section Model.
Context {FS : Type} `{!FileSystem FS} `{!Collaborators}.

Definition rowCount : G FS Z :=
  g ← get_application; ret (Z.of_nat (length (indices (self (world g))))).

Definition get_filename (index : QModelIndex) (invalidate_cache : bool) : G FS string :=
  if negb (isValid index) then ret ""
  else
    g ← get_application;
    match _file_names_cache g !! row index with
    | Some name =>
        if negb invalidate_cache then ret name
        else
          idx ← on_world (lift (getitem (indices (self (world g))) (row index)));
          remember_name (row index) (filename idx);;
          ret (filename idx)
    | None =>
        idx ← on_world (lift (getitem (indices (self (world g))) (row index)));
        remember_name (row index) (filename idx);;
        ret (filename idx)
    end.

Definition data (index : QModelIndex) (role : ItemDataRole) : G FS item_data :=
  if negb (isValid index) then ret NoData
  else
    match role with
    | DisplayRole =>
        filename ← get_filename index false;
        is_loaded ← on_world (is_entry_loaded (row index));
        if negb is_loaded then ret (Text filename)
        else
          entry ← on_world (read_entry (row index) : M FS WPKEntry);
          if WPKEntryDataFlags.has (data_flags entry) WPKEntryDataFlags.ERROR
          then ret (Text (filename +:+ " (Error)"))
          else if WPKEntryDataFlags.has (data_flags entry) WPKEntryDataFlags.ENCRYPTED
          then ret (Text (filename +:+ " (Encrypted)"))
          else ret (Text filename)
    | DecorationRole =>
        is_loaded ← on_world (is_entry_loaded (row index));
        if negb is_loaded then ret (Icon SP_BrowserReload)
        else
          entry ← on_world (read_entry (row index) : M FS WPKEntry);
          if WPKEntryDataFlags.has (data_flags entry) WPKEntryDataFlags.ERROR
          then ret (Icon SP_MessageBoxCritical)
          else if WPKEntryDataFlags.has (data_flags entry) WPKEntryDataFlags.ENCRYPTED
          then ret (Icon SP_MessageBoxWarning)
          else ret (Icon SP_FileIcon)
    | UserRole =>
        g ← get_application;
        idx ← on_world (lift (getitem (indices (self (world g))) (row index)));
        ret (IndexRecord idx)
    | OtherRole => ret NoData
    end.

End Model.
End WPKFileModel.

(** ** gui/widgets/wpk_file_list.py: [extract_entries]

    [answer] is what the file dialog returned: the path to save to when one
    row is selected, the directory otherwise; it is empty when the dialog
    was cancelled. *)

Module WPKFileList.
Section ListView.
Context {FS : Type} `{!FileSystem FS} `{!Collaborators}.





End ListView.
End WPKFileList.

(** ** gui/windows/main_window.py: [unload_wpk] and [load_wpk] *)

Module MainWindow.
Section Main.
Context {FS : Type} `{!FileSystem FS} `{!Collaborators}.

Definition unload_wpk : G FS unit :=
  g ← get_application;
  if negb (loaded g) then ret tt
  else
    set_loaded false;;
    on_world (log INFO "WPK file unloaded." []).

Definition load_wpk (path : string) : G FS unit :=
  unload_wpk;;
  (if endswith (lower path) ".idx"
   then on_world (WPKFile_init path None None)
   else on_world (WPKFile_init ((os_path.splitext path).1 +:+ ".idx") (Some path) None));;
  set_loaded true;;
  on_world (log INFO "WPK file loaded: %s" [ArgStr path]).

End Main.
End MainWindow.

(** ** The concrete world, continued

    A command line, an archive whose second entry cannot be decrypted, and a
    window on an opened container with nothing remembered yet. *)

Module FakeWindow.

(** [wpk <path> -o out] *)
Definition command_line (path : string) : Namespace :=
  {| arg_subcommand := Some "wpk"; arg_path := path; arg_wpk_path := None;
     arg_output := "out"; arg_key := None |}.

(** The data file of "odd" under an index table that lists "tail" before
    "sealed". *)
Definition mixed_at : WPKReadOptions -> state (gmap string bytes) :=
  Fake.opened "odd" [Fake.tail; Fake.sealed].

Definition window (s : state (gmap string bytes)) : application (gmap string bytes) :=
  {| world := s; loaded := true; _file_names_cache := ∅; boxes := [] |}.

(** The index [model.index(row)] of a row in range. *)
Definition index_of (row_ : Z) : QModelIndex := {| isValid := true; row := row_ |}.

End FakeWindow.

Example splitext_1 : os_path.splitext "dir.d/archive.idx" = ("dir.d/archive", ".idx").
Proof. reflexivity. Qed.
Example splitext_2 : os_path.splitext "dir.d/.hidden" = ("dir.d/.hidden", "").
Proof. reflexivity. Qed.
Example splitext_3 : os_path.splitext "a.tar.gz" = ("a.tar", ".gz").
Proof. reflexivity. Qed.
Example splitext_4 : os_path.splitext "dir.d/noext" = ("dir.d/noext", "").
Proof. reflexivity. Qed.
Example splitext_5 : os_path.splitext "..x.y" = ("..x", ".y").
Proof. reflexivity. Qed.
Example join_1 : os_path.join "out" "a/b.txt" = "out/a/b.txt".
Proof. reflexivity. Qed.
Example join_2 : os_path.join "out/" "a" = "out/a".
Proof. reflexivity. Qed.
Example join_3 : os_path.join "out" "/etc/x" = "/etc/x".
Proof. reflexivity. Qed.
Example join_4 : os_path.join "" "a" = "a".
Proof. reflexivity. Qed.
Example dirname_1 : os_path.dirname "out/a/b.txt" = "out/a".
Proof. reflexivity. Qed.
Example dirname_2 : os_path.dirname "/x" = "/".
Proof. reflexivity. Qed.
Example dirname_3 : os_path.dirname "x" = "".
Proof. reflexivity. Qed.
Example dirname_4 : os_path.dirname "a//b" = "a".
Proof. reflexivity. Qed.

(** * Properties *)

Section ReaderFacts.
Context {FS : Type} `{!FileSystem FS} `{!Collaborators}.

Implicit Types (s : state FS) (w : WPKFile) (i : Z) (e entry : WPKEntry) (d : list event).

Lemma after_nil s : after s [] = s.
Proof. destruct s; unfold after; simpl. by rewrite app_nil_r. Qed.

Lemma after_after s d1 d2 : after (after s d1) d2 = after s (d1 ++ d2).
Proof. unfold after; simpl. by rewrite app_assoc. Qed.

Lemma bind_ok {A B} (m : M FS A) (f : A -> M FS B) s a s' :
  m s = (Ok a, s') -> bind m f s = f a s'.
Proof. unfold bind. by intros ->. Qed.

Lemma bind_raise {A B} (m : M FS A) (f : A -> M FS B) s x s' :
  m s = (Raise x, s') -> bind m f s = (Raise x, s').
Proof. unfold bind. by intros ->. Qed.

Lemma slice_of_open c entry :
  slice_of {| content := c; position := 0 |} entry = raw_slice c entry.
Proof. reflexivity. Qed.

(** ** [_load_entry_data] *)

(** Whatever the primitives answer: the container and the disk are left
    alone, the slice is read first and handed to the first stage, the stages
    run at most once each and in order, and a returned entry is the record
    it started from, up to its data flags, with the extension it came with
    or the one [get_ext] derived from its final bytes and flags. *)
Lemma load_spec entry file s :
  ∃ r d,
    _load_entry_data entry file s =
      (r, after s (Seek (file_offset entry)
                   :: Read (file_length entry) (slice_of file entry) :: d)) ∧
    decode_trace d ∧
    head d = Some (Call (first_stage entry) (entry_set_data entry (slice_of file entry))) ∧
    ∀ e, r = Ok e →
      same_record e entry ∧
      (extension e = extension entry ∨
       get_ext (data e) (data_flags e) = Ok (extension e)).
Proof.
  unfold _load_entry_data, call, seek, read, log, get_self, lift, first_stage, slice_of.
  unfold bind, ret, emit. simpl.
  destruct (negb (encrypt_flag entry =? DecryptionType_NONE)) eqn:Henc,
    (negb (zip_flag entry =? CompressionType_NONE)) eqn:Hzip; simpl.
  all: rewrite ?Hzip; repeat case_match; simplify_eq/=.
  all: do 2 eexists; (split; [unfold after; simpl; rewrite <- ?app_assoc; simpl; reflexivity|]).
  all: split; [split; simpl; repeat constructor; simpl; lia|].
  all: split; [reflexivity|]; intros ? ?; simplify_eq.
  all: split; [reflexivity|]; simpl; first [by left|by right].
Qed.

(** A decryption that raises ends the method with that exception. *)
Lemma load_decrypt_raises entry file s x :
  let raw := entry_set_data entry (slice_of file entry) in
  before_decompression (decryption_key (options (self s))) raw = Raise x ->
  _load_entry_data entry file s =
    (Raise x, after s [Seek (file_offset entry);
                       Read (file_length entry) (slice_of file entry);
                       Call Decrypt raw]).
Proof.
  intros raw. unfold before_decompression, _load_entry_data, call, seek, read,
    log, get_self, lift, slice_of in *.
  unfold bind, ret, emit. simpl.
  subst raw. simpl.
  destruct (negb (encrypt_flag entry =? DecryptionType_NONE)); [|done].
  simpl. case_match; [done|]. intros [= ->].
  unfold after; simpl. by rewrite <- !app_assoc.
Qed.

(** A decompression that raises ends the method at once, with the entry as
    it stood before the stage plus one flag. *)
Lemma load_decompress_raises entry file s pre x :
  let raw := entry_set_data entry (slice_of file entry) in
  let o := options (self s) in
  before_decompression (decryption_key o) raw = Ok pre ->
  zip_flag entry ≠ CompressionType_NONE ->
  decompress_entry pre = Raise x ->
  _load_entry_data entry file s =
    (Ok (entry_or_flag pre (failure_flag o)),
     after s ([Seek (file_offset entry);
               Read (file_length entry) (slice_of file entry)]
              ++ events_before_decompression raw
              ++ [Call Decompress pre; failure_log o pre])).
Proof.
  intros raw o Hpre Hzip Hx.
  assert (Hz : negb (zip_flag entry =? CompressionType_NONE) = true).
  { apply negb_true_iff, Z.eqb_neq, Hzip. }
  unfold before_decompression, events_before_decompression, failure_flag,
    failure_log, _load_entry_data, call, seek, read, log, get_self, lift,
    slice_of in *.
  unfold bind, ret, emit. subst raw o. simpl in *.
  destruct (negb (encrypt_flag entry =? DecryptionType_NONE)); simpl.
  - destruct (decrypt_entry _ _) eqn:Hd; [|done]. simplify_eq/=.
    rewrite Hz. simpl. rewrite Hx.
    destruct (key_configured _); simpl; unfold after; simpl;
      by rewrite <- !app_assoc.
  - simplify_eq/=. rewrite Hz. simpl. rewrite Hx.
    destruct (key_configured _); simpl; unfold after; simpl;
      by rewrite <- !app_assoc.
Qed.

End ReaderFacts.


Section ReadEntry.
Context {FS : Type} `{!FileSystem FS} `{!Collaborators}.

Implicit Types (s : state FS) (w : WPKFile) (i : Z) (e entry : WPKEntry) (d : list event).

(** ** [read_entry] *)

Lemma record_valid w i : is_Some (record w i) ↔ valid_ordinal w i.
Proof.
  unfold record, valid_ordinal. case_bool_decide.
  - rewrite lookup_lt_is_Some. lia.
  - split; [by intros [? ?]|lia].
Qed.

Lemma record_lookup w i idx :
  record w i = Some idx -> 0 ≤ i ∧ indices w !! Z.to_nat i = Some idx.
Proof. unfold record. case_bool_decide; [done|discriminate]. Qed.

Lemma range_check_true w i :
  valid_ordinal w i ->
  negb ((0 <=? i) && (i <? Z.of_nat (length (indices w)))) = false.
Proof.
  intros [? ?]. apply negb_false_iff, andb_true_iff.
  split; [by apply Z.leb_le|by apply Z.ltb_lt].
Qed.

Lemma range_check_false w i :
  ¬ valid_ordinal w i ->
  negb ((0 <=? i) && (i <? Z.of_nat (length (indices w)))) = true.
Proof.
  intros Hn. apply negb_true_iff, andb_false_iff.
  unfold valid_ordinal in Hn.
  destruct (decide (0 ≤ i)); [right; apply Z.ltb_ge; lia|left; apply Z.leb_gt; lia].
Qed.

Lemma read_entry_cached i s e :
  entries (self s) !! i = Some e -> read_entry i s = (Ok e, s).
Proof. intros He. unfold read_entry, bind, get_self, ret. by rewrite He. Qed.

Lemma read_entry_out_of_range i s :
  entries (self s) !! i = None -> ¬ valid_ordinal (self s) i ->
  read_entry i s = (Ok error_entry, after s [out_of_range_log i]).
Proof.
  intros He Hi. unfold read_entry, bind, get_self, ret. rewrite He.
  by rewrite (range_check_false _ _ Hi).
Qed.

Lemma read_entry_not_opened i s idx x :
  entries (self s) !! i = None -> record (self s) i = Some idx ->
  fs_open_rb (disk s) (wpk_path (self s)) = Raise x ->
  read_entry i s = (Raise x, after s [OpenRb (wpk_path (self s))]).
Proof.
  intros He Hr Hx. destruct (record_lookup _ _ _ Hr) as [? Hl].
  unfold read_entry, bind, get_self, ret. rewrite He.
  rewrite range_check_true by (apply record_valid; eauto).
  rewrite Hl. unfold open_rb, bind, emit, sys_open_rb. simpl. by rewrite Hx.
Qed.

(** The ordinal is in range, nothing is cached and the data file opens:
    [read_entry] is [_load_entry_data] on the fresh entry, then the rename
    and the store into the cache. *)
Lemma read_entry_loads i s idx c :
  entries (self s) !! i = None -> record (self s) i = Some idx ->
  fs_open_rb (disk s) (wpk_path (self s)) = Ok c ->
  read_entry i s =
    match _load_entry_data (entry_of idx) {| content := c; position := 0 |}
            (after s [OpenRb (wpk_path (self s))]) with
    | (Ok e, s') => (Ok (with_extension e),
                     with_self s' (cached (self s') i (with_extension e)))
    | (Raise x, s') => (Raise x, s')
    end.
Proof.
  intros He Hr Hc. destruct (record_lookup _ _ _ Hr) as [? Hl].
  unfold read_entry, bind, get_self, ret. rewrite He.
  rewrite range_check_true by (apply record_valid; eauto).
  rewrite Hl. unfold open_rb, bind, emit, sys_open_rb. simpl. rewrite Hc.
  fold (after s [OpenRb (wpk_path (self s))]). fold (entry_of idx).
  destruct (_load_entry_data _ _ _) as [[e|x] s']; [|done].
  reflexivity.
Qed.

(** Every run of [read_entry] is one of the five resolutions. *)
Lemma read_entry_resolution i s :
  resolution i s (read_entry i s).1 (read_entry i s).2.
Proof.
  destruct (entries (self s) !! i) as [e|] eqn:He.
  { rewrite (read_entry_cached _ _ _ He). by constructor. }
  destruct (record (self s) i) as [idx|] eqn:Hr; cycle 1.
  { assert (¬ valid_ordinal (self s) i) as Hn.
    { rewrite <- record_valid, Hr. by intros [? ?]. }
    rewrite (read_entry_out_of_range _ _ He Hn). by constructor. }
  destruct (fs_open_rb (disk s) (wpk_path (self s))) as [c|x] eqn:Hc; cycle 1.
  { rewrite (read_entry_not_opened _ _ _ _ He Hr Hc). by econstructor. }
  rewrite (read_entry_loads _ _ _ _ He Hr Hc).
  destruct (load_spec (entry_of idx) {| content := c; position := 0 |}
              (after s [OpenRb (wpk_path (self s))])) as (r & d & -> & Hd & Hh & Hs).
  rewrite slice_of_open in *. rewrite after_after. simpl.
  destruct r as [e0|x]; simpl.
  - destruct (Hs e0 eq_refl) as [Hsame Hext]. eapply res_resolved; eauto.
  - eapply res_raised; eauto.
Qed.

End ReadEntry.


Section Invariants.
Context {FS : Type} `{!FileSystem FS} `{!Collaborators}.

Implicit Types (s : state FS) (w : WPKFile) (i : Z) (e entry : WPKEntry) (d : list event).

(** ** Traces in pipeline order *)

Lemma times_app r d1 d2 : times r (d1 ++ d2) = (times r d1 + times r d2)%nat.
Proof. unfold times. by rewrite filter_app, length_app. Qed.

Lemma times_cons r ev d :
  times r (ev :: d) = ((if decide (rank ev = r) then 1 else 0) + times r d)%nat.
Proof. unfold times. rewrite filter_cons. by case_decide. Qed.

Lemma times_above r d :
  Forall (fun ev => r < rank ev)%nat d -> times r d = 0%nat.
Proof.
  induction 1 as [|ev d Hev _ IH]; [done|].
  rewrite times_cons, IH. case_decide; [lia|done].
Qed.

(** In a trace whose ranks increase, no work is done twice. *)
Lemma sorted_times r d :
  StronglySorted lt (rank <$> d) -> (times r d ≤ 1)%nat.
Proof.
  induction d as [|ev d IH]; simpl; [unfold times; simpl; lia|].
  intros Hs. apply StronglySorted_inv in Hs as [Hs Hall].
  rewrite times_cons. case_decide as Hr; [|specialize (IH Hs); lia].
  rewrite times_above; [lia|].
  rewrite Forall_fmap in Hall. eapply Forall_impl; [exact Hall|].
  simpl. intros; lia.
Qed.

(** The whole of one resolution: open, seek, read, then the stages. *)
Lemma resolution_trace_sorted p off len got d :
  decode_trace d ->
  StronglySorted lt (rank <$> OpenRb p :: Seek off :: Read len got :: d).
Proof.
  intros [Hs Hr]. simpl.
  assert (Forall (fun n => 4 ≤ n)%nat (rank <$> d)) as H4.
  { rewrite Forall_fmap. eapply Forall_impl; [exact Hr|]. simpl. intros; lia. }
  repeat constructor; try lia; try done.
  all: eapply Forall_impl; [exact H4|]; simpl; intros; lia.
Qed.

Lemma decode_trace_no_output d : decode_trace d -> filter is_output d = [].
Proof.
  intros [_ Hr]. induction Hr as [|ev d Hev _ IH]; [done|].
  rewrite filter_cons. destruct ev as [| | | |st ?| |]; simpl in *; try done; lia.
Qed.

(** ** What [read_entry] does to the container *)

Lemma extends_cache_refl w : extends_cache w w.
Proof. by repeat split. Qed.

Lemma extends_cache_trans w1 w2 w3 :
  extends_cache w1 w2 -> extends_cache w2 w3 -> extends_cache w1 w3.
Proof.
  intros (? & ? & ? & ? & ?) (? & ? & ? & ? & ?).
  repeat split; try congruence. by etrans.
Qed.

Lemma extends_cache_cached w i e :
  entries w !! i = None -> extends_cache w (cached w i e).
Proof. intros. repeat split; simpl. by apply insert_subseteq. Qed.

Lemma extends_cache_lookup w w' i e :
  extends_cache w w' -> entries w !! i = Some e -> entries w' !! i = Some e.
Proof. intros (_ & _ & _ & _ & Hsub) He. by eapply lookup_weaken. Qed.

Lemma read_entry_extends i s : extends_cache (self s) (self (read_entry i s).2).
Proof.
  destruct (read_entry_resolution i s); simpl;
    auto using extends_cache_refl, extends_cache_cached.
Qed.

Lemma read_entry_disk i s : disk (read_entry i s).2 = disk s.
Proof. by destruct (read_entry_resolution i s). Qed.

(** A resolution writes nothing to the destination. *)
Lemma read_entry_no_output i s :
  ∃ d, trace (read_entry i s).2 = trace s ++ d ∧ filter is_output d = [].
Proof.
  destruct (read_entry_resolution i s)
    as [| | |idx c x d0 _ _ _ Hd _|idx c e0 d0 _ _ _ Hd _ _ _]; simpl.
  - exists []. by rewrite app_nil_r.
  - by eexists.
  - by eexists.
  - eexists; split; [done|]. rewrite !filter_cons; simpl.
    by apply decode_trace_no_output.
  - eexists; split; [done|]. rewrite !filter_cons; simpl.
    by apply decode_trace_no_output.
Qed.

Lemma well_formed_cached w i e :
  well_formed w -> valid_ordinal w i -> well_formed (cached w i e).
Proof.
  intros [Hc Hf] Hi. split; [|done]. intros j. simpl.
  destruct (decide (i = j)) as [->|]; [done|].
  rewrite lookup_insert_ne by done. apply Hc.
Qed.

Lemma read_entry_well_formed i s :
  well_formed (self s) -> well_formed (self (read_entry i s).2).
Proof.
  intros Hw. destruct (read_entry_resolution i s)
    as [| | | |idx c e0 d0 _ Hr _ _ _ _ _]; simpl; try done.
  apply well_formed_cached; [done|]. apply record_valid. by rewrite Hr.
Qed.

(** ** [save_to_file] and [extract_all] *)

Lemma save_to_file_self e p s : self (save_to_file e p s).2 = self s.
Proof.
  unfold save_to_file, makedirs, write_file, bind, emit, sys_makedirs, sys_write.
  simpl. destruct (fs_makedirs _ _); simpl; [|done].
  by destruct (fs_write _ _ _).
Qed.

(** A save that returns has asked for the directory, then written the file. *)
Lemma save_to_file_ok e p s s' :
  save_to_file e p s = (Ok tt, s') ->
  trace s' = trace s ++ [Makedirs (os_path.dirname p); WriteFile p (data e)].
Proof.
  unfold save_to_file, makedirs, write_file, bind, emit, sys_makedirs, sys_write.
  simpl. destruct (fs_makedirs _ _); simpl; [|done].
  destruct (fs_write _ _ _); simpl; [|done].
  intros [= <-]. simpl. by rewrite <- app_assoc.
Qed.

Lemma extract_all_loop_extends dir l s :
  extends_cache (self s) (self (extract_all_loop dir l s).2).
Proof.
  revert s. induction l as [|i l IH]; intros s; simpl; [apply extends_cache_refl|].
  unfold bind. pose proof (read_entry_extends i s) as H1.
  destruct (read_entry i s) as [[e|x] s1]; simpl in *; [|done].
  pose proof (save_to_file_self e (os_path.join dir (filename e)) s1) as H2.
  destruct (save_to_file _ _ s1) as [[[]|x] s2]; simpl in *.
  - eapply extends_cache_trans; [exact H1|]. rewrite <- H2. apply IH.
  - by rewrite H2.
Qed.

Lemma extract_all_loop_well_formed dir l s :
  well_formed (self s) -> well_formed (self (extract_all_loop dir l s).2).
Proof.
  revert s. induction l as [|i l IH]; intros s Hw; simpl; [done|].
  unfold bind. pose proof (read_entry_well_formed i s Hw) as H1.
  destruct (read_entry i s) as [[e|x] s1]; simpl in *; [|done].
  pose proof (save_to_file_self e (os_path.join dir (filename e)) s1) as H2.
  destruct (save_to_file _ _ s1) as [[[]|x] s2]; simpl in *.
  - apply IH. by rewrite H2.
  - by rewrite H2.
Qed.

Lemma run_operation_extends op s :
  extends_cache (self s) (self (run_operation op s)).
Proof.
  destruct op; simpl.
  - apply read_entry_extends.
  - apply extends_cache_refl.
  - unfold extract_all, bind, get_self. apply extract_all_loop_extends.
Qed.

Lemma run_operations_extends ops s :
  extends_cache (self s) (self (run_operations ops s)).
Proof.
  revert s. induction ops as [|op ops IH]; intros s; simpl; [apply extends_cache_refl|].
  eapply extends_cache_trans; [apply run_operation_extends|apply IH].
Qed.

Lemma run_operation_well_formed op s :
  well_formed (self s) -> well_formed (self (run_operation op s)).
Proof.
  destruct op; simpl; intros Hw.
  - by apply read_entry_well_formed.
  - done.
  - unfold extract_all, bind, get_self. by apply extract_all_loop_well_formed.
Qed.

End Invariants.


Section Opening.
Context {FS : Type} `{!FileSystem FS} `{!Collaborators}.

Implicit Types (s : state FS) (w : WPKFile) (i : Z) (e entry : WPKEntry) (d : list event).
Implicit Types (f : BufferedReader) (bs : bytes).

#[local] Arguments remaining : simpl never.
#[local] Arguments file_read : simpl never.

(** ** [_read_indices] against the layout of the index file *)

Lemma drop_length_take {A} (n : nat) (l : list A) : drop (length (take n l)) l = drop n l.
Proof.
  rewrite length_take. destruct (decide (n ≤ length l)%nat).
  - by rewrite Nat.min_l.
  - rewrite Nat.min_r by lia. rewrite !drop_ge; [done|lia|lia].
Qed.

Lemma remaining_read f n :
  remaining (file_read f n).2 = drop (N.to_nat n) (remaining f).
Proof.
  unfold remaining, file_read. simpl.
  rewrite <- drop_drop. apply drop_length_take.
Qed.

Lemma read_uint_layout width f :
  read_uint width f =
    match take_uint width (remaining f) with
    | (Ok v, _) => Ok (v, (file_read f (N.of_nat width)).2)
    | (Raise x, _) => Raise x
    end.
Proof.
  unfold read_uint, take_uint, file_read, remaining. rewrite Nat2N.id.
  rewrite length_take.
  repeat case_bool_decide; try done; lia.
Qed.

Lemma take_uint_rest width bs v bs' :
  take_uint width bs = (Ok v, bs') -> bs' = drop width bs.
Proof. unfold take_uint. case_bool_decide; congruence. Qed.

Lemma take_uint_raise width bs x bs' :
  take_uint width bs = (Raise x, bs') -> x = StructError.
Proof. unfold take_uint. case_bool_decide; congruence. Qed.

Lemma file_read_fst f n : (file_read f n).1 = take (N.to_nat n) (remaining f).
Proof. reflexivity. Qed.

Lemma remaining_read_of_nat f width :
  drop width (remaining f) = remaining (file_read f (N.of_nat width)).2.
Proof. by rewrite remaining_read, Nat2N.id. Qed.

Lemma bind_lift {A B} (r : result A) (k : A -> M FS B) s :
  bind (lift r) k s = match r with Ok a => k a s | Raise x => (Raise x, s) end.
Proof. unfold bind, lift. by destruct r. Qed.

(** One field of the record: the reader and the layout agree, and go on
    from the same bytes. *)
Ltac field Hm :=
  rewrite bind_lift, read_uint_layout in Hm; unfold bind at 1;
  match goal with
  | |- context [take_uint ?w (remaining ?f)] =>
      let E := fresh "E" in
      destruct (take_uint w (remaining f)) as [[?v|?x] ?bs] eqn:E;
      cbv beta iota in Hm |- *;
      [apply take_uint_rest in E; rewrite remaining_read_of_nat in E; subst bs
      |by subst]
  end.

Ltac tag Hm :=
  rewrite bind_lift in Hm; unfold bind at 1, checked at 1;
  match type of Hm with
  | context [match ?r with Ok _ => _ | Raise _ => _ end] =>
      destruct r as [?tag|?x]; cbv beta iota in Hm |- *; [|by subst]
  end.

Lemma _read_index_layout f s :
  match layout_record (remaining f) with
  | (Ok idx, bs') =>
      ∃ f', _read_index f s =
              (Ok f', after (with_self s (with_indices (self s) [idx])) [index_log idx]) ∧
            remaining f' = bs'
  | (Raise x, _) => _read_index f s = (Raise x, s)
  end.
Proof.
  remember (_read_index f s) as m eqn:Hm.
  unfold layout_record, _read_index, read_uint32, read_uint16 in *.
  field Hm. field Hm. field Hm. field Hm. tag Hm. field Hm. tag Hm. field Hm.
  unfold bind at 1, take_bytes at 1.
  rewrite file_read_fst in Hm. tag Hm.
  unfold ret. subst m. eexists. split; [reflexivity|]. by rewrite remaining_read.
Qed.

Lemma with_indices_nil w : with_indices w [] = w.
Proof. destruct w. unfold with_indices; simpl. by rewrite app_nil_r. Qed.

Lemma with_indices_app w l1 l2 :
  with_indices (with_indices w l1) l2 = with_indices w (l1 ++ l2).
Proof. unfold with_indices; simpl. by rewrite app_assoc. Qed.

Lemma with_self_same s : with_self s (self s) = s.
Proof. by destruct s. Qed.

Lemma layout_record_flags bs idx bs' :
  layout_record bs = (Ok idx, bs') -> data_flags idx = WPKEntryDataFlags.NONE.
Proof.
  unfold layout_record, bind, ret, checked, take_bytes.
  repeat case_match; intros; simplify_eq/=; done.
Qed.

Lemma layout_records_flags n bs idxs bs' :
  layout_records n bs = (Ok idxs, bs') ->
  Forall (fun idx => data_flags idx = WPKEntryDataFlags.NONE) idxs.
Proof.
  revert bs idxs bs'. induction n as [|n IH]; intros bs idxs bs'; simpl.
  - unfold ret. intros [= <- <-]. constructor.
  - unfold bind at 1. destruct (layout_record bs) as [[idx|x] bs1] eqn:E1; [|done].
    unfold bind at 1. destruct (layout_records n bs1) as [[rest|x] bs2] eqn:E2; [|done].
    unfold ret. intros [= <- <-]. constructor; eauto using layout_record_flags.
Qed.

(** The loop of [_read_indices] reads what the layout describes, record by
    record; when a record is malformed, those before it have been appended. *)
Lemma _read_indices_loop_layout n f s :
  match layout_records n (remaining f) with
  | (Ok idxs, bs') =>
      ∃ f', _read_indices_loop n f s =
              (Ok f', after (with_self s (with_indices (self s) idxs)) (index_log <$> idxs)) ∧
            remaining f' = bs'
  | (Raise x, _) =>
      ∃ idxs, _read_indices_loop n f s =
                (Raise x, after (with_self s (with_indices (self s) idxs)) (index_log <$> idxs))
  end.
Proof.
  revert f s. induction n as [|n IH]; intros f s; simpl.
  - unfold ret. exists f. split; [|done].
    by rewrite with_indices_nil, with_self_same, after_nil.
  - unfold bind at 1 3 4. pose proof (_read_index_layout f s) as H1.
    destruct (layout_record (remaining f)) as [[idx|x] bs1] eqn:E1.
    + destruct H1 as (f1 & -> & <-).
      set (s1 := after (with_self s (with_indices (self s) [idx])) [index_log idx]).
      specialize (IH f1 s1). unfold bind at 1.
      destruct (layout_records n (remaining f1)) as [[rest|x] bs2] eqn:E2.
      * destruct IH as (f2 & -> & <-). unfold ret. exists f2. split; [|done].
        f_equal. subst s1. unfold after, with_self; simpl.
        by rewrite with_indices_app, <- app_assoc.
      * destruct IH as (idxs & ->). exists (idx :: idxs).
        f_equal. subst s1. unfold after, with_self; simpl.
        by rewrite with_indices_app, <- app_assoc.
    + rewrite H1. exists [].
      by rewrite with_indices_nil, with_self_same, after_nil.
Qed.

(** [__init__] up to the point where the index file is open. *)
Lemma WPKFile_init_opens idx_path_ wpk_path_ options_ s0 c :
  fs_open_rb (disk s0) idx_path_ = Ok c ->
  WPKFile_init idx_path_ wpk_path_ options_ s0 =
    _read_indices {| content := c; position := 0 |}
      (after (with_self s0 (empty_container idx_path_ wpk_path_ options_))
         [opening_log idx_path_; OpenRb idx_path_]).
Proof.
  intros Hc. unfold WPKFile_init, open_rb, log, bind, put_self, emit, sys_open_rb.
  simpl. rewrite Hc. f_equal. unfold after, with_self; simpl.
  by rewrite <- app_assoc.
Qed.

Lemma WPKFile_init_not_opened idx_path_ wpk_path_ options_ s0 x :
  fs_open_rb (disk s0) idx_path_ = Raise x ->
  (WPKFile_init idx_path_ wpk_path_ options_ s0).1 = Raise x.
Proof.
  intros Hc. unfold WPKFile_init, open_rb, log, bind, put_self, emit, sys_open_rb.
  simpl. by rewrite Hc.
Qed.

(** [__init__] against the layout: the first four bytes are the count, the
    records follow. *)
Lemma WPKFile_init_layout idx_path_ wpk_path_ options_ s0 c :
  fs_open_rb (disk s0) idx_path_ = Ok c ->
  let count := le_decode (take 4 c) in
  let s1 := with_self s0 (empty_container idx_path_ wpk_path_ options_) in
  let opening := [opening_log idx_path_; OpenRb idx_path_] in
  ((length c < 4)%nat ->
   WPKFile_init idx_path_ wpk_path_ options_ s0 = (Raise StructError, after s1 opening)) ∧
  ((4 ≤ length c)%nat ->
   match layout_records (N.to_nat count) (drop 4 c) with
   | (Ok idxs, _) =>
       WPKFile_init idx_path_ wpk_path_ options_ s0 =
         (Ok tt, after (with_self s1 (with_indices (self s1) idxs))
                   (opening ++ (index_log <$> idxs)))
   | (Raise x, _) =>
       ∃ idxs,
         WPKFile_init idx_path_ wpk_path_ options_ s0 =
           (Raise x, after (with_self s1 (with_indices (self s1) idxs))
                       (opening ++ (index_log <$> idxs)))
   end).
Proof.
  intros Hc count s1 opening. subst count.
  rewrite (WPKFile_init_opens _ _ _ _ _ Hc). fold s1. fold opening.
  set (f := {| content := c; position := 0 |}).
  assert (remaining f = c) as Hrem by reflexivity.
  unfold _read_indices, read_uint32. rewrite bind_lift, read_uint_layout, Hrem.
  unfold take_uint. split; intros Hlen.
  - rewrite bool_decide_false by lia. done.
  - rewrite bool_decide_true by lia. cbv beta iota.
    unfold bind.
    pose proof (_read_indices_loop_layout (N.to_nat (le_decode (take 4 c)))
                  (file_read f (N.of_nat 4)).2 (after s1 opening)) as Hl.
    rewrite <- remaining_read_of_nat, Hrem in Hl.
    destruct (layout_records _ (drop 4 c)) as [[idxs|x] bs].
    + destruct Hl as (f' & -> & _). unfold ret. f_equal.
      unfold after, with_self; simpl. by rewrite <- app_assoc.
    + destruct Hl as (idxs & ->). exists idxs. f_equal.
      unfold after, with_self; simpl. by rewrite <- app_assoc.
Qed.

(** A container that opened is well formed. *)
Lemma WPKFile_init_well_formed idx_path_ wpk_path_ options_ s0 s :
  WPKFile_init idx_path_ wpk_path_ options_ s0 = (Ok tt, s) -> well_formed (self s).
Proof.
  intros Hinit.
  destruct (fs_open_rb (disk s0) idx_path_) as [c|x] eqn:Hc; cycle 1.
  { pose proof (WPKFile_init_not_opened idx_path_ wpk_path_ options_ s0 x Hc) as H1.
    by rewrite Hinit in H1. }
  destruct (WPKFile_init_layout idx_path_ wpk_path_ options_ s0 c Hc)
    as [Hshort Hlong].
  destruct (decide (length c < 4)%nat) as [Hlt|Hge].
  { rewrite (Hshort Hlt) in Hinit. done. }
  specialize (Hlong ltac:(lia)).
  destruct (layout_records _ _) as [[idxs|x] bs] eqn:El.
  - rewrite Hlong in Hinit. injection Hinit as <-. simpl. split.
    + intros i. simpl. rewrite lookup_empty. by intros [? ?].
    + simpl. eapply layout_records_flags, El.
  - destruct Hlong as (idxs & Hl). rewrite Hl in Hinit. done.
Qed.

End Opening.


Section Resolution.
Context {FS : Type} `{!FileSystem FS} `{!Collaborators}.

Implicit Types (s : state FS) (w : WPKFile) (i : Z) (e entry : WPKEntry) (d : list event).

(** ** Reachable containers *)

Lemma show_rename_dialog_well_formed row name s :
  well_formed (self s) -> well_formed (self (show_rename_dialog row name s).2).
Proof.
  intros [Hc Hf]. unfold show_rename_dialog, bind, get_self, raise, ret, put_self.
  destruct (indices (self s) !! row) as [idx|] eqn:Hrow; simpl; [|done].
  case_bool_decide; simpl; [done|].
  split; simpl.
  - intros j Hj. unfold valid_ordinal in *. simpl. rewrite length_insert.
    apply Hc. destruct (entries (self s) !! Z.of_nat row) as [e0|] eqn:He; [|done].
    destruct (decide (Z.of_nat row = j)) as [<-|Hne]; [by rewrite He|].
    by rewrite lookup_insert_ne in Hj.
  - apply Forall_insert; [done|]. simpl.
    eapply Forall_lookup_1 in Hf; [|exact Hrow]. done.
Qed.

Lemma reachable_well_formed s : reachable s -> well_formed (self s).
Proof.
  induction 1 as [? ? ? ? ? Hinit| | |]; simpl.
  - eapply WPKFile_init_well_formed, Hinit.
  - by apply run_operation_well_formed.
  - by apply show_rename_dialog_well_formed.
  - done.
Qed.

Lemma reachable_uncached s i :
  reachable s -> ¬ valid_ordinal (self s) i -> entries (self s) !! i = None.
Proof.
  intros Hr Hi. destruct (reachable_well_formed s Hr) as [Hc _].
  destruct (entries (self s) !! i) eqn:He; [|done].
  destruct Hi. apply Hc. by rewrite He.
Qed.

Lemma reachable_no_flags s i idx :
  reachable s -> record (self s) i = Some idx ->
  data_flags idx = WPKEntryDataFlags.NONE.
Proof.
  intros Hr Hi. destruct (reachable_well_formed s Hr) as [_ Hf].
  apply record_lookup in Hi as [_ Hi].
  eapply Forall_lookup_1 in Hf; [|exact Hi]. done.
Qed.

(** An entry returned for an ordinal in range is in the cache. *)
Lemma read_entry_returns_cached i s e s' :
  valid_ordinal (self s) i ->
  read_entry i s = (Ok e, s') ->
  entries (self s') !! i = Some e.
Proof.
  intros Hi Hrun. pose proof (read_entry_resolution i s) as Hres.
  rewrite Hrun in Hres. simpl in Hres.
  inversion Hres as [e0 He0| He0 Hn| |
                     |idx c e0 d0 He0 Hr Hc Hd Hh Hsame Hext]; subst.
  - done.
  - done.
  - simpl. by rewrite lookup_insert_eq.
Qed.

(** ** Flags *)

Lemma has_lor_ENCRYPTED a :
  WPKEntryDataFlags.has (Z.lor a WPKEntryDataFlags.ENCRYPTED) WPKEntryDataFlags.ENCRYPTED = true.
Proof.
  unfold WPKEntryDataFlags.has. apply negb_true_iff, Z.eqb_neq. intros H0.
  apply (f_equal (fun z => Z.testbit z 3)) in H0.
  rewrite Z.land_spec, Z.lor_spec in H0. simpl in H0.
  by rewrite orb_true_r in H0.
Qed.

Lemma has_lor_ERROR a :
  WPKEntryDataFlags.has (Z.lor a WPKEntryDataFlags.ERROR) WPKEntryDataFlags.ERROR = true.
Proof.
  unfold WPKEntryDataFlags.has. apply negb_true_iff, Z.eqb_neq. intros H0.
  apply (f_equal (fun z => Z.testbit z 4)) in H0.
  rewrite Z.land_spec, Z.lor_spec in H0. simpl in H0.
  by rewrite orb_true_r in H0.
Qed.

Lemma has_failure_flag o a :
  WPKEntryDataFlags.has (Z.lor a (failure_flag o)) (failure_flag o) = true.
Proof.
  unfold failure_flag. destruct (key_configured o);
    [apply has_lor_ENCRYPTED|apply has_lor_ERROR].
Qed.

(** Decryption replaces the bytes of the entry and nothing else. *)
Lemma before_decompression_base key entry pre :
  before_decompression key entry = Ok pre ->
  base pre = base entry ∧ extension pre = extension entry ∧ category pre = category entry.
Proof.
  unfold before_decompression. destruct (negb _).
  - destruct (decrypt_entry _ _); [|done]. by intros [= <-].
  - by intros [= <-].
Qed.

Lemma same_record_filename (a b : WPKIndex) : same_record a b -> filename a = filename b.
Proof. intros Hs. by apply (f_equal filename) in Hs. Qed.

(** ** The two failures of the decode stages *)

(** The run of [read_entry] whose decompression raises. *)
Lemma read_entry_decompress_raises i s idx c pre x :
  let raw := entry_set_data (entry_of idx) (raw_slice c idx) in
  let o := options (self s) in
  let e := entry_or_flag pre (failure_flag o) in
  entries (self s) !! i = None ->
  record (self s) i = Some idx ->
  fs_open_rb (disk s) (wpk_path (self s)) = Ok c ->
  before_decompression (decryption_key o) raw = Ok pre ->
  zip_flag idx ≠ CompressionType_NONE ->
  decompress_entry pre = Raise x ->
  read_entry i s =
    (Ok e,
     with_self
       (after s ([OpenRb (wpk_path (self s)); Seek (file_offset idx);
                  Read (file_length idx) (raw_slice c idx)]
                 ++ events_before_decompression raw
                 ++ [Call Decompress pre; failure_log o pre]))
       (cached (self s) i e)).
Proof.
  intros raw o e He Hr Hc Hpre Hzip Hx.
  rewrite (read_entry_loads _ _ _ _ He Hr Hc).
  erewrite load_decompress_raises; [| |exact Hzip|exact Hx]; cycle 1.
  { rewrite slice_of_open. exact Hpre. }
  rewrite slice_of_open, after_after. simpl.
  destruct (before_decompression_base _ _ _ Hpre) as (_ & Hext & _).
  unfold with_extension. simpl. rewrite Hext. simpl. reflexivity.
Qed.

(** The run of [read_entry] whose decryption raises. *)
Lemma read_entry_decrypt_raises i s idx c x :
  let raw := entry_set_data (entry_of idx) (raw_slice c idx) in
  entries (self s) !! i = None ->
  record (self s) i = Some idx ->
  fs_open_rb (disk s) (wpk_path (self s)) = Ok c ->
  before_decompression (decryption_key (options (self s))) raw = Raise x ->
  read_entry i s =
    (Raise x,
     after s [OpenRb (wpk_path (self s)); Seek (file_offset idx);
              Read (file_length idx) (raw_slice c idx); Call Decrypt raw]).
Proof.
  intros raw He Hr Hc Hx.
  rewrite (read_entry_loads _ _ _ _ He Hr Hc).
  erewrite load_decrypt_raises; cycle 1.
  { rewrite slice_of_open. exact Hx. }
  by rewrite slice_of_open, after_after.
Qed.

End Resolution.


Section ResolverProperties.
Context {FS : Type} `{!FileSystem FS} `{!Collaborators}.

Implicit Types (s : state FS) (w : WPKFile) (i : Z) (e entry : WPKEntry) (d : list event).

(** C1. In a reachable container, for an ordinal in range that is not yet
    resolved and whose record has a compression tag other than none: when the
    decompression primitive raises on the bytes that reach it, [read_entry]
    returns an entry whose data flags are exactly ENCRYPTED if a decryption
    key is configured and is not zero, and exactly ERROR if there is no key
    or the key is zero.  The pipeline stops there: after the decompression
    call only the failure is logged, no secondary-layer check and no
    classification runs, the extension stays empty, the category stays
    OTHER, and the content is the bytes that were handed to decompression. *)
Theorem decompression_failure_sets_one_flag i s idx c pre x :
  let raw := entry_set_data (entry_of idx) (raw_slice c idx) in
  let o := options (self s) in
  reachable s ->
  entries (self s) !! i = None ->
  record (self s) i = Some idx ->
  zip_flag idx ≠ CompressionType_NONE ->
  fs_open_rb (disk s) (wpk_path (self s)) = Ok c ->
  before_decompression (decryption_key o) raw = Ok pre ->
  decompress_entry pre = Raise x ->
  ∃ e s',
    read_entry i s = (Ok e, s') ∧
    (∀ k, decryption_key o = Some k -> k ≠ 0 ->
          data_flags e = WPKEntryDataFlags.ENCRYPTED ∧
          WPKEntryDataFlags.has (data_flags e) WPKEntryDataFlags.ERROR = false) ∧
    (decryption_key o = None ∨ decryption_key o = Some 0 ->
          data_flags e = WPKEntryDataFlags.ERROR ∧
          WPKEntryDataFlags.has (data_flags e) WPKEntryDataFlags.ENCRYPTED = false) ∧
    data e = data pre ∧ extension e = "" ∧ category e = OTHER ∧
    trace s' =
      trace s ++ [OpenRb (wpk_path (self s)); Seek (file_offset idx);
                  Read (file_length idx) (raw_slice c idx)]
              ++ events_before_decompression raw
              ++ [Call Decompress pre; failure_log o pre].
Proof.
  intros raw o Hreach He Hr Hzip Hc Hpre Hx.
  eexists _, _. split.
  { eapply read_entry_decompress_raises; eauto. }
  destruct (before_decompression_base _ _ _ Hpre) as (Hbase & Hext & Hcat).
  assert (data_flags pre = 0) as Hflags.
  { rewrite Hbase. simpl. eapply reachable_no_flags; eauto. }
  simpl. rewrite Hflags, Hext, Hcat. simpl.
  unfold failure_flag, key_configured. fold o.
  split.
  { intros k Hk Hk0. rewrite Hk. destruct (Z.eqb_spec k 0); [done|]. by simpl. }
  split.
  { intros [Hk|Hk]; rewrite Hk; by simpl. }
  done.
Qed.

(** C2, as the code has it.  For an ordinal in range that is not yet
    resolved and whose data file opens: when the decompression primitive
    rejects the bytes, [read_entry] does not raise; it returns an entry that
    carries the failure flag of the branching rule, caches it, and leaves the
    index table, the disk and every other cached entry as they were.  When
    the decryption primitive rejects the bytes, its exception leaves
    [read_entry]; nothing is cached and the container and the disk are as
    before.  Either way the container stays reachable. *)
Theorem decode_failure_outcomes i s idx c :
  let raw := entry_set_data (entry_of idx) (raw_slice c idx) in
  let o := options (self s) in
  entries (self s) !! i = None ->
  record (self s) i = Some idx ->
  fs_open_rb (disk s) (wpk_path (self s)) = Ok c ->
  (∀ pre x,
     before_decompression (decryption_key o) raw = Ok pre ->
     zip_flag idx ≠ CompressionType_NONE ->
     decompress_entry pre = Raise x ->
     ∃ e s',
       read_entry i s = (Ok e, s') ∧
       WPKEntryDataFlags.has (data_flags e) (failure_flag o) = true ∧
       entries (self s') !! i = Some e ∧
       (∀ j, j ≠ i -> entries (self s') !! j = entries (self s) !! j) ∧
       indices (self s') = indices (self s) ∧
       options (self s') = options (self s) ∧
       disk s' = disk s ∧
       (reachable s -> reachable s')) ∧
  (∀ x,
     before_decompression (decryption_key o) raw = Raise x ->
     ∃ s',
       read_entry i s = (Raise x, s') ∧
       self s' = self s ∧ disk s' = disk s ∧
       (reachable s -> reachable s')).
Proof.
  intros raw o He Hr Hc. split.
  - intros pre x Hpre Hzip Hx.
    pose proof (read_entry_decompress_raises i s idx c pre x He Hr Hc Hpre Hzip Hx) as Hrun.
    eexists _, _. split; [exact Hrun|]. simpl.
    repeat split.
    + apply has_failure_flag.
    + by rewrite lookup_insert_eq.
    + intros j Hj. by rewrite lookup_insert_ne.
    + intros Hreach. apply (reach_operation (OpReadEntry i)) in Hreach.
      simpl in Hreach. by rewrite Hrun in Hreach.
  - intros x Hx.
    pose proof (read_entry_decrypt_raises i s idx c x He Hr Hc Hx) as Hrun.
    eexists. split; [exact Hrun|]. repeat split.
    intros Hreach. apply (reach_operation (OpReadEntry i)) in Hreach.
    simpl in Hreach. by rewrite Hrun in Hreach.
Qed.

(** C3, as the code has it.  For an ordinal in range that is not yet
    resolved and whose data file opens with content [c]: the raw-slice stage
    seeks to [file_offset] and asks for [file_length] bytes, and what it gets
    is the bytes of [c] from [file_offset] on, at most [file_length] of them:
    exactly [file_length] when the file holds that many, fewer (down to
    none) when it ends first.  A short read is not an error: whatever was
    read is handed to the next stage of the pipeline. *)
Theorem raw_slice_is_truncated_not_failed i s idx c :
  entries (self s) !! i = None ->
  record (self s) i = Some idx ->
  fs_open_rb (disk s) (wpk_path (self s)) = Ok c ->
  ∃ d,
    trace (read_entry i s).2 =
      trace s ++ OpenRb (wpk_path (self s))
              :: Seek (file_offset idx)
              :: Read (file_length idx) (raw_slice c idx)
              :: Call (first_stage idx) (entry_set_data (entry_of idx) (raw_slice c idx))
              :: d ∧
    raw_slice c idx =
      take (N.to_nat (file_length idx)) (drop (N.to_nat (file_offset idx)) c) ∧
    length (raw_slice c idx) =
      Nat.min (N.to_nat (file_length idx)) (length c - N.to_nat (file_offset idx)).
Proof.
  intros He Hr Hc.
  assert (∃ d, trace (read_entry i s).2 =
                 trace s ++ OpenRb (wpk_path (self s))
                   :: Seek (file_offset idx)
                   :: Read (file_length idx) (raw_slice c idx)
                   :: Call (first_stage idx)
                        (entry_set_data (entry_of idx) (raw_slice c idx)) :: d) as [d Hd].
  { destruct (read_entry_resolution i s)
      as [e0 He0
         |He0 Hn
         |idx' x He0 Hr' Hc'
         |idx' c' x d0 He0 Hr' Hc' Hd Hh
         |idx' c' e0 d0 He0 Hr' Hc' Hd Hh Hsame Hext]; simpl.
    - congruence.
    - exfalso. apply Hn, record_valid. by rewrite Hr.
    - congruence.
    - assert (idx' = idx) as -> by congruence.
      assert (c' = c) as -> by congruence.
      destruct d0 as [|ev d0]; [done|]. injection Hh as ->. by exists d0.
    - assert (idx' = idx) as -> by congruence.
      assert (c' = c) as -> by congruence.
      destruct d0 as [|ev d0]; [done|]. injection Hh as ->. by exists d0. }
  exists d. split; [exact Hd|]. split; [reflexivity|].
  unfold raw_slice. by rewrite length_take, length_drop.
Qed.

(** C5. In a reachable container, for an ordinal outside [0, count):
    [read_entry] returns a fresh entry whose only set flag is ERROR and whose
    other fields are the defaults; it logs one critical record and does
    nothing else, so the data file is neither opened nor read; the container
    (the cache in particular) and the disk are unchanged, and
    [is_entry_loaded] of that ordinal is false afterwards. *)
Theorem out_of_range_is_not_resolved i s :
  reachable s ->
  ¬ valid_ordinal (self s) i ->
  ∃ s',
    read_entry i s = (Ok error_entry, s') ∧
    self s' = self s ∧ disk s' = disk s ∧
    trace s' = trace s ++ [Log CRITICAL "Entry index out of range: %d" [ArgInt i]] ∧
    filter is_decode_work (trace s') = filter is_decode_work (trace s) ∧
    is_entry_loaded i s' = (Ok false, s') ∧
    data_flags error_entry = WPKEntryDataFlags.ERROR ∧
    set_data_flags error_entry WPKEntryDataFlags.NONE = WPKIndex_default ∧
    data error_entry = [] ∧ extension error_entry = "" ∧ category error_entry = OTHER.
Proof.
  intros Hreach Hi. pose proof (reachable_uncached s i Hreach Hi) as He.
  exists (after s [out_of_range_log i]).
  split; [by apply read_entry_out_of_range|].
  repeat split.
  - simpl. by rewrite filter_app, app_nil_r.
  - unfold is_entry_loaded, bind, get_self, ret. simpl. rewrite He.
    rewrite bool_decide_false; [done|]. by intros [? ?].
Qed.

(** C8. For an ordinal in range that is not yet resolved, when [read_entry]
    returns an entry: if its extension is not empty, that extension is what
    [get_ext] derived from the entry's final bytes and flags, and the entry's
    name is the record's name, a dot, and the extension; if it is empty the
    entry's name is the record's name.  The index table is untouched: the
    record of that ordinal still has its own name and fields, and the entry
    is what the cache now holds. *)
Theorem classification_renames_entry_only i s e s' :
  valid_ordinal (self s) i ->
  entries (self s) !! i = None ->
  read_entry i s = (Ok e, s') ->
  ∃ idx,
    record (self s) i = Some idx ∧
    (extension e ≠ "" ->
     get_ext (data e) (data_flags e) = Ok (extension e) ∧
     filename e = filename idx +:+ "." +:+ extension e) ∧
    (extension e = "" -> filename e = filename idx) ∧
    indices (self s') = indices (self s) ∧
    record (self s') i = Some idx ∧
    entries (self s') !! i = Some e.
Proof.
  intros Hi He Hrun. pose proof (read_entry_resolution i s) as Hres.
  rewrite Hrun in Hres. simpl in Hres.
  inversion Hres as [e0 He0| He0 Hn| |
                     |idx c e0 d0 He0 Hr Hc Hd Hh Hsame Hext]; subst.
  - congruence.
  - done.
  - exists idx. split; [done|].
    pose proof (same_record_filename _ _ Hsame) as Hname.
    unfold with_extension in *. case_bool_decide as Hx; simpl.
    + repeat split; try done. by rewrite lookup_insert_eq.
    + repeat split; try done.
      * by destruct Hext.
      * by rewrite Hname.
      * by rewrite lookup_insert_eq.
Qed.

(** C9. For an ordinal in range that is not yet resolved, when the
    decompression primitive raises: [read_entry] still stores the entry it
    returns, failure flag set, in the cache.  [is_entry_loaded] is true
    afterwards, and after any further operations on the container
    ([read_entry], [is_entry_loaded], [extract_all], in any number and
    order) a [read_entry] of that ordinal returns that same failed entry and
    changes nothing: no decode stage is tried again. *)
Theorem failed_entry_stays_cached i s idx c pre x :
  let raw := entry_set_data (entry_of idx) (raw_slice c idx) in
  let o := options (self s) in
  entries (self s) !! i = None ->
  record (self s) i = Some idx ->
  fs_open_rb (disk s) (wpk_path (self s)) = Ok c ->
  before_decompression (decryption_key o) raw = Ok pre ->
  zip_flag idx ≠ CompressionType_NONE ->
  decompress_entry pre = Raise x ->
  ∃ e s',
    read_entry i s = (Ok e, s') ∧
    WPKEntryDataFlags.has (data_flags e) (failure_flag o) = true ∧
    is_entry_loaded i s' = (Ok true, s') ∧
    ∀ ops,
      let s'' := run_operations ops s' in
      read_entry i s'' = (Ok e, s'') ∧ is_entry_loaded i s'' = (Ok true, s'').
Proof.
  intros raw o He Hr Hc Hpre Hzip Hx.
  pose proof (read_entry_decompress_raises i s idx c pre x He Hr Hc Hpre Hzip Hx) as Hrun.
  eexists _, _. split; [exact Hrun|]. split; [apply has_failure_flag|].
  match goal with |- context [with_self ?a ?b] => set (s' := with_self a b) end.
  assert (entries (self s') !! i = Some (entry_or_flag pre (failure_flag o))) as Hin.
  { subst s'. simpl. by rewrite lookup_insert_eq. }
  assert (∀ s'', entries (self s'') !! i = Some (entry_or_flag pre (failure_flag o)) ->
                 is_entry_loaded i s'' = (Ok true, s'')) as Hloaded.
  { intros s'' H''. unfold is_entry_loaded, bind, get_self, ret. rewrite H''.
    by rewrite bool_decide_true. }
  split; [by apply Hloaded|].
  intros ops s''.
  assert (entries (self s'') !! i = Some (entry_or_flag pre (failure_flag o))) as Hin'.
  { eapply extends_cache_lookup; [apply run_operations_extends|exact Hin]. }
  split; [by apply read_entry_cached|by apply Hloaded].
Qed.

End ResolverProperties.


Section Extraction.
Context {FS : Type} `{!FileSystem FS} `{!Collaborators}.

Implicit Types (s : state FS) (w : WPKFile) (i : Z) (e entry : WPKEntry) (d : list event).

(** ** [os.path.join] on relative names *)

Lemma join_relative dir name :
  relative name ->
  os_path.join dir name =
    if bool_decide (dir = "") || os_path.endswith_sep dir
    then dir +:+ name else dir +:+ "/" +:+ name.
Proof. unfold relative, os_path.join. by intros ->. Qed.

Lemma join_relative_inj dir a b :
  relative a -> relative b -> os_path.join dir a = os_path.join dir b -> a = b.
Proof.
  intros Ha Hb. rewrite !join_relative by done.
  destruct (_ || _); intros Heq.
  - by apply (inj (String.app dir)) in Heq.
  - apply (inj (String.app dir)) in Heq. by apply (inj (String.app "/")) in Heq.
Qed.

(** ** The files a trace writes *)

Lemma written_app d1 d2 : written (d1 ++ d2) = written d1 ++ written d2.
Proof.
  induction d1 as [|ev d1 IH]; [done|]. destruct ev; simpl; by rewrite ?IH.
Qed.

Lemma written_filter d : written (filter is_output d) = written d.
Proof.
  induction d as [|ev d IH]; [done|].
  rewrite filter_cons. destruct ev; simpl; by rewrite ?IH.
Qed.

Lemma written_outputs dir (es : list WPKEntry) :
  written (es ≫= outputs dir) = (fun e => (destination dir e, data e)) <$> es.
Proof.
  induction es as [|e es IH]; [done|].
  rewrite bind_cons, written_app, IH. reflexivity.
Qed.

(** ** The loop of [extract_all] *)

Lemma extract_all_loop_spec dir l s s' :
  Forall (valid_ordinal (self s)) l ->
  extract_all_loop dir l s = (Ok tt, s') ->
  ∃ es d,
    Forall2 (fun i e => entries (self s') !! i = Some e ∧
                        ∀ e0, entries (self s) !! i = Some e0 -> e = e0) l es ∧
    trace s' = trace s ++ d ∧
    filter is_output d = es ≫= outputs dir.
Proof.
  revert s. induction l as [|i l IH]; intros s Hvalid; simpl.
  - unfold ret. intros [= <-]. exists [], []. split; [constructor|].
    by rewrite app_nil_r.
  - apply Forall_cons in Hvalid as [Hi Hvalid].
    unfold bind at 1. destruct (read_entry i s) as [[e|x] s1] eqn:Hread; [|done].
    unfold bind at 1.
    destruct (save_to_file e (os_path.join dir (filename e)) s1)
      as [[[]|x] s2] eqn:Hsave; [|done].
    intros Hloop.
    pose proof (read_entry_extends i s) as Hext1. rewrite Hread in Hext1. simpl in Hext1.
    pose proof (save_to_file_self e (os_path.join dir (filename e)) s1) as Hself2.
    rewrite Hsave in Hself2. simpl in Hself2.
    pose proof (save_to_file_ok _ _ _ _ Hsave) as Htrace2.
    destruct (read_entry_no_output i s) as (d1 & Htrace1 & Hd1).
    rewrite Hread in Htrace1. simpl in Htrace1.
    assert (Forall (valid_ordinal (self s2)) l) as Hvalid2.
    { rewrite Hself2. eapply Forall_impl; [exact Hvalid|].
      intros j. unfold valid_ordinal. destruct Hext1 as (_ & _ & _ & -> & _). done. }
    destruct (IH s2 Hvalid2 Hloop) as (es & d' & Hes & Htrace & Hd').
    pose proof (extract_all_loop_extends dir l s2) as Hext2.
    rewrite Hloop in Hext2. simpl in Hext2.
    exists (e :: es), (d1 ++ outputs dir e ++ d'). split; [|split].
    + constructor.
      * split.
        -- eapply extends_cache_lookup; [exact Hext2|]. rewrite Hself2.
           eapply read_entry_returns_cached; eauto.
        -- intros e0 He0. rewrite (read_entry_cached _ _ _ He0) in Hread. congruence.
      * eapply Forall2_impl; [exact Hes|]. intros j ej [Hj1 Hj2]. split; [done|].
        intros e0 He0. apply Hj2. rewrite Hself2.
        eapply extends_cache_lookup; [exact Hext1|exact He0].
    + rewrite Htrace, Htrace2, Htrace1. unfold outputs, destination.
      by rewrite <- !app_assoc.
    + rewrite !filter_app, Hd1, Hd'. simpl. done.
Qed.

Lemma seqZ_valid w : Forall (valid_ordinal w) (seqZ 0 (Z.of_nat (length (indices w)))).
Proof.
  apply Forall_forall. intros j Hj. apply elem_of_seqZ in Hj.
  unfold valid_ordinal. lia.
Qed.

(** [extract_all] on a container without records returns at once. *)
Lemma extract_all_empty dir s :
  indices (self s) = [] -> extract_all dir s = (Ok tt, s).
Proof.
  intros Hnil. unfold extract_all, bind, get_self. by rewrite Hnil.
Qed.

(** A run of [extract_all] that returns: the entries it wrote, in the order
    of their ordinals. *)
Lemma extract_all_spec dir s s' :
  extract_all dir s = (Ok tt, s') ->
  ∃ es d,
    length es = length (indices (self s)) ∧
    (∀ k e, es !! k = Some e ->
            entries (self s') !! Z.of_nat k = Some e ∧
            ∀ e0, entries (self s) !! Z.of_nat k = Some e0 -> e = e0) ∧
    trace s' = trace s ++ d ∧
    filter is_output d = es ≫= outputs dir.
Proof.
  unfold extract_all, bind at 1, get_self. intros Hrun.
  destruct (extract_all_loop_spec dir _ s s' (seqZ_valid (self s)) Hrun)
    as (es & d & Hes & Htrace & Hd).
  exists es, d. split; [|split; [|done]].
  - apply Forall2_length in Hes. rewrite length_seqZ in Hes. lia.
  - intros k e Hk.
    destruct (Forall2_lookup_r _ _ _ _ _ Hes Hk) as (j & Hj & Hje).
    apply lookup_seqZ in Hj as [-> _]. by rewrite Z.add_0_l in Hje.
Qed.

End Extraction.


Section DriverProperties.
Context {FS : Type} `{!FileSystem FS} `{!Collaborators}.

Implicit Types (s : state FS) (w : WPKFile) (i : Z) (e entry : WPKEntry) (d : list event).

(** X17. What a run of [extract_all] that returns has done.  On a
    container without records [extract_all] returns at once and writes
    nothing.  A run that returns has resolved the ordinals 0, 1, ... in
    ascending order, one entry per record, each taken from the cache when it
    was already there and cached otherwise; for each entry in turn, whatever
    its flags, it has asked for the directory of
    [os.path.join(output_dir, entry.filename)] and written the entry's bytes,
    as they are, to that path, and it has written nothing else.  For a file
    name that does not start with the separator that path is the output
    directory, a separator unless the directory is empty or ends with one,
    and the name; when all resolved names are of that kind and pairwise
    distinct, the paths written to are pairwise distinct strings, one per
    record. *)
Theorem extract_all_writes_every_entry dir s :
  (indices (self s) = [] -> extract_all dir s = (Ok tt, s)) ∧
  (∀ s',
     extract_all dir s = (Ok tt, s') ->
     ∃ (es : list WPKEntry) d,
       length es = length (indices (self s)) ∧
       (∀ k e, es !! k = Some e ->
               entries (self s') !! Z.of_nat k = Some e ∧
               ∀ e0, entries (self s) !! Z.of_nat k = Some e0 -> e = e0) ∧
       trace s' = trace s ++ d ∧
       filter is_output d = es ≫= outputs dir ∧
       written d = (fun e => (os_path.join dir (filename e), data e)) <$> es ∧
       (∀ e, e ∈ es -> relative (filename e) ->
             os_path.join dir (filename e) =
               if bool_decide (dir = "") || os_path.endswith_sep dir
               then dir +:+ filename e else dir +:+ "/" +:+ filename e) ∧
       (Forall (fun e => relative (filename e)) es ->
        NoDup ((fun e : WPKEntry => filename e) <$> es) ->
        NoDup (written d).*1 ∧ length (written d) = length (indices (self s)))).
Proof.
  split; [apply extract_all_empty|].
  intros s' Hrun.
  destruct (extract_all_spec dir s s' Hrun) as (es & d & Hlen & Hes & Htrace & Hd).
  assert (written d = (fun e => (os_path.join dir (filename e), data e)) <$> es) as Hw.
  { by rewrite <- written_filter, Hd, written_outputs. }
  exists es, d.
  split; [exact Hlen|]. split; [exact Hes|]. split; [exact Htrace|].
  split; [exact Hd|]. split; [exact Hw|]. split.
  { intros e _ Hrel. by apply join_relative. }
  intros Hrel Hnames. split; [|by rewrite Hw, length_fmap].
  rewrite Hw, <- list_fmap_compose.
  apply NoDup_fmap_2_strong; [|by eapply NoDup_fmap_1].
  intros a b Ha Hb Heq. simpl in Heq.
  rewrite Forall_forall in Hrel.
  assert (filename a = filename b) as Hname
    by (eapply join_relative_inj; eauto).
  apply list_elem_of_lookup in Ha as [ka Hka].
  apply list_elem_of_lookup in Hb as [kb Hkb].
  assert (ka = kb) as ->.
  { eapply NoDup_lookup; [exact Hnames| |].
    - by rewrite list_lookup_fmap, Hka.
    - by rewrite list_lookup_fmap, Hkb, Hname. }
  congruence.
Qed.

(** ** [detect_file_type] and the pairing of the two paths *)

Lemma detect_file_type_opened path s c :
  fs_open_rb (disk s) path = Ok c ->
  detect_file_type path s = (Ok (sniff c), after s [OpenRb path; Read 4 (take 4 c)]).
Proof.
  intros Hc. unfold detect_file_type, open_rb, read, bind, emit, sys_open_rb, ret.
  simpl. rewrite Hc. unfold sniff, file_read. simpl. rewrite drop_0.
  unfold after; simpl. rewrite <- app_assoc. simpl.
  change (N.to_nat (N.of_nat 4)) with 4%nat. change (N.of_nat 4) with 4%N.
  destruct (is_idx_signature (take 4 c)); [done|].
  by destruct (is_wpk_signature (take 4 c)).
Qed.

Lemma WPKFile_init_paths idx_path_ wpk_path_ options_ s0 s :
  WPKFile_init idx_path_ wpk_path_ options_ s0 = (Ok tt, s) ->
  idx_path (self s) = idx_path_ ∧
  wpk_path (self s) = wpk_path (empty_container idx_path_ wpk_path_ options_).
Proof.
  intros Hinit.
  destruct (fs_open_rb (disk s0) idx_path_) as [c|x] eqn:Hc; cycle 1.
  { pose proof (WPKFile_init_not_opened idx_path_ wpk_path_ options_ s0 x Hc) as H1.
    by rewrite Hinit in H1. }
  destruct (WPKFile_init_layout idx_path_ wpk_path_ options_ s0 c Hc)
    as [Hshort Hlong].
  destruct (decide (length c < 4)%nat) as [Hlt|Hge].
  { rewrite (Hshort Hlt) in Hinit. done. }
  specialize (Hlong ltac:(lia)).
  destruct (layout_records _ _) as [[idxs|x] bs] eqn:El.
  - rewrite Hlong in Hinit. injection Hinit as <-. done.
  - destruct Hlong as (idxs & Hl). rewrite Hl in Hinit. done.
Qed.

(** C7, as the code has it.  The first path is sniffed.  If it is a data
    file, it becomes the data path and the index path is the first path with
    its extension replaced by ".idx", whether or not a second path was
    given.  If it is an index file and no second path was given, the data
    path is the first path with its extension replaced by ".wpk".  If the
    first path is not a data file and a second, non-empty path was given that
    sniffs as an index file, the two paths are swapped.  A derived path is
    [os.path.splitext] of the given one plus the new extension: a function
    of the path alone.  The container likewise takes the data path it was
    given, or derives it from the index path when none was. *)
Theorem pairing_policy path given s :
  (∀ c, fs_open_rb (disk s) path = Ok c -> sniff c = Some "wpk" ->
        (pair_paths path given s).1 =
          Ok ((os_path.splitext path).1 +:+ ".idx", Some path)) ∧
  (∀ c, fs_open_rb (disk s) path = Ok c -> sniff c = Some "idx" -> given = None ->
        (pair_paths path given s).1 =
          Ok (path, Some ((os_path.splitext path).1 +:+ ".wpk"))) ∧
  (∀ c q cq,
        fs_open_rb (disk s) path = Ok c -> sniff c ≠ Some "wpk" ->
        given = Some q -> q ≠ "" ->
        fs_open_rb (disk s) q = Ok cq -> sniff cq = Some "idx" ->
        (pair_paths path given s).1 = Ok (q, Some path)) ∧
  (∀ options_ s',
        WPKFile_init path given options_ s = (Ok tt, s') ->
        idx_path (self s') = path ∧
        wpk_path (self s') =
          match given with
          | Some p => if bool_decide (p = "") then (os_path.splitext path).1 +:+ ".wpk" else p
          | None => (os_path.splitext path).1 +:+ ".wpk"
          end).
Proof.
  repeat split.
  - intros c Hc Hs. unfold pair_paths, bind.
    rewrite (detect_file_type_opened _ _ _ Hc), Hs. reflexivity.
  - intros c Hc Hs ->. unfold pair_paths, bind.
    rewrite (detect_file_type_opened _ _ _ Hc), Hs. reflexivity.
  - intros c q cq Hc Hs -> Hq Hcq Hsq. unfold pair_paths, bind.
    rewrite (detect_file_type_opened _ _ _ Hc).
    rewrite (bool_decide_false _ Hs). rewrite andb_false_r.
    rewrite (bool_decide_false _ Hq).
    unfold bind. erewrite (detect_file_type_opened q _ cq) by exact Hcq.
    rewrite Hsq. reflexivity.
  - by eapply WPKFile_init_paths.
  - by eapply WPKFile_init_paths.
Qed.

(** C10. Opening a container checks no signature.  Whatever the index
    file holds, its first four bytes are taken as the little-endian record
    count and the records are read from the fifth byte on, as the layout
    describes them: a file shorter than four bytes is a structural error, and
    otherwise [__init__] returns exactly when the layout yields [count]
    records, with those records as its index table and an empty cache.  The
    index file is opened once and, besides that, only log records are
    emitted: no header is read for sniffing. *)
Theorem open_takes_count_from_first_bytes idx_path_ wpk_path_ options_ s0 c :
  fs_open_rb (disk s0) idx_path_ = Ok c ->
  let count := le_decode (take 4 c) in
  let s1 := with_self s0 (empty_container idx_path_ wpk_path_ options_) in
  let opening := [opening_log idx_path_; OpenRb idx_path_] in
  ((length c < 4)%nat ->
   WPKFile_init idx_path_ wpk_path_ options_ s0 = (Raise StructError, after s1 opening)) ∧
  ((4 ≤ length c)%nat ->
   match layout_records (N.to_nat count) (drop 4 c) with
   | (Ok idxs, _) =>
       WPKFile_init idx_path_ wpk_path_ options_ s0 =
         (Ok tt, after (with_self s1 (with_indices (self s1) idxs))
                   (opening ++ (index_log <$> idxs)))
   | (Raise x, _) =>
       ∃ idxs,
         WPKFile_init idx_path_ wpk_path_ options_ s0 =
           (Raise x, after (with_self s1 (with_indices (self s1) idxs))
                       (opening ++ (index_log <$> idxs)))
   end).
Proof. apply WPKFile_init_layout. Qed.

End DriverProperties.


(** * The properties on a concrete archive *)

Section Concrete.
#[local] Existing Instance Fake.fs.
#[local] Existing Instance Fake.collaborators.

Lemma opened_game o :
  WPKFile_init "game.idx" None (Some o) Fake.s0 = (Ok tt, Fake.game_at o).
Proof. vm_compute. reflexivity. Qed.

Lemma opened_odd o :
  WPKFile_init "odd.idx" None (Some o) Fake.s0 = (Ok tt, Fake.odd_at o).
Proof. vm_compute. reflexivity. Qed.

Lemma opened_abs o :
  WPKFile_init "abs.idx" None (Some o) Fake.s0 = (Ok tt, Fake.abs_at o).
Proof. vm_compute. reflexivity. Qed.

Lemma reachable_game o : reachable (Fake.game_at o).
Proof. eapply reach_open, opened_game. Qed.

Lemma wpk_of_game o :
  fs_open_rb (disk (Fake.game_at o)) (wpk_path (self (Fake.game_at o))) = Ok Fake.wpk_bytes.
Proof. vm_compute. reflexivity. Qed.

Lemma wpk_of_odd o :
  fs_open_rb (disk (Fake.odd_at o)) (wpk_path (self (Fake.odd_at o))) = Ok Fake.wpk_bytes.
Proof. vm_compute. reflexivity. Qed.

(** C1 at work: with key 5 configured, the entry "broken" of "game" comes
    back flagged ENCRYPTED and nothing else, holding the two bytes read. *)
Lemma decompression_failure_with_key :
  ∃ e s',
    read_entry 2 (Fake.game_at Fake.key_5) = (Ok e, s') ∧
    data_flags e = WPKEntryDataFlags.ENCRYPTED ∧
    data e = list_byte_of_string "zz".
Proof.
  edestruct (decompression_failure_sets_one_flag 2 (Fake.game_at Fake.key_5)
               Fake.broken Fake.wpk_bytes)
    as (e & s' & Hrun & Hkey & _ & Hdata & _).
  - apply reachable_game.
  - reflexivity.
  - reflexivity.
  - discriminate.
  - apply wpk_of_game.
  - reflexivity.
  - reflexivity.
  - exists e, s'. split; [exact Hrun|]. split.
    + apply (Hkey 5); [reflexivity|lia].
    + rewrite Hdata. reflexivity.
Defined.

(** C2 as stated fails: the entry "sealed" of "odd" is encrypted, the
    decryption primitive rejects its bytes, and [read_entry] raises instead
    of returning a flagged entry. *)
Lemma decryption_failure_is_raised :
  valid_ordinal (self (Fake.odd_at Fake.no_key)) 0 ∧
  record (self (Fake.odd_at Fake.no_key)) 0 = Some Fake.sealed ∧
  decrypt_entry (entry_set_data (entry_of Fake.sealed) (raw_slice Fake.wpk_bytes Fake.sealed))
    None = Raise (PrimitiveError "decrypt") ∧
  (read_entry 0 (Fake.odd_at Fake.no_key)).1 = Raise (PrimitiveError "decrypt") ∧
  ¬ ∃ e, (read_entry 0 (Fake.odd_at Fake.no_key)).1 = Ok e.
Proof.
  assert ((read_entry 0 (Fake.odd_at Fake.no_key)).1 = Raise (PrimitiveError "decrypt")) as Hrun.
  { vm_compute. reflexivity. }
  split; [unfold valid_ordinal; simpl; lia|].
  split; [reflexivity|]. split; [reflexivity|]. split; [exact Hrun|].
  intros [e He]. rewrite Hrun in He. discriminate.
Qed.

(** C2 as amended, at work: without a key the entry "broken" of "game" is
    returned flagged ERROR and is cached. *)
Lemma decompression_failure_is_recorded :
  ∃ e s',
    read_entry 2 (Fake.game_at Fake.no_key) = (Ok e, s') ∧
    WPKEntryDataFlags.has (data_flags e) WPKEntryDataFlags.ERROR = true ∧
    entries (self s') !! 2 = Some e.
Proof.
  destruct (decode_failure_outcomes 2 (Fake.game_at Fake.no_key)
              Fake.broken Fake.wpk_bytes) as [Hdecompress _].
  - reflexivity.
  - reflexivity.
  - apply wpk_of_game.
  - edestruct Hdecompress as (e & s' & Hrun & Hflag & Hcached & _).
    + reflexivity.
    + discriminate.
    + reflexivity.
    + exists e, s'. split; [exact Hrun|]. split; [exact Hflag|exact Hcached].
Defined.

(** C3 as stated fails: the entry "tail" of "odd" asks for 100 bytes at
    offset 9 of a data file of 11 bytes; [read_entry] returns it, with the 2
    bytes there are. *)
Lemma short_read_is_not_an_error :
  record (self (Fake.odd_at Fake.no_key)) 1 = Some Fake.tail ∧
  length Fake.wpk_bytes = 11%nat ∧
  file_offset Fake.tail = 9%N ∧ file_length Fake.tail = 100%N ∧
  ∃ e,
    (read_entry 1 (Fake.odd_at Fake.no_key)).1 = Ok e ∧
    data e = list_byte_of_string "zz" ∧
    WPKEntryDataFlags.has (data_flags e) WPKEntryDataFlags.ERROR = false.
Proof.
  split; [reflexivity|]. split; [reflexivity|]. split; [reflexivity|].
  split; [reflexivity|].
  assert (match (read_entry 1 (Fake.odd_at Fake.no_key)).1 with
          | Ok e => bool_decide (data e = list_byte_of_string "zz") &&
                    negb (WPKEntryDataFlags.has (data_flags e) WPKEntryDataFlags.ERROR)
          | Raise _ => false
          end = true) as Hcheck by (vm_compute; reflexivity).
  destruct (read_entry 1 (Fake.odd_at Fake.no_key)).1 as [e|x]; [|discriminate].
  apply andb_true_iff in Hcheck as [Hdata Hflag].
  apply bool_decide_eq_true in Hdata. apply negb_true_iff in Hflag.
  by exists e.
Qed.

(** C3 as amended, at work: that read yields 2 bytes. *)
Lemma short_read_length :
  length (raw_slice Fake.wpk_bytes Fake.tail) = 2%nat.
Proof.
  destruct (raw_slice_is_truncated_not_failed 1 (Fake.odd_at Fake.no_key)
              Fake.tail Fake.wpk_bytes) as (d & _ & _ & Hlen).
  - reflexivity.
  - reflexivity.
  - apply wpk_of_odd.
  - rewrite Hlen. reflexivity.
Defined.

(** C5 at work: "game" has three records; ordinal 3 gets the placeholder. *)
Lemma ordinal_3_of_game :
  ∃ s',
    read_entry 3 (Fake.game_at Fake.no_key) = (Ok error_entry, s') ∧
    self s' = self (Fake.game_at Fake.no_key) ∧
    is_entry_loaded 3 s' = (Ok false, s').
Proof.
  destruct (out_of_range_is_not_resolved 3 (Fake.game_at Fake.no_key))
    as (s' & Hrun & Hself & _ & _ & _ & Hloaded & _).
  - apply reachable_game.
  - unfold valid_ordinal. simpl. lia.
  - exists s'. split; [exact Hrun|]. split; [exact Hself|exact Hloaded].
Defined.

(** C8 at work: "greeting" is text, so the entry is named "greeting.txt",
    while the record keeps the name "greeting". *)
Lemma greeting_is_renamed :
  ∃ e s',
    read_entry 0 (Fake.game_at Fake.no_key) = (Ok e, s') ∧
    filename e = "greeting.txt" ∧
    record (self s') 0 = Some Fake.greeting.
Proof.
  assert (match (read_entry 0 (Fake.game_at Fake.no_key)).1 with
          | Ok e => bool_decide (extension e = "txt")
          | Raise _ => false
          end = true) as Hcheck by (vm_compute; reflexivity).
  destruct (read_entry 0 (Fake.game_at Fake.no_key)) as [[e|x] s'] eqn:Hrun;
    [|discriminate].
  simpl in Hcheck. apply bool_decide_eq_true in Hcheck.
  destruct (classification_renames_entry_only 0 (Fake.game_at Fake.no_key) e s')
    as (idx & Hidx & Hext & _ & _ & Hrec & _).
  - unfold valid_ordinal. simpl. lia.
  - reflexivity.
  - exact Hrun.
  - exists e, s'. split; [reflexivity|].
    assert (idx = Fake.greeting) as ->.
    { assert (record (self (Fake.game_at Fake.no_key)) 0 = Some Fake.greeting)
        by reflexivity. congruence. }
    split; [|exact Hrec].
    destruct Hext as [_ ->]; [by rewrite Hcheck|]. by rewrite Hcheck.
Defined.

(** C9 at work: after "broken" has failed, extracting everything and asking
    again gives the same failed entry and leaves the state alone. *)
Lemma broken_stays_broken :
  ∃ e s',
    read_entry 2 (Fake.game_at Fake.no_key) = (Ok e, s') ∧
    let s'' := run_operations [OpExtractAll "out"; OpReadEntry 1] s' in
    read_entry 2 s'' = (Ok e, s'').
Proof.
  edestruct (failed_entry_stays_cached 2 (Fake.game_at Fake.no_key)
               Fake.broken Fake.wpk_bytes) as (e & s' & Hrun & _ & _ & Hlater).
  - reflexivity.
  - reflexivity.
  - apply wpk_of_game.
  - reflexivity.
  - discriminate.
  - reflexivity.
  - exists e, s'. split; [exact Hrun|].
    apply (Hlater [OpExtractAll "out"; OpReadEntry 1]).
Defined.

(** C6. [extract_all] does not keep to its output directory.  "abs" holds
    the two names "x" and "/out/x"; [os.path.join] drops the output directory
    for the second, which starts with the separator.  Extracted to "/out",
    both entries are written to the one path "/out/x", the second over the
    first: two records with distinct names leave one file, and the second
    was not written to the output directory joined with its name. *)
Lemma absolute_name_escapes_output_dir :
  let s := Fake.abs_at Fake.no_key in
  let s' := (extract_all "/out" s).2 in
  (extract_all "/out" s).1 = Ok tt ∧
  ((fun e : WPKEntry => filename e) <$> entries (self s') !! 0) = Some "x" ∧
  ((fun e : WPKEntry => filename e) <$> entries (self s') !! 1) = Some "/out/x" ∧
  written (drop (length (trace s)) (trace s')) =
    [("/out/x", list_byte_of_string "zz"); ("/out/x", list_byte_of_string "abc")] ∧
  os_path.join "/out" "/out/x" ≠ "/out" +:+ "/" +:+ "/out/x" ∧
  disk s' = <["/out/x" := list_byte_of_string "abc"]> (disk s) ∧
  size (disk s') = S (size (disk s)).
Proof.
  cbv zeta.
  split; [vm_compute; reflexivity|]. split; [vm_compute; reflexivity|].
  split; [vm_compute; reflexivity|]. split; [vm_compute; reflexivity|].
  split; [vm_compute; discriminate|]. split; vm_compute; reflexivity.
Qed.

(** X17 at work: "game" extracted to "out" gives three writes to three
    distinct paths. *)
Lemma game_is_extracted :
  ∃ s' d,
    extract_all "out" (Fake.game_at Fake.no_key) = (Ok tt, s') ∧
    trace s' = trace (Fake.game_at Fake.no_key) ++ d ∧
    (written d).*1 = ["out/greeting.txt"; "out/dir/packed"; "out/broken"] ∧
    NoDup (written d).*1 ∧
    length (written d) = 3%nat.
Proof.
  assert (match extract_all "out" (Fake.game_at Fake.no_key) with
          | (Ok _, s') =>
              bool_decide
                ((fun k => (fun e : WPKEntry => filename e) <$> entries (self s') !! k)
                   <$> [0; 1; 2] =
                 [Some "greeting.txt"; Some "dir/packed"; Some "broken"])
          | (Raise _, _) => false
          end = true) as Hcheck by (vm_compute; reflexivity).
  destruct (extract_all "out" (Fake.game_at Fake.no_key)) as [[[]|x] s'] eqn:Hrun;
    [|discriminate].
  apply bool_decide_eq_true in Hcheck.
  destruct (extract_all_writes_every_entry "out" (Fake.game_at Fake.no_key))
    as [_ Hspec].
  destruct (Hspec s' Hrun) as (es & d & Hlen & Hes & Htrace & _ & Hw & _ & Hdistinct).
  destruct es as [|a [|b [|c [|]]]]; try discriminate Hlen.
  destruct (Hes 0%nat a eq_refl) as [Ha _].
  destruct (Hes 1%nat b eq_refl) as [Hb _].
  destruct (Hes 2%nat c eq_refl) as [Hc _].
  change (Z.of_nat 0) with 0 in Ha. change (Z.of_nat 1) with 1 in Hb.
  change (Z.of_nat 2) with 2 in Hc.
  cbn [fmap list_fmap] in Hcheck. rewrite Ha, Hb, Hc in Hcheck. simpl in Hcheck.
  injection Hcheck as Hna Hnb Hnc.
  exists s', d. split; [reflexivity|]. split; [exact Htrace|]. split.
  { rewrite Hw. simpl. rewrite Hna, Hnb, Hnc. reflexivity. }
  apply Hdistinct.
  - repeat constructor; unfold relative; simpl; [rewrite Hna|rewrite Hnb|rewrite Hnc];
      reflexivity.
  - simpl. rewrite Hna, Hnb, Hnc. apply (bool_decide_unpack _). vm_compute. exact I.
Defined.

(** C7 as stated fails: "data.wpk" sniffs as a data file and "index.idx" as
    an index file, so the two were given in reversed order; they are not
    swapped: the index path is derived from "data.wpk" and "index.idx" is
    dropped. *)
Lemma reversed_pair_is_not_swapped :
  (detect_file_type "data.wpk" Fake.s0).1 = Ok (Some "wpk") ∧
  (detect_file_type "index.idx" Fake.s0).1 = Ok (Some "idx") ∧
  (pair_paths "data.wpk" (Some "index.idx") Fake.s0).1 =
    Ok ("data.idx", Some "data.wpk") ∧
  (pair_paths "data.wpk" (Some "index.idx") Fake.s0).1 ≠
    Ok ("index.idx", Some "data.wpk").
Proof.
  assert ((pair_paths "data.wpk" (Some "index.idx") Fake.s0).1 =
            Ok ("data.idx", Some "data.wpk")) as Hrun by (vm_compute; reflexivity).
  split; [vm_compute; reflexivity|]. split; [vm_compute; reflexivity|].
  split; [exact Hrun|]. rewrite Hrun. discriminate.
Qed.

(** C7 as amended, at work: a data file alone, an index file alone, and a
    file of neither kind followed by an index file. *)
Lemma pairing_at_work :
  (pair_paths "data.wpk" None Fake.s0).1 = Ok ("data.idx", Some "data.wpk") ∧
  (pair_paths "index.idx" None Fake.s0).1 = Ok ("index.idx", Some "index.wpk") ∧
  (pair_paths "game.wpk" (Some "index.idx") Fake.s0).1 =
    Ok ("index.idx", Some "game.wpk").
Proof.
  split; [|split].
  - destruct (pairing_policy "data.wpk" None Fake.s0) as [Hdata _].
    apply (Hdata (WPK_SIGNATURE ++ Fake.wpk_bytes)); vm_compute; reflexivity.
  - destruct (pairing_policy "index.idx" None Fake.s0) as (_ & Hindex & _).
    apply (Hindex (IDX_SIGNATURE ++ Fake.encode_indices Fake.game));
      vm_compute; reflexivity.
  - destruct (pairing_policy "game.wpk" (Some "index.idx") Fake.s0)
      as (_ & _ & Hswap & _).
    apply (Hswap Fake.wpk_bytes "index.idx"
             (IDX_SIGNATURE ++ Fake.encode_indices Fake.game)).
    + vm_compute; reflexivity.
    + vm_compute; discriminate.
    + reflexivity.
    + discriminate.
    + vm_compute; reflexivity.
    + vm_compute; reflexivity.
Defined.

(** C10 at work: the first four bytes of "game.idx" give the count 3, and
    the three records that follow become the index table. *)
Lemma game_index_is_opened :
  le_decode (take 4 (Fake.encode_indices Fake.game)) = 3%N ∧
  (WPKFile_init "game.idx" None None Fake.s0).1 = Ok tt ∧
  indices (self (WPKFile_init "game.idx" None None Fake.s0).2) = Fake.game.
Proof.
  pose proof (open_takes_count_from_first_bytes "game.idx" None None Fake.s0
                (Fake.encode_indices Fake.game)) as Hopen.
  cbv zeta in Hopen.
  destruct Hopen as [_ Hlong]; [vm_compute; reflexivity|].
  assert (layout_records
            (N.to_nat (le_decode (take 4 (Fake.encode_indices Fake.game))))
            (drop 4 (Fake.encode_indices Fake.game)) = (Ok Fake.game, []))
    as Hlayout by (vm_compute; reflexivity).
  rewrite Hlayout in Hlong. rewrite Hlong by (vm_compute; lia).
  split; [vm_compute; reflexivity|]. split; reflexivity.
Defined.

End Concrete.


(** * Further properties of the reader and its callers *)

Section DetectionProperties.
Context {FS : Type} `{!FileSystem FS} `{!Collaborators}.

Implicit Types (s : state FS) (w : WPKFile) (i : Z) (e entry : WPKEntry) (d : list event).

Lemma take_signature (c sig : bytes) :
  length sig = 4%nat ->
  bool_decide (length sig ≤ length (take 4 c))%nat && startswith (take 4 c) sig = true
  ↔ take 4 c = sig.
Proof.
  intros Hsig. unfold startswith. rewrite Hsig, take_take, Nat.min_id.
  rewrite andb_true_iff, !bool_decide_eq_true. split.
  - by intros [_ ?].
  - intros Hc. split; [|done]. by rewrite Hc, Hsig.
Qed.

Lemma sniff_idx c : sniff c = Some "idx" ↔ take 4 c = IDX_SIGNATURE.
Proof.
  unfold sniff, is_idx_signature, is_wpk_signature.
  pose proof (take_signature c IDX_SIGNATURE eq_refl) as Hidx.
  destruct (bool_decide _ && startswith (take 4 c) IDX_SIGNATURE).
  - split; [intros _; by apply Hidx|done].
  - split.
    + intros Hs. by destruct (bool_decide _ && _).
    + intros Hs. apply Hidx in Hs. done.
Qed.

Lemma sniff_wpk c : sniff c = Some "wpk" ↔ take 4 c = WPK_SIGNATURE.
Proof.
  unfold sniff, is_idx_signature, is_wpk_signature.
  pose proof (take_signature c IDX_SIGNATURE eq_refl) as Hidx.
  pose proof (take_signature c WPK_SIGNATURE eq_refl) as Hwpk.
  destruct (bool_decide _ && startswith (take 4 c) IDX_SIGNATURE).
  - split; [done|]. intros Hs. destruct Hidx as [Hidx _].
    rewrite (Hidx eq_refl) in Hs. discriminate.
  - destruct (bool_decide _ && startswith (take 4 c) WPK_SIGNATURE).
    + split; [intros _; by apply Hwpk|done].
    + split; [done|]. intros Hs. apply Hwpk in Hs. done.
Qed.

(** X1. [detect_file_type] answers from the first four bytes of the file
    alone: "idx" exactly when they are the IDX signature, "wpk" exactly when
    they are the WPK signature, and [None] otherwise, in particular for
    every file shorter than four bytes. *)
Theorem detect_file_type_verdict path s c :
  fs_open_rb (disk s) path = Ok c ->
  ∃ v,
    (detect_file_type path s).1 = Ok v ∧
    (v = Some "idx" ↔ take 4 c = IDX_SIGNATURE) ∧
    (v = Some "wpk" ↔ take 4 c = WPK_SIGNATURE) ∧
    ((length c < 4)%nat -> v = None) ∧
    (v = None ∨ v = Some "idx" ∨ v = Some "wpk").
Proof.
  intros Hc. exists (sniff c).
  rewrite (detect_file_type_opened _ _ _ Hc). simpl.
  split; [done|]. split; [apply sniff_idx|]. split; [apply sniff_wpk|]. split.
  - intros Hlen.
    assert (length (take 4 c) < 4)%nat as Hshort by (rewrite length_take; lia).
    destruct (sniff c) as [v|] eqn:Hv; [|done]. exfalso.
    unfold sniff in Hv.
    destruct (is_idx_signature (take 4 c)) eqn:Hi.
    + apply take_signature in Hi; [|done]. rewrite Hi in Hshort. simpl in Hshort. lia.
    + destruct (is_wpk_signature (take 4 c)) eqn:Hw; [|done].
      apply take_signature in Hw; [|done]. rewrite Hw in Hshort. simpl in Hshort. lia.
  - unfold sniff. destruct (is_idx_signature _); [by right; left|].
    destruct (is_wpk_signature _); [by right; right|by left].
Qed.

Lemma detect_file_type_not_opened path s x :
  fs_open_rb (disk s) path = Raise x ->
  detect_file_type path s = (Raise x, after s [OpenRb path]).
Proof.
  intros Hx. unfold detect_file_type, open_rb, bind, emit, sys_open_rb. simpl.
  by rewrite Hx.
Qed.

(** X2. The [wpk] subcommand on a first path that cannot be opened: the
    error of [open] leaves [parse_args]; no container is set up and nothing
    is created or written. *)
Theorem parse_args_unreadable_input arguments s x :
  arg_subcommand arguments = Some "wpk" ->
  fs_open_rb (disk s) (arg_path arguments) = Raise x ->
  parse_args arguments s = (Raise x, after s [OpenRb (arg_path arguments)]) ∧
  self (parse_args arguments s).2 = self s ∧
  disk (parse_args arguments s).2 = disk s.
Proof.
  intros Hsub Hx.
  assert (parse_args arguments s = (Raise x, after s [OpenRb (arg_path arguments)])) as Hrun.
  { unfold parse_args. rewrite Hsub. simpl. unfold pair_paths, bind.
    by rewrite (detect_file_type_not_opened _ _ _ Hx). }
  by rewrite Hrun.
Qed.

Lemma derived_path_not_empty (stem : string) : stem +:+ ".wpk" ≠ "".
Proof. by destruct stem. Qed.

Lemma WPKFile_init_default_data_path idx_path_ options_ :
  WPKFile_init idx_path_ (Some ((os_path.splitext idx_path_).1 +:+ ".wpk")) options_ =
  WPKFile_init (FS := FS) idx_path_ None options_.
Proof.
  unfold WPKFile_init.
  by rewrite (bool_decide_false _ (derived_path_not_empty _)).
Qed.

(** X3. How the [wpk] subcommand composes.  After sniffing the first path:
    for a data file it opens the container on the derived index path and the
    given file; for any other file given alone it opens exactly the
    container [WPKFile(path, options=...)] opens by default, the data path
    being the one [__init__] derives itself.  The key of the command line is
    the decryption key, and [extract_all] on the output directory follows.
    An exception of either leaves [parse_args] ([__exit__] returns False). *)
Theorem parse_args_opens_then_extracts arguments s c :
  arg_subcommand arguments = Some "wpk" ->
  fs_open_rb (disk s) (arg_path arguments) = Ok c ->
  let path := arg_path arguments in
  let sniffed := after s [OpenRb path; Read 4 (take 4 c)] in
  let o := Some (options_of arguments) in
  (sniff c = Some "wpk" ->
   parse_args arguments s =
     (WPKFile_init ((os_path.splitext path).1 +:+ ".idx") (Some path) o;;
      extract_all (arg_output arguments)) sniffed) ∧
  (sniff c ≠ Some "wpk" -> arg_wpk_path arguments = None ->
   parse_args arguments s =
     (WPKFile_init path None o;; extract_all (arg_output arguments)) sniffed).
Proof.
  intros Hsub Hc path sniffed o.
  unfold parse_args. rewrite Hsub. simpl. split.
  - intros Hs. unfold pair_paths. unfold bind at 1 2.
    rewrite (detect_file_type_opened _ _ _ Hc), Hs. reflexivity.
  - intros Hs Hnone. unfold pair_paths. unfold bind at 1 2.
    rewrite (detect_file_type_opened _ _ _ Hc), Hnone.
    rewrite (bool_decide_false _ Hs). rewrite andb_true_r.
    case_bool_decide as Hidx; simpl; [|reflexivity].
    fold path. by rewrite WPKFile_init_default_data_path.
Qed.

End DetectionProperties.


Section ReaderProperties.
Context {FS : Type} `{!FileSystem FS} `{!Collaborators}.

Implicit Types (s : state FS) (w : WPKFile) (i : Z) (e entry : WPKEntry) (d : list event).

(** X4. [read_entry] is exception safe.  When it raises, the ordinal was in
    range and not cached, the data file was asked for, and the container is
    exactly what it was: nothing is cached, the index table, the paths and
    the options are untouched; the disk too, and nothing was created or
    written. *)
Theorem read_entry_raise_leaves_container i s x s' :
  read_entry i s = (Raise x, s') ->
  self s' = self s ∧ disk s' = disk s ∧
  valid_ordinal (self s) i ∧ entries (self s') !! i = None ∧
  ∃ d, trace s' = trace s ++ OpenRb (wpk_path (self s)) :: d ∧
       filter is_output d = [].
Proof.
  intros Hrun. pose proof (read_entry_resolution i s) as Hres.
  rewrite Hrun in Hres. simpl in Hres.
  inversion Hres as [| |idx x' He0 Hr Hc|idx c x' d He0 Hr Hc Hd Hh|]; subst.
  - split; [done|]. split; [done|].
    split; [apply record_valid; by rewrite Hr|]. split; [done|].
    by exists [].
  - split; [done|]. split; [done|].
    split; [apply record_valid; by rewrite Hr|]. split; [done|].
    eexists. split; [reflexivity|].
    rewrite !filter_cons_False by (simpl; tauto).
    by apply decode_trace_no_output.
Qed.

Lemma read_entry_with_disk_cached i s e dk :
  entries (self s) !! i = Some e ->
  read_entry i (with_disk s dk) = (Ok e, with_disk s dk).
Proof. intros He. by apply read_entry_cached. Qed.

(** X5. A resolved entry is a snapshot.  Once [read_entry] has returned the
    entry of an ordinal in range, every later [read_entry] of that ordinal
    returns that same entry and does nothing, whatever operations were run
    on the container in between and whatever became of the disk, the data
    file included: the container never looks at the data file again for
    that ordinal. *)
Theorem resolved_entry_is_a_snapshot i s e s' :
  valid_ordinal (self s) i ->
  read_entry i s = (Ok e, s') ->
  ∀ ops1 dk ops2,
    let s'' := run_operations ops2 (with_disk (run_operations ops1 s') dk) in
    read_entry i s'' = (Ok e, s'').
Proof.
  intros Hi Hrun ops1 dk ops2 s''.
  apply read_entry_cached.
  eapply extends_cache_lookup; [apply run_operations_extends|]. simpl.
  eapply extends_cache_lookup; [apply run_operations_extends|].
  by eapply read_entry_returns_cached.
Qed.

Lemma calls_of_app st d1 d2 : calls_of st (d1 ++ d2) = calls_of st d1 ++ calls_of st d2.
Proof.
  induction d1 as [|ev d1 IH]; [done|]. destruct ev; simpl; try done.
  case_decide; simpl; by rewrite IH.
Qed.

(** X6. A plain entry is stored as it lies in the data file.  For an
    ordinal in range, not yet resolved, whose record is neither encrypted nor
    compressed and whose bytes the secondary-layer checks decline:
    [read_entry] returns the raw slice, byte for byte; neither the
    decryption nor the decompression primitive is called; the TEXT flag is
    set exactly when [is_binary] says no, the extension and the category are
    what [get_ext] and [get_file_category] answer, and the extension, when
    there is one, is appended to the name. *)
Theorem plain_entry_is_the_raw_slice i s idx c binary ext cat :
  let raw := entry_set_data (entry_of idx) (raw_slice c idx) in
  let flagged := if binary : bool then raw
                 else entry_or_flag raw WPKEntryDataFlags.TEXT in
  entries (self s) !! i = None ->
  record (self s) i = Some idx ->
  fs_open_rb (disk s) (wpk_path (self s)) = Ok c ->
  is_encrypted (entry_of idx) = false ->
  is_compressed (entry_of idx) = false ->
  check_rotor raw = Ok false ->
  check_nxs3 raw = Ok false ->
  is_binary (raw_slice c idx) = Ok binary ->
  get_ext (raw_slice c idx) (data_flags flagged) = Ok ext ->
  get_file_category ext = Ok cat ->
  ∃ e s',
    read_entry i s = (Ok e, s') ∧
    get_data e = raw_slice c idx ∧
    data_flags e = data_flags flagged ∧
    extension e = ext ∧ category e = cat ∧
    filename e = (if bool_decide (ext = "") then filename idx
                  else filename idx +:+ "." +:+ ext) ∧
    entries (self s') !! i = Some e ∧
    ∃ d, trace s' = trace s ++ d ∧
         calls_of Decrypt d = [] ∧ calls_of Decompress d = [].
Proof.
  intros raw flagged He Hr Hc Henc Hzip Hrotor Hnxs3 Hbin Hext Hcat.
  unfold is_encrypted in Henc. unfold is_compressed in Hzip.
  rewrite (read_entry_loads i s idx c He Hr Hc).
  pose proof (slice_of_open c (entry_of idx)) as Hslice. unfold slice_of in Hslice.
  unfold _load_entry_data, bind, get_self, seek, read, call, emit, ret, lift, log.
  destruct (file_read _ _) as [got f'] eqn:Hread. simpl in Hslice. subst got.
  change (raw_slice c (entry_of idx)) with (raw_slice c idx).
  cbn -[raw_slice entry_of file_read file_seek Z.eqb negb].
  rewrite Henc. cbn -[raw_slice entry_of file_read file_seek Z.eqb negb].
  rewrite Hread. cbn -[raw_slice entry_of file_read file_seek Z.eqb negb].
  rewrite Hzip. cbn -[raw_slice entry_of file_read file_seek Z.eqb negb].
  subst raw. rewrite Hrotor. cbn -[raw_slice entry_of file_read file_seek Z.eqb negb].
  rewrite Hnxs3. cbn -[raw_slice entry_of file_read file_seek Z.eqb negb].
  rewrite Hbin. cbn -[raw_slice entry_of file_read file_seek Z.eqb negb].
  subst flagged.
  assert (data (if binary
                then entry_set_data (entry_of idx) (raw_slice c idx)
                else entry_or_flag (entry_set_data (entry_of idx) (raw_slice c idx))
                       WPKEntryDataFlags.TEXT) = raw_slice c idx) as Hdata
    by (by destruct binary).
  rewrite Hdata, Hext. cbn -[raw_slice entry_of file_read file_seek Z.eqb negb].
  rewrite Hcat. cbn -[raw_slice entry_of file_read file_seek Z.eqb negb].
  eexists _, _. split; [reflexivity|].
  unfold with_extension, get_data.
  cbn -[raw_slice entry_of file_read file_seek Z.eqb negb].
  case_bool_decide as Hx; cbn -[raw_slice entry_of file_read file_seek Z.eqb negb].
  all: split; [exact Hdata|]; split; [reflexivity|]; split; [reflexivity|].
  all: split; [reflexivity|]; split; [by destruct binary|].
  all: split; [by rewrite lookup_insert_eq|].
  all: eexists; split; [rewrite <- !app_assoc; reflexivity|].
  all: split; reflexivity.
Qed.

End ReaderProperties.


Section CacheProperties.
Context {FS : Type} `{!FileSystem FS} `{!Collaborators}.

Implicit Types (s : state FS) (w : WPKFile) (i : Z) (e entry : WPKEntry) (d : list event).

Lemma WPKFile_init_entries idx_path_ wpk_path_ options_ s0 s :
  WPKFile_init idx_path_ wpk_path_ options_ s0 = (Ok tt, s) -> entries (self s) = ∅.
Proof.
  intros Hinit.
  destruct (fs_open_rb (disk s0) idx_path_) as [c|x] eqn:Hc; cycle 1.
  { pose proof (WPKFile_init_not_opened idx_path_ wpk_path_ options_ s0 x Hc) as H1.
    by rewrite Hinit in H1. }
  destruct (WPKFile_init_layout idx_path_ wpk_path_ options_ s0 c Hc)
    as [Hshort Hlong].
  destruct (decide (length c < 4)%nat) as [Hlt|Hge].
  { rewrite (Hshort Hlt) in Hinit. done. }
  specialize (Hlong ltac:(lia)).
  destruct (layout_records _ _) as [[idxs|x] bs] eqn:El.
  - rewrite Hlong in Hinit. by injection Hinit as <-.
  - destruct Hlong as (idxs & Hl). rewrite Hl in Hinit. done.
Qed.

Lemma same_record_fields e (idx : WPKIndex) : same_record e idx -> same_fields e idx.
Proof.
  unfold same_record, set_data_flags, same_fields. intros Heq.
  injection Heq as ? ? ? ? ? ? ? ? ?. done.
Qed.

Lemma with_extension_fields e (idx : WPKIndex) :
  same_fields e idx -> same_fields (with_extension e) idx.
Proof. unfold with_extension. by case_bool_decide. Qed.

Lemma with_extension_filename e :
  filename (with_extension e) = filename e ∨
  filename (with_extension e) = filename e +:+ "." +:+ extension (with_extension e).
Proof. unfold with_extension. case_bool_decide; [by left|by right]. Qed.

Lemma read_entry_consistent i s :
  consistent (self s) -> consistent (self (read_entry i s).2).
Proof.
  intros Hcons. pose proof (read_entry_resolution i s) as Hres.
  destruct (read_entry i s) as [r s']. simpl in *.
  inversion Hres as [e0 He0| He0 Hn|idx x He0 Hr Hc|idx c x d He0 Hr Hc Hd Hh
                     |idx c e0 d He0 Hr Hc Hd Hh Hsame Hext]; subst; simpl; try done.
  intros j e Hj. simpl in Hj.
  destruct (decide (i = j)) as [<-|Hne].
  - rewrite lookup_insert_eq in Hj. injection Hj as <-.
    exists idx. split; [done|]. split.
    + by apply with_extension_fields, same_record_fields.
    + rewrite <- (same_record_filename _ _ Hsame). apply with_extension_filename.
  - rewrite lookup_insert_ne in Hj by done. by apply Hcons.
Qed.

Lemma extract_all_loop_consistent dir l s :
  consistent (self s) -> consistent (self (extract_all_loop dir l s).2).
Proof.
  revert s. induction l as [|i l IH]; intros s Hw; simpl; [done|].
  unfold bind. pose proof (read_entry_consistent i s Hw) as H1.
  destruct (read_entry i s) as [[e|x] s1]; simpl in *; [|done].
  pose proof (save_to_file_self e (os_path.join dir (filename e)) s1) as H2.
  destruct (save_to_file _ _ s1) as [[[]|x] s2]; simpl in *.
  - apply IH. by rewrite H2.
  - by rewrite H2.
Qed.

Lemma show_rename_dialog_consistent row name s :
  consistent (self s) -> consistent (self (show_rename_dialog row name s).2).
Proof.
  intros Hcons. unfold show_rename_dialog, bind, get_self, raise, ret, put_self.
  destruct (indices (self s) !! row) as [idx|] eqn:Hrow; simpl; [|done].
  case_bool_decide; simpl; [done|].
  intros j e Hj. simpl in Hj. unfold record. simpl.
  destruct (decide (Z.of_nat row = j)) as [<-|Hne].
  - rewrite bool_decide_true by lia. rewrite Nat2Z.id.
    rewrite list_lookup_insert_eq by (by eapply lookup_lt_Some).
    destruct (entries (self s) !! Z.of_nat row) as [e0|] eqn:He0.
    + rewrite lookup_insert_eq in Hj. injection Hj as <-.
      destruct (Hcons _ _ He0) as (idx0 & Hr0 & Hf0 & _).
      unfold record in Hr0. rewrite bool_decide_true, Nat2Z.id in Hr0 by lia.
      assert (idx0 = idx) as -> by congruence.
      eexists. split; [done|]. split; [exact Hf0|by left].
    + congruence.
  - assert (entries (self s) !! j = Some e) as Hj'.
    { destruct (entries (self s) !! Z.of_nat row); [|done].
      by rewrite lookup_insert_ne in Hj. }
    destruct (Hcons _ _ Hj') as (idx0 & Hr0 & Hf0).
    exists idx0. split; [|done].
    unfold record in Hr0. case_bool_decide; [|done].
    rewrite list_lookup_insert_ne by lia. done.
Qed.

(** X7. The cache never disagrees with the index table.  In every container
    that was opened and then resolved from, extracted, renamed in or had its
    disk changed, each cached entry belongs to an ordinal in range and
    carries the offset, the lengths, the checksums and the two tags of that
    ordinal's index record; its name is the record's name, or the record's
    name followed by a dot and the entry's extension. *)
Theorem cache_agrees_with_index s :
  reachable s ->
  ∀ i e,
    entries (self s) !! i = Some e ->
    ∃ idx,
      valid_ordinal (self s) i ∧
      record (self s) i = Some idx ∧
      same_fields e idx ∧
      (filename e = filename idx ∨
       filename e = filename idx +:+ "." +:+ extension e).
Proof.
  intros Hreach.
  assert (consistent (self s)) as Hcons.
  { induction Hreach as [? ? ? ? ? Hinit|op s Hreach IH| |]; simpl.
    - intros i e. by rewrite (WPKFile_init_entries _ _ _ _ _ Hinit), lookup_empty.
    - destruct op; simpl.
      + by apply read_entry_consistent.
      + done.
      + unfold extract_all, bind, get_self. by apply extract_all_loop_consistent.
    - by apply show_rename_dialog_consistent.
    - done. }
  intros i e He. destruct (Hcons i e He) as (idx & Hr & Hf & Hn).
  exists idx. split; [|done]. apply record_valid. by rewrite Hr.
Qed.

End CacheProperties.


Section ExtractionProperties.
Context {FS : Type} `{!FileSystem FS} `{!Collaborators}.

Implicit Types (s : state FS) (w : WPKFile) (i : Z) (e entry : WPKEntry) (d : list event).

Lemma read_entry_other i j s :
  j ≠ i -> entries (self (read_entry i s).2) !! j = entries (self s) !! j.
Proof.
  intros Hne. destruct (read_entry_resolution i s); simpl; try done.
  by rewrite lookup_insert_ne.
Qed.

Lemma read_entry_raise_uncached i s x s' :
  read_entry i s = (Raise x, s') -> entries (self s') !! i = None.
Proof.
  intros Hrun. pose proof (read_entry_resolution i s) as Hres.
  rewrite Hrun in Hres. simpl in Hres. by inversion Hres; subst.
Qed.

Lemma save_to_file_raise e p s x s' :
  save_to_file e p s = (Raise x, s') ->
  trace s' = trace s ++ [Makedirs (os_path.dirname p)] ∨
  trace s' = trace s ++ [Makedirs (os_path.dirname p); WriteFile p (data e)].
Proof.
  unfold save_to_file, makedirs, write_file, bind, emit, sys_makedirs, sys_write.
  simpl. destruct (fs_makedirs _ _); simpl.
  - destruct (fs_write _ _ _); simpl; [done|].
    intros [= _ <-]. right. simpl. by rewrite <- app_assoc.
  - intros [= _ <-]. by left.
Qed.

Lemma save_to_file_trace e p s :
  ∃ d, trace (save_to_file e p s).2 = trace s ++ d ∧ filter is_decode_work d = [].
Proof.
  unfold save_to_file, makedirs, write_file, bind, emit, sys_makedirs, sys_write.
  simpl. destruct (fs_makedirs _ _); simpl.
  - destruct (fs_write _ _ _); simpl; eexists; (split; [by rewrite <- app_assoc|done]).
  - by eexists.
Qed.

Lemma extract_all_loop_raise dir l s x s' :
  Forall (valid_ordinal (self s)) l ->
  extract_all_loop dir l s = (Raise x, s') ->
  ∃ l1 i l2 (es : list WPKEntry) d rest,
    l = l1 ++ i :: l2 ∧
    Forall2 (fun j e => entries (self s') !! j = Some e) l1 es ∧
    trace s' = trace s ++ d ∧
    filter is_output d = (es ≫= outputs dir) ++ rest ∧
    (rest = [] ∧ entries (self s') !! i = None ∨
     ∃ e, entries (self s') !! i = Some e ∧
          (rest = [Makedirs (os_path.dirname (destination dir e))] ∨
           rest = outputs dir e)) ∧
    (∀ j, j ∉ l1 -> j ≠ i -> entries (self s') !! j = entries (self s) !! j).
Proof.
  revert s. induction l as [|i l IH]; intros s Hvalid; simpl; [done|].
  apply Forall_cons in Hvalid as [Hi Hvalid].
  destruct (read_entry_no_output i s) as (d1 & Htrace1 & Hd1).
  pose proof (read_entry_other i) as Hother.
  pose proof (read_entry_extends i s) as Hext1.
  unfold bind at 1. destruct (read_entry i s) as [[e|x1] s1] eqn:Hread.
  - unfold bind at 1. simpl in Htrace1, Hext1.
    pose proof (save_to_file_self e (os_path.join dir (filename e)) s1) as Hself2.
    assert (entries (self s1) !! i = Some e) as Hin
      by (eapply read_entry_returns_cached; eauto).
    destruct (save_to_file e (os_path.join dir (filename e)) s1)
      as [[[]|x2] s2] eqn:Hsave; simpl in Hself2.
    + intros Hloop.
      pose proof (save_to_file_ok _ _ _ _ Hsave) as Htrace2.
      assert (Forall (valid_ordinal (self s2)) l) as Hvalid2.
      { rewrite Hself2. eapply Forall_impl; [exact Hvalid|].
        intros j. unfold valid_ordinal. destruct Hext1 as (_ & _ & _ & -> & _). done. }
      destruct (IH s2 Hvalid2 Hloop)
        as (l1 & i' & l2 & es & d' & rest & -> & Hes & Htrace & Hd' & Hrest & Hkeep).
      pose proof (extract_all_loop_extends dir (l1 ++ i' :: l2) s2) as Hext2.
      rewrite Hloop in Hext2. simpl in Hext2.
      exists (i :: l1), i', l2, (e :: es), (d1 ++ outputs dir e ++ d'), rest.
      split; [done|]. split.
      { constructor; [|done].
        eapply extends_cache_lookup; [exact Hext2|]. by rewrite Hself2. }
      split.
      { rewrite Htrace, Htrace2, Htrace1. unfold outputs, destination.
        by rewrite <- !app_assoc. }
      split.
      { rewrite !filter_app, Hd1, Hd'. simpl. done. }
      split; [exact Hrest|].
      intros j Hj1 Hj2. apply not_elem_of_cons in Hj1 as [Hji Hj1].
      rewrite Hkeep; [|done|done].
      rewrite Hself2. specialize (Hother j s). rewrite Hread in Hother.
      by apply Hother.
    + intros [= <- <-].
      destruct (save_to_file_raise _ _ _ _ _ Hsave) as [Ht|Ht].
      * exists [], i, l, [], (d1 ++ [Makedirs (os_path.dirname (destination dir e))]),
          [Makedirs (os_path.dirname (destination dir e))].
        split; [done|]. split; [constructor|].
        split; [by rewrite Ht, Htrace1, <- app_assoc|].
        split; [by rewrite filter_app, Hd1|]. split.
        { right. exists e. rewrite Hself2. split; [done|]. by left. }
        intros j _ Hj. rewrite Hself2. specialize (Hother j s).
        rewrite Hread in Hother. by apply Hother.
      * exists [], i, l, [], (d1 ++ outputs dir e), (outputs dir e).
        split; [done|]. split; [constructor|].
        split; [by rewrite Ht, Htrace1, <- app_assoc|].
        split; [by rewrite filter_app, Hd1|]. split.
        { right. exists e. rewrite Hself2. split; [done|]. by right. }
        intros j _ Hj. rewrite Hself2. specialize (Hother j s).
        rewrite Hread in Hother. by apply Hother.
  - intros [= <- <-]. simpl in Htrace1.
    exists [], i, l, [], d1, []. split; [done|]. split; [constructor|].
    split; [done|]. split; [by rewrite Hd1|]. split.
    { left. split; [done|]. eapply read_entry_raise_uncached, Hread. }
    intros j _ Hj. specialize (Hother j s). rewrite Hread in Hother.
    by apply Hother.
Qed.

(** X8. [extract_all] stops at the first failure and leaves a partial
    extraction behind.  When it raises, the entries of the ordinals before
    the failing one have been resolved, cached and written, in order; for
    the failing ordinal either its resolution raised, and then it is not
    cached and nothing was output for it, or it is cached and only its
    directory was asked for, or its write was attempted; no later ordinal
    was resolved or written. *)
Theorem extract_all_stops_at_first_failure dir s x s' :
  extract_all dir s = (Raise x, s') ->
  ∃ (es : list WPKEntry) d rest,
    (length es < length (indices (self s)))%nat ∧
    (∀ k e, es !! k = Some e -> entries (self s') !! Z.of_nat k = Some e) ∧
    trace s' = trace s ++ d ∧
    filter is_output d = (es ≫= outputs dir) ++ rest ∧
    (rest = [] ∧ entries (self s') !! Z.of_nat (length es) = None ∨
     ∃ e, entries (self s') !! Z.of_nat (length es) = Some e ∧
          (rest = [Makedirs (os_path.dirname (destination dir e))] ∨
           rest = outputs dir e)) ∧
    (∀ j, Z.of_nat (length es) < j ->
          entries (self s') !! j = entries (self s) !! j).
Proof.
  unfold extract_all, bind, get_self. intros Hrun.
  destruct (extract_all_loop_raise dir _ s x s' (seqZ_valid (self s)) Hrun)
    as (l1 & i & l2 & es & d & rest & Hl & Hes & Htrace & Hd & Hrest & Hkeep).
  pose proof (Forall2_length _ _ _ Hes) as Hlen.
  assert (l1 = seqZ 0 (Z.of_nat (length l1)) ∧ i = Z.of_nat (length l1) ∧
          (length l1 < length (indices (self s)))%nat) as (Hl1 & Hi & Hlt).
  { assert (length (seqZ 0 (Z.of_nat (length (indices (self s))))) =
              length (l1 ++ i :: l2)) as Hn by (by rewrite Hl).
    rewrite length_seqZ, length_app in Hn. simpl in Hn.
    assert (seqZ 0 (Z.of_nat (length (indices (self s)))) !! length l1 = Some i) as Hi.
    { rewrite Hl. by rewrite list_lookup_middle. }
    apply lookup_seqZ in Hi as [Hi _].
    split; [|split; [lia|lia]].
    apply list_eq. intros k.
    destruct (decide (k < length l1)%nat) as [Hk|Hk].
    - assert (seqZ 0 (Z.of_nat (length (indices (self s)))) !! k = l1 !! k) as Hk'.
      { rewrite Hl. by rewrite lookup_app_l. }
      rewrite <- Hk'. rewrite !lookup_seqZ_lt by lia. done.
    - rewrite lookup_ge_None_2 by lia.
      symmetry. apply lookup_seqZ_ge. lia. }
  exists es, d, rest. rewrite <- Hlen.
  split; [exact Hlt|]. split.
  { intros k e Hk.
    destruct (Forall2_lookup_r _ _ _ _ _ Hes Hk) as (j & Hj & Hje).
    rewrite Hl1 in Hj. apply lookup_seqZ in Hj as [-> _]. done. }
  split; [exact Htrace|]. split; [exact Hd|]. split.
  { rewrite <- Hi. exact Hrest. }
  intros j Hj. apply Hkeep; [|lia].
  rewrite Hl1. intros Hin. apply elem_of_seqZ in Hin. lia.
Qed.

Lemma extract_all_loop_cached dir l s :
  Forall (fun i => is_Some (entries (self s) !! i)) l ->
  self (extract_all_loop dir l s).2 = self s ∧
  ∃ d, trace (extract_all_loop dir l s).2 = trace s ++ d ∧
       filter is_decode_work d = [].
Proof.
  revert s. induction l as [|i l IH]; intros s Hl; simpl.
  - split; [done|]. exists []. by rewrite app_nil_r.
  - apply Forall_cons in Hl as [[e He] Hl].
    unfold bind at 1 3. rewrite (read_entry_cached _ _ _ He).
    unfold bind.
    pose proof (save_to_file_self e (os_path.join dir (filename e)) s) as Hself.
    destruct (save_to_file_trace e (os_path.join dir (filename e)) s) as (d1 & Ht1 & Hd1).
    destruct (save_to_file _ _ s) as [[[]|x] s2]; simpl in *.
    + assert (Forall (fun i => is_Some (entries (self s2) !! i)) l) as Hl2
        by (by rewrite Hself).
      destruct (IH s2 Hl2) as (Hs & d2 & Ht2 & Hd2).
      split; [by rewrite Hs|]. exists (d1 ++ d2).
      split; [by rewrite Ht2, Ht1, app_assoc|].
      by rewrite filter_app, Hd1, Hd2.
    + split; [done|]. by exists d1.
Qed.

(** X9. [extract_all] resolves everything, once.  After an extraction that
    returned, every ordinal in range is loaded; any further [extract_all],
    to whatever directory and whether or not it succeeds, is served from the
    cache alone: it neither opens nor reads the data file, calls no decode
    primitive, and leaves the container as it is. *)
Theorem extract_all_resolves_everything_once dir s s' :
  extract_all dir s = (Ok tt, s') ->
  (∀ i, valid_ordinal (self s) i -> is_entry_loaded i s' = (Ok true, s')) ∧
  ∀ dir',
    self (extract_all dir' s').2 = self s' ∧
    ∃ d, trace (extract_all dir' s').2 = trace s' ++ d ∧
         filter is_decode_work d = [].
Proof.
  intros Hrun.
  destruct (extract_all_spec dir s s' Hrun) as (es & d & Hlen & Hes & _).
  pose proof (run_operation_extends (OpExtractAll dir) s) as Hext.
  simpl in Hext. rewrite Hrun in Hext. simpl in Hext.
  assert (∀ i, valid_ordinal (self s) i -> is_Some (entries (self s') !! i)) as Hall.
  { intros i [Hi0 Hi1].
    destruct (lookup_lt_is_Some_2 es (Z.to_nat i)) as [e He]; [lia|].
    destruct (Hes _ _ He) as [Hin _]. rewrite Z2Nat.id in Hin by lia. by exists e. }
  split.
  - intros i Hi. unfold is_entry_loaded, bind, get_self, ret.
    by rewrite bool_decide_true by (by apply Hall).
  - intros dir'. unfold extract_all, bind, get_self.
    apply extract_all_loop_cached.
    eapply Forall_impl; [apply seqZ_valid|]. intros i Hi. apply Hall.
    unfold valid_ordinal in *. destruct Hext as (_ & _ & _ & <- & _). done.
Qed.

End ExtractionProperties.


Section RenameProperties.
Context {FS : Type} `{!FileSystem FS} `{!Collaborators}.

Implicit Types (s : state FS) (w : WPKFile) (i : Z) (e entry : WPKEntry) (d : list event).

(** X10. Renaming a row and resolving it do not commute.  An accepted,
    non-empty new name replaces the name of the row's index record and, when
    the row is already resolved, the name of its cached entry, extension
    suffix included: [read_entry] then returns the entry under exactly the
    new name and decodes nothing.  When the row is not yet resolved, a later
    [read_entry] builds the name from the new one and appends the derived
    extension as usual.  No other row is touched, and nothing is read,
    written or logged. *)
Theorem rename_reaches_index_and_cache row name s idx :
  indices (self s) !! row = Some idx ->
  name ≠ "" ->
  let i := Z.of_nat row in
  let s' := (show_rename_dialog row name s).2 in
  (show_rename_dialog row name s).1 = Ok tt ∧
  record (self s') i = Some (set_filename idx name) ∧
  (∀ j, j ≠ i -> record (self s') j = record (self s) j ∧
                 entries (self s') !! j = entries (self s) !! j) ∧
  (∀ e, entries (self s) !! i = Some e ->
        read_entry i s' = (Ok (entry_set_filename e name), s')) ∧
  (entries (self s) !! i = None ->
   ∀ e s'', read_entry i s' = (Ok e, s'') ->
            filename e = if bool_decide (extension e = "") then name
                         else name +:+ "." +:+ extension e) ∧
  disk s' = disk s ∧ trace s' = trace s.
Proof.
  intros Hrow Hname i s'.
  assert (show_rename_dialog row name s =
            (Ok tt,
             with_self s
               {| idx_path := idx_path (self s); wpk_path := wpk_path (self s);
                  options := options (self s);
                  entries :=
                    match entries (self s) !! i with
                    | Some e => <[i := entry_set_filename e name]> (entries (self s))
                    | None => entries (self s)
                    end;
                  indices := <[row := set_filename idx name]> (indices (self s)) |}))
    as Hrun.
  { unfold show_rename_dialog, bind, get_self, put_self, ret. rewrite Hrow.
    by rewrite (bool_decide_false _ Hname). }
  subst s'. rewrite Hrun. simpl.
  assert (record
            {| idx_path := idx_path (self s); wpk_path := wpk_path (self s);
               options := options (self s);
               entries :=
                 match entries (self s) !! i with
                 | Some e => <[i := entry_set_filename e name]> (entries (self s))
                 | None => entries (self s)
                 end;
               indices := <[row := set_filename idx name]> (indices (self s)) |} i =
          Some (set_filename idx name)) as Hrec.
  { unfold record. simpl. subst i. rewrite bool_decide_true by lia.
    rewrite Nat2Z.id. apply list_lookup_insert_eq. by eapply lookup_lt_Some. }
  split; [done|]. split; [exact Hrec|]. split.
  { intros j Hj. split.
    - unfold record. simpl. case_bool_decide; [|done].
      apply list_lookup_insert_ne. subst i. lia.
    - destruct (entries (self s) !! i); [|done]. by rewrite lookup_insert_ne. }
  split.
  { intros e He. apply read_entry_cached. simpl. rewrite He.
    by rewrite lookup_insert_eq. }
  split; [|done].
  intros He e s'' Hread.
  match type of Hread with read_entry i ?t = _ => set (s1 := t) in * end.
  pose proof (read_entry_resolution i s1) as Hres.
  rewrite Hread in Hres. simpl in Hres.
  assert (entries (self s1) !! i = None) as He1 by (subst s1; simpl; by rewrite He).
  inversion Hres as [e0 He0| He0 Hn| |
                     |idx' c e0 d0 He0 Hr Hc Hd Hh Hsame Hext]; subst.
  - congruence.
  - exfalso. apply Hn, record_valid. subst s1. simpl. by rewrite Hrec.
  - assert (idx' = set_filename idx name) as ->.
    { subst s1. simpl in Hr. congruence. }
    pose proof (same_record_filename _ _ Hsame) as Hfn. simpl in Hfn.
    unfold with_extension. case_bool_decide as Hx.
    + by rewrite bool_decide_true.
    + simpl. rewrite bool_decide_false by done. by rewrite Hfn.
Qed.

End RenameProperties.


Section FlagProperties.
Context {FS : Type} `{!FileSystem FS} `{!Collaborators}.

Implicit Types (s : state FS) (w : WPKFile) (i : Z) (e entry : WPKEntry) (d : list event).

(** A run of [_load_entry_data] that returns: what it appended to the trace
    after the read, how often each primitive was called on the way, and the
    flags, extension and category of the entry, after a failed decompression
    ([failed]) or at the end of the pipeline. *)
Lemma load_run entry file s e s' :
  _load_entry_data entry file s = (Ok e, s') ->
  ∃ d (failed rotor nxs3 binary : bool),
    trace s' = trace s ++ Seek (file_offset entry)
                 :: Read (file_length entry) (slice_of file entry) :: d ∧
    (∀ st, length (calls_of st d) = pipeline_runs entry failed rotor nxs3 st) ∧
    if failed
    then is_compressed entry = true ∧
         data_flags e = Z.lor (data_flags entry) (failure_flag (options (self s))) ∧
         extension e = extension entry ∧ category e = category entry
    else data_flags e = decoded_flags (data_flags entry) rotor nxs3 binary ∧
         is_binary (data e) = Ok binary ∧
         get_ext (data e) (data_flags e) = Ok (extension e) ∧
         get_file_category (extension e) = Ok (category e).
Proof.
  unfold pipeline_runs.
  unfold _load_entry_data, call, seek, read, log, get_self, lift, is_compressed,
    failure_flag, is_encrypted, slice_of.
  unfold bind, ret, emit. simpl.
  destruct (negb (encrypt_flag entry =? DecryptionType_NONE)) eqn:Henc,
    (negb (zip_flag entry =? CompressionType_NONE)) eqn:Hzip; simpl.
  all: rewrite ?Hzip; repeat case_match; intros ?; simplify_eq/=.
  all: try congruence.
  all: rewrite <- ?app_assoc; simpl.
  all: eexists.
  all: first
    [ match goal with
      | H1 : check_rotor _ = Ok ?r, H2 : check_nxs3 _ = Ok ?n, H3 : is_binary _ = Ok ?b |- _ =>
          exists false, r, n, b
      end
    | exists true, false, false, false ].
  all: (split; [reflexivity|]).
  all: (split; [intros st; destruct st; reflexivity|]).
  all: done.
Qed.

(** The two ways [_load_entry_data] returns: after a failed decompression,
    or at the end of the pipeline. *)
Lemma load_outcome entry file s e s' :
  _load_entry_data entry file s = (Ok e, s') ->
  (is_compressed entry = true ∧
   data_flags e = Z.lor (data_flags entry) (failure_flag (options (self s))) ∧
   extension e = extension entry ∧ category e = category entry) ∨
  (∃ rotor nxs3 binary : bool,
     data_flags e = decoded_flags (data_flags entry) rotor nxs3 binary ∧
     is_binary (data e) = Ok binary ∧
     get_ext (data e) (data_flags e) = Ok (extension e) ∧
     get_file_category (extension e) = Ok (category e)).
Proof.
  intros (d & failed & rotor & nxs3 & binary & _ & _ & Hout)%load_run.
  destruct failed; [by left|right; by exists rotor, nxs3, binary].
Qed.

End FlagProperties.


Section FlagTheorems.
Context {FS : Type} `{!FileSystem FS} `{!Collaborators}.

Implicit Types (s : state FS) (w : WPKFile) (i : Z) (e entry : WPKEntry) (d : list event).

Lemma with_extension_flags e : data_flags (with_extension e) = data_flags e.
Proof. unfold with_extension. by case_bool_decide. Qed.

Lemma with_extension_data e : data (with_extension e) = data e.
Proof. unfold with_extension. by case_bool_decide. Qed.

Lemma with_extension_extension e : extension (with_extension e) = extension e.
Proof. unfold with_extension. by case_bool_decide. Qed.

Lemma with_extension_category e : category (with_extension e) = category e.
Proof. unfold with_extension. by case_bool_decide. Qed.

(** X11. What the flags of a freshly resolved entry say.  In a reachable
    container, for an ordinal in range that was not yet resolved: ERROR and
    ENCRYPTED are never set together; when one of them is set the record is
    a compressed one and the entry is unclassified: no TEXT, ROTOR_PACKED or
    NXS3_PACKED flag, no extension, category OTHER, and the name of the
    index record; when neither is set, TEXT is set exactly when [is_binary]
    says no on the final bytes, and the extension and the category are the
    answers of [get_ext] and [get_file_category] on them. *)
Theorem flags_tell_failure_from_classification i s e s' :
  reachable s ->
  valid_ordinal (self s) i ->
  entries (self s) !! i = None ->
  read_entry i s = (Ok e, s') ->
  let has := WPKEntryDataFlags.has (data_flags e) in
  has WPKEntryDataFlags.ERROR && has WPKEntryDataFlags.ENCRYPTED = false ∧
  (has WPKEntryDataFlags.ERROR || has WPKEntryDataFlags.ENCRYPTED = true ->
   is_compressed e = true ∧
   has WPKEntryDataFlags.TEXT = false ∧
   has WPKEntryDataFlags.ROTOR_PACKED = false ∧
   has WPKEntryDataFlags.NXS3_PACKED = false ∧
   extension e = "" ∧ category e = OTHER ∧
   record (self s) i = Some (set_data_flags e WPKEntryDataFlags.NONE)) ∧
  (has WPKEntryDataFlags.ERROR || has WPKEntryDataFlags.ENCRYPTED = false ->
   is_binary (data e) = Ok (negb (has WPKEntryDataFlags.TEXT)) ∧
   get_ext (data e) (data_flags e) = Ok (extension e) ∧
   get_file_category (extension e) = Ok (category e)).
Proof.
  intros Hreach Hi He Hrun. cbv zeta.
  destruct (proj2 (record_valid (self s) i) Hi) as [idx Hr].
  pose proof (reachable_no_flags s i idx Hreach Hr) as Hflags.
  pose proof (read_entry_resolution i s) as Hres.
  rewrite Hrun in Hres. simpl in Hres.
  destruct (fs_open_rb (disk s) (wpk_path (self s))) as [c|x] eqn:Hc; cycle 1.
  { by rewrite (read_entry_not_opened i s idx x He Hr Hc) in Hrun. }
  rewrite (read_entry_loads i s idx c He Hr Hc) in Hrun.
  destruct (_load_entry_data _ _ _) as [[e0|x] s1] eqn:Hload; [|done].
  injection Hrun as <- <-.
  rewrite with_extension_flags, with_extension_data, with_extension_extension,
    with_extension_category.
  assert (same_record e0 idx) as Hsame.
  { destruct (load_spec (entry_of idx) {| content := c; position := 0 |}
                (after s [OpenRb (wpk_path (self s))])) as (r & d & Hl & _ & _ & Hok).
    rewrite Hload in Hl. injection Hl as <- _. by destruct (Hok e0 eq_refl). }
  assert (is_compressed (with_extension e0) = is_compressed (entry_of idx)) as Hcomp.
  { unfold is_compressed.
    destruct (same_record_fields _ _ Hsame) as (_ & _ & _ & _ & _ & _ & Hz & _).
    destruct (with_extension_fields _ _ (same_record_fields _ _ Hsame))
      as (_ & _ & _ & _ & _ & _ & Hz' & _).
    simpl. by rewrite Hz'. }
  rewrite Hcomp.
  destruct (load_outcome _ _ _ _ _ Hload)
    as [(Hzip & Hf & Hx & Hcat)|(rotor & nxs3 & binary & Hf & Hb & Hx & Hcat)].
  - simpl in Hf, Hx, Hcat. rewrite Hflags in Hf. rewrite Hf.
    unfold failure_flag. unfold with_extension. rewrite Hx. simpl.
    assert (set_data_flags e0 WPKEntryDataFlags.NONE = idx) as Hidx.
    { change WPKEntryDataFlags.NONE with 0 in *. unfold same_record in Hsame.
      rewrite Hsame. destruct idx. simpl in *. by rewrite Hflags. }
    rewrite Hidx, Hcat, Hr, Hzip.
    destruct (key_configured _); simpl; (split; [done|]); split; done.
  - simpl in Hf. rewrite Hflags in Hf.
    assert (∀ m, WPKEntryDataFlags.has (data_flags e0) m =
                 WPKEntryDataFlags.has
                   (decoded_flags WPKEntryDataFlags.NONE rotor nxs3 binary) m) as Hhas
      by (intros m; by rewrite Hf).
    rewrite !Hhas, Hb, Hx, Hcat.
    destruct rotor, nxs3, binary; simpl; (split; [done|]); (split; [done|]);
      intros _; done.
Qed.

End FlagTheorems.


Section Idempotence.
Context {FS : Type} `{!FileSystem FS} `{!Collaborators}.

Implicit Types (s : state FS) (w : WPKFile) (i : Z) (e entry : WPKEntry) (d : list event).

(** The flags of a returned entry tell how the pipeline went. *)
Lemma pipeline_runs_of_flags entry e o (failed rotor nxs3 binary : bool) st :
  data_flags entry = WPKEntryDataFlags.NONE ->
  (if failed
   then data_flags e = Z.lor (data_flags entry) (failure_flag o)
   else data_flags e = decoded_flags (data_flags entry) rotor nxs3 binary) ->
  pipeline_runs entry failed rotor nxs3 st =
  pipeline_runs entry
    (WPKEntryDataFlags.has (data_flags e) WPKEntryDataFlags.ERROR ||
     WPKEntryDataFlags.has (data_flags e) WPKEntryDataFlags.ENCRYPTED)
    (WPKEntryDataFlags.has (data_flags e) WPKEntryDataFlags.ROTOR_PACKED)
    (WPKEntryDataFlags.has (data_flags e) WPKEntryDataFlags.NXS3_PACKED) st.
Proof.
  intros Hnone Hflags. destruct failed.
  - rewrite Hflags, Hnone. unfold failure_flag.
    by destruct (key_configured o), st.
  - rewrite Hflags, Hnone. by destruct rotor, nxs3, binary.
Qed.

(** C4. For an ordinal in range.  When [read_entry] returns an entry, a
    second [read_entry] returns the same entry (content, flags and all) and
    leaves the state, trace included, as the first call left it: it is
    served from the cache and runs nothing.  The first call, when the ordinal
    was cached already, does nothing either; when it was not, the data file
    is opened once, sought once and read once, and in a reachable container
    every primitive of the pipeline is called exactly as often as the record
    and the outcome ask: decryption once when the record is encrypted,
    decompression once when it is compressed, and, unless decompression
    failed, each check and each classification step once and an unpacking
    step once when its check accepted; nothing runs more than once.  When
    [read_entry] raises, the container and the disk are what they were,
    nothing is cached, and a second call opens the data file again. *)
Theorem read_entry_is_idempotent i s :
  valid_ordinal (self s) i ->
  (∀ e s', read_entry i s = (Ok e, s') ->
     read_entry i s' = (Ok e, s') ∧
     entries (self s') !! i = Some e ∧
     ∃ d,
       trace s' = trace s ++ d ∧
       (∀ r, times r d ≤ 1)%nat ∧
       (is_Some (entries (self s) !! i) -> d = []) ∧
       (entries (self s) !! i = None ->
        times (rank (OpenRb "")) d = 1%nat ∧
        times (rank (Seek 0)) d = 1%nat ∧
        times (rank (Read 0 [])) d = 1%nat ∧
        (reachable s ->
         ∃ idx, record (self s) i = Some idx ∧
                ∀ st, length (calls_of st d) = stage_runs idx e st))) ∧
  (∀ x s', read_entry i s = (Raise x, s') ->
     self s' = self s ∧ disk s' = disk s ∧
     entries (self s') !! i = None ∧
     ∃ d', trace (read_entry i s').2 = trace s' ++ OpenRb (wpk_path (self s')) :: d').
Proof.
  intros Hi. split.
  - intros e s' Hrun. pose proof (read_entry_resolution i s) as Hres.
    rewrite Hrun in Hres. simpl in Hres.
    inversion Hres as [e0 He0| He0 Hn| |
                       |idx c e0 d0 He0 Hr Hc Hd Hh Hsame Hext]; subst.
    + split; [by apply read_entry_cached|]. split; [done|].
      exists []. rewrite app_nil_r. split; [done|]. split.
      { intros r. unfold times. simpl. lia. }
      split; [done|]. intros Hnone. congruence.
    + done.
    + assert (entries (cached (self s) i (with_extension e0)) !! i
              = Some (with_extension e0)) as Hin.
      { simpl. by rewrite lookup_insert_eq. }
      split; [by apply read_entry_cached|]. split; [done|].
      eexists. split; [reflexivity|]. split.
      { intros r. apply sorted_times. by apply resolution_trace_sorted. }
      split. { intros [? ?]. congruence. }
      intros _. rewrite !times_cons. simpl.
      destruct Hd as [Hsorted Hd]. rewrite !times_above; cycle 1.
      all: try (eapply Forall_impl; [exact Hd|]; simpl; intros; lia).
      split; [done|]. split; [done|]. split; [done|].
      intros Hreach. exists idx. split; [done|]. intros st.
      rewrite (read_entry_loads i s idx c He0 Hr Hc) in Hrun.
      destruct (_load_entry_data _ _ _) as [[e1|x] s1] eqn:Hload; [|done].
      pose proof (f_equal (fun p => trace p.2) Hrun) as Hs.
      assert (with_extension e1 = with_extension e0) as He by congruence.
      clear Hrun.
      destruct (load_run _ _ _ _ _ Hload)
        as (d1 & failed & rotor & nxs3 & binary & Ht & Hcount & Hout).
      simpl in Hs. rewrite Ht in Hs. simpl in Hs.
      rewrite <- app_assoc in Hs. apply app_inv_head in Hs. simpl in Hs.
      assert (d0 = d1) as -> by congruence.
      rewrite Hcount. unfold stage_runs. rewrite <- He, with_extension_flags.
      apply (pipeline_runs_of_flags _ _ (options (self s)) _ _ _ binary).
      { exact (reachable_no_flags s i idx Hreach Hr). }
      destruct failed; [|tauto]. tauto.
  - intros x s' Hrun. pose proof (read_entry_resolution i s) as Hres.
    rewrite Hrun in Hres. simpl in Hres.
    assert (self s' = self s ∧ disk s' = disk s ∧ entries (self s') !! i = None)
      as (Hself & Hdisk & Hnone).
    { inversion Hres; subst; done. }
    split; [done|]. split; [done|]. split; [done|].
    pose proof (read_entry_resolution i s') as Hres'.
    destruct (read_entry i s') as [r2 s2]. simpl in *.
    inversion Hres'; subst; simpl.
    + congruence.
    + rewrite Hself in *. done.
    + by eexists.
    + by eexists.
    + by eexists.
Qed.

End Idempotence.


Section PathProperties.
Context {FS : Type} `{!FileSystem FS} `{!Collaborators}.

Implicit Types (s : state FS) (w : WPKFile) (l : list ascii) (p : string).

Lemma rfind_from_spec c l i acc :
  ((c ∉ l) ∧ os_path.rfind_from c l i acc = acc) ∨
  (∃ k : nat, l !! k = Some c ∧ os_path.rfind_from c l i acc = i + Z.of_nat k ∧
              c ∉ drop (S k) l).
Proof.
  revert i acc. induction l as [|x l IH]; intros i acc; simpl.
  - left. split; [apply not_elem_of_nil|done].
  - destruct (IH (i + 1) (if Ascii.eqb x c then i else acc))
      as [[Hno Hr]|(k & Hk & Hr & Hno)].
    + destruct (Ascii.eqb_spec x c) as [->|Hne].
      * right. exists 0%nat. simpl. rewrite drop_0. split; [done|]. split; [lia|done].
      * left. split; [|done]. apply not_elem_of_cons. split; [congruence|done].
    + right. exists (S k). split; [done|]. split; [lia|done].
Qed.

Lemma string_of_list_ascii_app l1 l2 :
  string_of_list_ascii (l1 ++ l2) = string_of_list_ascii l1 +:+ string_of_list_ascii l2.
Proof. induction l1 as [|x l1 IH]; simpl; [done|]. by rewrite IH. Qed.

Lemma upto_from p (k : Z) : os_path.upto p k +:+ os_path.from p k = p.
Proof.
  unfold os_path.upto, os_path.from.
  by rewrite <- string_of_list_ascii_app, take_drop, string_of_list_ascii_of_string.
Qed.

Lemma append_empty_r p : p +:+ "" = p.
Proof.
  induction p as [|x p IH]; [done|].
  change (String x (p +:+ "") = String x p). by f_equal.
Qed.

Lemma skip_leading_dots_Some p dotIndex filenameIndex n r :
  os_path.skip_leading_dots p dotIndex filenameIndex n = Some r ->
  r = (os_path.upto p dotIndex, os_path.from p dotIndex) ∧ n ≠ 0%nat.
Proof.
  revert filenameIndex. induction n as [|n IH]; intros f; simpl; [done|].
  destruct (list_ascii_of_string p !! Z.to_nat f) as [c|].
  - destruct (Ascii.eqb c os_path.extsep).
    + intros Hr. destruct (IH _ Hr) as [-> _]. done.
    + by intros [= <-].
  - by intros [= <-].
Qed.

(** What [os.path.splitext] gives: the two parts put together are the path;
    the extension is empty, or it is a dot followed by characters that are
    neither dots nor separators, and then the root is not empty. *)
Lemma splitext_parts p :
  (os_path.splitext p).1 +:+ (os_path.splitext p).2 = p ∧
  ((os_path.splitext p).2 = "" ∨
   ∃ rest, (os_path.splitext p).2 = "." +:+ rest ∧
           without "." rest ∧ without "/" rest ∧ (os_path.splitext p).1 ≠ "").
Proof.
  unfold os_path.splitext. cbv zeta.
  destruct (os_path.rfind p os_path.sep <? os_path.rfind p os_path.extsep) eqn:Hlt;
    cycle 1.
  { simpl. split; [apply append_empty_r|by left]. }
  apply Z.ltb_lt in Hlt.
  destruct (os_path.skip_leading_dots _ _ _ _) as [r|] eqn:Hskip; cycle 1.
  { simpl. split; [apply append_empty_r|by left]. }
  apply skip_leading_dots_Some in Hskip as [-> Hn]. simpl.
  split; [apply upto_from|]. right.
  unfold os_path.rfind in *.
  set (l := list_ascii_of_string p) in *.
  destruct (rfind_from_spec os_path.extsep l 0 (-1))
    as [[_ Hd]|(k & Hk & Hd & Hnodot)].
  { rewrite Hd in Hlt.
    destruct (rfind_from_spec os_path.sep l 0 (-1)) as [[_ Hs]|(ks & _ & Hs & _)]; lia. }
  rewrite Hd in *. rewrite Z.add_0_l in *.
  exists (string_of_list_ascii (drop (S k) l)).
  unfold os_path.from, os_path.upto. fold l. rewrite Nat2Z.id.
  split.
  { rewrite (drop_S l "."%char k) by exact Hk. reflexivity. }
  unfold without. rewrite list_ascii_of_string_of_list_ascii.
  split; [exact Hnodot|]. split.
  - destruct (rfind_from_spec os_path.sep l 0 (-1))
      as [[Hno _]|(ks & Hks & Hs & Hnosep)].
    + intros Hin. apply Hno. apply list_elem_of_lookup in Hin as [j Hj].
      rewrite lookup_drop in Hj. by eapply list_elem_of_lookup_2.
    + rewrite Hs in Hlt.
      intros Hin. apply Hnosep. apply list_elem_of_lookup in Hin as [j Hj].
      rewrite lookup_drop in Hj.
      apply list_elem_of_lookup. exists (S k + j - S ks)%nat.
      rewrite lookup_drop. etrans; [|exact Hj]. f_equal. lia.
  - assert (k ≠ 0)%nat as Hk0.
    { intros ->.
      destruct (rfind_from_spec os_path.sep l 0 (-1)) as [[_ Hs]|(ks & _ & Hs & _)];
        rewrite Hs in Hn; simpl in Hn; lia. }
    destruct l as [|x l']; [done|].
    destruct k as [|k]; [done|]. simpl. done.
Qed.

Lemma list_ascii_of_string_app (a b : string) :
  list_ascii_of_string (a +:+ b) = list_ascii_of_string a ++ list_ascii_of_string b.
Proof.
  induction a as [|x a IH]; [done|].
  change (x :: list_ascii_of_string (a +:+ b) =
          x :: (list_ascii_of_string a ++ list_ascii_of_string b)).
  by rewrite IH.
Qed.

Lemma rfind_from_app c l1 l2 i acc :
  os_path.rfind_from c (l1 ++ l2) i acc =
  os_path.rfind_from c l2 (i + Z.of_nat (length l1)) (os_path.rfind_from c l1 i acc).
Proof.
  revert i acc. induction l1 as [|x l1 IH]; intros i acc; simpl.
  - by rewrite Z.add_0_r.
  - rewrite IH. f_equal. lia.
Qed.

Lemma rfind_from_absent c l i acc : c ∉ l -> os_path.rfind_from c l i acc = acc.
Proof.
  intros Hno. destruct (rfind_from_spec c l i acc) as [[_ Hr]|(k & Hk & _)]; [done|].
  destruct Hno. by eapply list_elem_of_lookup_2.
Qed.

(** The last occurrence is where [rfind] points. *)
Lemma rfind_from_last c l1 l2 i acc :
  c ∉ l2 -> os_path.rfind_from c (l1 ++ c :: l2) i acc = i + Z.of_nat (length l1).
Proof.
  intros Hno. rewrite rfind_from_app. simpl. rewrite Ascii.eqb_refl.
  by apply rfind_from_absent.
Qed.

Lemma rfind_from_bounds c l : -1 ≤ os_path.rfind_from c l 0 (-1) < Z.of_nat (length l).
Proof.
  destruct (rfind_from_spec c l 0 (-1)) as [[_ Hr]|(k & Hk & Hr & _)]; rewrite Hr.
  - lia.
  - apply lookup_lt_Some in Hk. lia.
Qed.

(** The loop that skips leading dots finds a split exactly when one of the
    characters it looks at is not a dot. *)
Lemma skip_leading_dots_spec p dotIndex filenameIndex n :
  0 ≤ filenameIndex ->
  (Z.to_nat filenameIndex + n ≤ length (list_ascii_of_string p))%nat ->
  os_path.skip_leading_dots p dotIndex filenameIndex n =
  if existsb (fun c => negb (Ascii.eqb c os_path.extsep))
       (take n (drop (Z.to_nat filenameIndex) (list_ascii_of_string p)))
  then Some (os_path.upto p dotIndex, os_path.from p dotIndex)
  else None.
Proof.
  revert filenameIndex. induction n as [|n IH]; intros f Hf Hn; simpl; [done|].
  destruct (list_ascii_of_string p !! Z.to_nat f) as [c|] eqn:Hc; cycle 1.
  { apply lookup_ge_None in Hc. lia. }
  rewrite (drop_S _ c _ Hc). simpl.
  destruct (Ascii.eqb c os_path.extsep); simpl; [|done].
  rewrite IH by lia. by replace (Z.to_nat (f + 1)) with (S (Z.to_nat f)) by lia.
Qed.

(** [os.path.splitext] on a path that ends in a dot and a tail free of dots
    and separators: the tail is split off when the last component has a
    stem before that dot, and nothing is split off when it has none. *)
Lemma splitext_last_dot root rest :
  without "." rest -> without "/" rest ->
  os_path.splitext (root +:+ "." +:+ rest) =
  if has_stem (posixpath.basename root) then (root, "." +:+ rest)
  else (root +:+ "." +:+ rest, "").
Proof.
  unfold without. intros Hdot Hsep.
  set (lr := list_ascii_of_string root). set (lt := list_ascii_of_string rest).
  assert (list_ascii_of_string (root +:+ "." +:+ rest) = lr ++ "."%char :: lt) as Hl.
  { by rewrite !list_ascii_of_string_app. }
  assert (os_path.rfind (root +:+ "." +:+ rest) os_path.extsep = Z.of_nat (length lr))
    as Hdi.
  { unfold os_path.rfind. rewrite Hl.
    exact (rfind_from_last "."%char lr lt 0 (-1) Hdot). }
  assert (os_path.rfind (root +:+ "." +:+ rest) os_path.sep = os_path.rfind root os_path.sep)
    as Hsi.
  { unfold os_path.rfind. rewrite Hl, rfind_from_app. apply rfind_from_absent.
    apply not_elem_of_cons. split; [done|exact Hsep]. }
  pose proof (rfind_from_bounds os_path.sep lr) as Hb.
  change (os_path.rfind_from os_path.sep lr 0 (-1)) with (os_path.rfind root os_path.sep) in Hb.
  unfold os_path.splitext. cbv zeta. rewrite Hdi, Hsi.
  rewrite (proj2 (Z.ltb_lt _ _)) by lia.
  rewrite skip_leading_dots_spec; cycle 1.
  { lia. }
  { rewrite Hl, length_app. simpl. lia. }
  rewrite Hl.
  set (f := Z.to_nat (os_path.rfind root os_path.sep + 1)).
  assert (take (Z.to_nat (Z.of_nat (length lr) - (os_path.rfind root os_path.sep + 1)))
            (drop f (lr ++ "."%char :: lt)) = drop f lr) as ->.
  { rewrite drop_app_le by (unfold f; lia).
    rewrite take_app_le by (rewrite length_drop; unfold f; lia).
    apply take_ge. rewrite length_drop. unfold f. lia. }
  unfold has_stem, posixpath.basename, os_path.from. fold lr f.
  rewrite list_ascii_of_string_of_list_ascii.
  destruct (existsb _ (drop f lr)); [|done].
  unfold os_path.upto, os_path.from. rewrite Hl, Nat2Z.id.
  rewrite take_app_length, drop_app_length.
  unfold lr, lt. simpl. by rewrite !string_of_list_ascii_of_string.
Qed.

(** [os.path.splitext] splits nothing off a path whose last component has
    no dot. *)
Lemma splitext_no_dot p :
  without "." (posixpath.basename p) -> os_path.splitext p = (p, "").
Proof.
  unfold without, posixpath.basename, os_path.from.
  rewrite list_ascii_of_string_of_list_ascii. intros Hno.
  unfold os_path.splitext. cbv zeta.
  destruct (os_path.rfind p os_path.sep <? os_path.rfind p os_path.extsep) eqn:Hlt;
    [|done].
  apply Z.ltb_lt in Hlt. exfalso. apply Hno.
  pose proof (rfind_from_bounds os_path.sep (list_ascii_of_string p)) as Hb.
  change (os_path.rfind_from os_path.sep (list_ascii_of_string p) 0 (-1))
    with (os_path.rfind p os_path.sep) in Hb.
  unfold os_path.rfind at 2 in Hlt.
  destruct (rfind_from_spec os_path.extsep (list_ascii_of_string p) 0 (-1))
    as [[_ Hr]|(k & Hk & Hr & _)]; rewrite Hr in Hlt; [lia|].
  apply list_elem_of_lookup.
  exists (k - Z.to_nat (os_path.rfind p os_path.sep + 1))%nat.
  rewrite lookup_drop. etrans; [|exact Hk]. f_equal. lia.
Qed.

(** Every path is of one of the two kinds. *)
Lemma last_dot_or_none p :
  without "." (posixpath.basename p) ∨
  ∃ root rest, p = root +:+ "." +:+ rest ∧ without "." rest ∧ without "/" rest.
Proof.
  destruct (decide ("."%char ∈ list_ascii_of_string (posixpath.basename p)))
    as [Hin|Hno]; [right|by left].
  unfold posixpath.basename, os_path.from in Hin.
  rewrite list_ascii_of_string_of_list_ascii in Hin.
  set (l := list_ascii_of_string p) in *.
  apply list_elem_of_lookup in Hin as [j Hj]. rewrite lookup_drop in Hj.
  destruct (rfind_from_spec os_path.extsep l 0 (-1)) as [[Hnone _]|(k & Hk & _ & Hlast)].
  { destruct Hnone. by eapply list_elem_of_lookup_2. }
  assert (Z.to_nat (os_path.rfind p os_path.sep + 1) + j ≤ k)%nat as Hle.
  { destruct (decide (Z.to_nat (os_path.rfind p os_path.sep + 1) + j ≤ k)%nat)
      as [|Hgt]; [done|].
    destruct Hlast. apply list_elem_of_lookup.
    exists (Z.to_nat (os_path.rfind p os_path.sep + 1) + j - S k)%nat.
    rewrite lookup_drop. etrans; [|exact Hj]. f_equal. lia. }
  exists (string_of_list_ascii (take k l)), (string_of_list_ascii (drop (S k) l)).
  unfold without. rewrite !list_ascii_of_string_of_list_ascii.
  split; [|split; [exact Hlast|]].
  - change ("." +:+ string_of_list_ascii (drop (S k) l))
      with (string_of_list_ascii ("."%char :: drop (S k) l)).
    rewrite <- string_of_list_ascii_app, (take_drop_middle l k "."%char Hk).
    unfold l. by rewrite string_of_list_ascii_of_string.
  - unfold os_path.rfind in Hle. fold l in Hle.
    destruct (rfind_from_spec os_path.sep l 0 (-1))
      as [[Hnone _]|(ks & _ & Hs & Hnosep)].
    + intros Hin. apply Hnone. apply list_elem_of_lookup in Hin as [m Hm].
      rewrite lookup_drop in Hm. by eapply list_elem_of_lookup_2.
    + rewrite Hs in Hle. intros Hin. apply Hnosep.
      apply list_elem_of_lookup in Hin as [m Hm]. rewrite lookup_drop in Hm.
      apply list_elem_of_lookup. exists (S k + m - S ks)%nat.
      rewrite lookup_drop. etrans; [|exact Hm]. f_equal. lia.
Qed.

(** X12. The data path [__init__] derives.  When no data path is given
    (None, or the empty string), the container that opens has the index path
    it was given and, as data path, that path with its last extension
    replaced by ".wpk", the way [os.path.splitext] finds it: when the last
    component of the index path has no dot, ".wpk" is appended to the whole
    path; when the index path is a root, a dot and a tail free of dots and
    separators, the data path is the root followed by ".wpk" if the last
    component of the root has a stem (a character that is not a dot), and
    the whole index path followed by ".wpk" if it has none (".hidden",
    "dir/..x").  Every index path is of one of these kinds, and the tail
    after the last dot is unique, so the data path is determined. *)
Theorem derived_data_path_replaces_extension idx_path_ given options_ s0 s :
  given = None ∨ given = Some "" ->
  WPKFile_init idx_path_ given options_ s0 = (Ok tt, s) ->
  idx_path (self s) = idx_path_ ∧
  (without "." (posixpath.basename idx_path_) ->
   wpk_path (self s) = idx_path_ +:+ ".wpk") ∧
  (∀ root rest,
     idx_path_ = root +:+ "." +:+ rest -> without "." rest -> without "/" rest ->
     wpk_path (self s) =
       if has_stem (posixpath.basename root) then root +:+ ".wpk"
       else idx_path_ +:+ ".wpk") ∧
  (without "." (posixpath.basename idx_path_) ∨
   ∃ root rest,
     idx_path_ = root +:+ "." +:+ rest ∧ without "." rest ∧ without "/" rest).
Proof.
  intros Hgiven Hinit.
  destruct (WPKFile_init_paths _ _ _ _ _ Hinit) as [Hidx Hwpk].
  assert (wpk_path (self s) = (os_path.splitext idx_path_).1 +:+ ".wpk") as Hderived.
  { rewrite Hwpk. by destruct Hgiven as [->| ->]. }
  split; [done|]. split; [|split].
  - intros Hno. by rewrite Hderived, splitext_no_dot.
  - intros root rest -> Hdot Hsep.
    rewrite Hderived, splitext_last_dot by done.
    by destruct (has_stem (posixpath.basename root)).
  - apply last_dot_or_none.
Qed.

End PathProperties.


Section ModelProperties.
Context {FS : Type} `{!FileSystem FS} `{!Collaborators}.

Implicit Types (g : application FS) (index : QModelIndex) (s : state FS).

Lemma same_but_names_refl g : same_but_names g g.
Proof. done. Qed.

Lemma same_but_names_trans g1 g2 g3 :
  same_but_names g1 g2 -> same_but_names g2 g3 -> same_but_names g1 g3.
Proof. intros (? & ? & ?) (? & ? & ?). repeat split; congruence. Qed.

Lemma get_filename_frame index b g :
  same_but_names g (WPKFileModel.get_filename index b g).2 ∧
  ∀ r, r ≠ row index ->
       _file_names_cache (WPKFileModel.get_filename index b g).2 !! r =
       _file_names_cache g !! r.
Proof.
  unfold WPKFileModel.get_filename.
  destruct (isValid index); simpl; [|done].
  unfold bind, get_application, on_world, lift, remember_name, ret. simpl.
  destruct (_file_names_cache g !! row index) as [name|];
    [destruct b; simpl; [|done]|];
    destruct (getitem _ _); simpl; (split; [done|]); try done;
    intros r Hr; by rewrite lookup_insert_ne.
Qed.

Lemma get_filename_remembers index b g name g' :
  isValid index = true ->
  WPKFileModel.get_filename index b g = (Ok name, g') ->
  _file_names_cache g' !! row index = Some name.
Proof.
  intros Hv. unfold WPKFileModel.get_filename. rewrite Hv. simpl.
  unfold bind, get_application, on_world, lift, remember_name, ret. simpl.
  destruct (_file_names_cache g !! row index) as [name0|] eqn:Hc;
    [destruct b; simpl|].
  - destruct (getitem _ _); simpl; [|done]. intros [= <- <-]. simpl.
    by rewrite lookup_insert_eq.
  - by intros [= <- <-].
  - destruct (getitem _ _); simpl; [|done]. intros [= <- <-]. simpl.
    by rewrite lookup_insert_eq.
Qed.

Lemma get_filename_cached index g name :
  isValid index = true ->
  _file_names_cache g !! row index = Some name ->
  WPKFileModel.get_filename index false g = (Ok name, g).
Proof.
  intros Hv Hc. unfold WPKFileModel.get_filename. rewrite Hv. simpl.
  unfold bind, get_application. by rewrite Hc.
Qed.

Lemma on_world_cached_read i g :
  (on_world (is_entry_loaded i) g).1 = Ok true ->
  ∃ e, on_world (read_entry i : M FS WPKEntry) g = (Ok e, g).
Proof.
  unfold on_world, is_entry_loaded, bind, get_self, ret. simpl.
  intros [= Hl]. apply bool_decide_eq_true in Hl as [e He].
  exists e. rewrite (read_entry_cached _ _ _ He). by destruct g.
Qed.

Lemma on_world_is_entry_loaded i g :
  ∃ b, on_world (is_entry_loaded i) g = (Ok b, g).
Proof.
  unfold on_world, is_entry_loaded, bind, get_self, ret. simpl.
  eexists. by destruct g.
Qed.

(** X13. Painting the list decodes nothing.  Whatever the index and the
    role, and whether it returns or raises, [data] leaves the container, the
    disk and the trace exactly as they were: it resolves no entry and opens
    no file, because it asks [read_entry] only for rows that are already
    loaded.  At most the remembered name of the index's own row changes. *)
Theorem model_data_decodes_nothing index role g :
  let g' := (WPKFileModel.data index role g).2 in
  world g' = world g ∧ loaded g' = loaded g ∧ boxes g' = boxes g ∧
  ∀ r, r ≠ row index -> _file_names_cache g' !! r = _file_names_cache g !! r.
Proof.
  cbv zeta. destruct (WPKFileModel.data index role g) as [res g'] eqn:Hrun.
  simpl. revert Hrun. unfold WPKFileModel.data.
  destruct (isValid index); simpl; [|by intros [= _ <-]].
  destruct role; simpl.
  - unfold bind at 1.
    destruct (get_filename_frame index false g) as [(Hw & Hl & Hb) Hn].
    destruct (WPKFileModel.get_filename index false g) as [[name|x] g1];
      simpl in *; [|by intros [= _ <-]].
    unfold bind at 1.
    destruct (on_world_is_entry_loaded (row index) g1) as [b Hb1].
    pose proof (on_world_cached_read (row index) g1) as Hread.
    rewrite Hb1 in *. simpl in Hread.
    destruct b; simpl; [|by intros [= _ <-]].
    destruct (Hread eq_refl) as [e He]. unfold bind. rewrite He.
    unfold ret. repeat case_match; by intros [= _ <-].
  - unfold bind at 1.
    destruct (on_world_is_entry_loaded (row index) g) as [b Hb1].
    pose proof (on_world_cached_read (row index) g) as Hread.
    rewrite Hb1 in *. simpl in Hread.
    destruct b; simpl; [|by intros [= _ <-]].
    destruct (Hread eq_refl) as [e He]. unfold bind. rewrite He.
    unfold ret. repeat case_match; by intros [= _ <-].
  - unfold bind, get_application, on_world, lift, ret. simpl.
    destruct (getitem _ _); intros [= _ <-]; by destruct g.
  - by intros [= _ <-].
Qed.

End ModelProperties.


Section WindowProperties.
Context {FS : Type} `{!FileSystem FS} `{!Collaborators}.

Implicit Types (g : application FS) (index : QModelIndex) (s : state FS).

(** What [__init__] does besides setting up the container: it logs, opens
    the index file, and logs each record; the disk is left alone. *)
Lemma WPKFile_init_trace idx_path_ wpk_path_ options_ s0 :
  ∃ idxs,
    (WPKFile_init idx_path_ wpk_path_ options_ s0).2 =
      after (with_self s0 (with_indices (empty_container idx_path_ wpk_path_ options_) idxs))
        ([opening_log idx_path_; OpenRb idx_path_] ++ (index_log <$> idxs)).
Proof.
  assert (∀ w, with_indices w [] = w) as Hnil.
  { intros w. unfold with_indices. rewrite app_nil_r. by destruct w. }
  destruct (fs_open_rb (disk s0) idx_path_) as [c|x] eqn:Hc; cycle 1.
  { exists [].
    unfold WPKFile_init, open_rb, log, bind, put_self, emit, sys_open_rb. simpl.
    rewrite Hc. simpl. unfold after, with_self. simpl.
    rewrite Hnil. by rewrite <- app_assoc. }
  destruct (WPKFile_init_layout idx_path_ wpk_path_ options_ s0 c Hc)
    as [Hshort Hlong].
  destruct (decide (length c < 4)%nat) as [Hlt|Hge].
  { exists []. rewrite (Hshort Hlt). simpl. by rewrite Hnil. }
  specialize (Hlong ltac:(lia)).
  destruct (layout_records _ _) as [[idxs|x] bs] eqn:El.
  - exists idxs. by rewrite Hlong.
  - destruct Hlong as (idxs & Hl). exists idxs. by rewrite Hl.
Qed.

Lemma unload_wpk_frame g :
  let g0 := (MainWindow.unload_wpk g).2 in
  (MainWindow.unload_wpk g).1 = Ok tt ∧
  loaded g0 = false ∧
  _file_names_cache g0 = _file_names_cache g ∧ boxes g0 = boxes g ∧
  disk (world g0) = disk (world g) ∧
  ∃ d, trace (world g0) = trace (world g) ++ d ∧ filter is_decode_work d = [].
Proof.
  unfold MainWindow.unload_wpk, bind, get_application.
  destruct (loaded g) eqn:Hl; simpl.
  - repeat split; try done. by eexists.
  - repeat split; try done. exists []. by rewrite app_nil_r.
Qed.

Lemma is_decode_work_logs (idxs : list WPKIndex) :
  filter is_decode_work (index_log <$> idxs) = [].
Proof. induction idxs as [|idx idxs IH]; [done|]. simpl. exact IH. Qed.

(** [load_wpk], step by step. *)
Lemma load_wpk_run path g :
  let given := if endswith (lower path) ".idx" then None else Some path in
  let idx := if endswith (lower path) ".idx" then path
             else (os_path.splitext path).1 +:+ ".idx" in
  let g0 := (MainWindow.unload_wpk g).2 in
  MainWindow.load_wpk path g =
    match WPKFile_init idx given None (world g0) with
    | (Ok _, s1) =>
        (Ok tt,
         {| world := after s1 [Log INFO "WPK file loaded: %s" [ArgStr path]];
            loaded := true;
            _file_names_cache := _file_names_cache g0; boxes := boxes g0 |})
    | (Raise x, s1) =>
        (Raise x,
         {| world := s1; loaded := loaded g0;
            _file_names_cache := _file_names_cache g0; boxes := boxes g0 |})
    end.
Proof.
  cbv zeta. unfold MainWindow.load_wpk.
  destruct (unload_wpk_frame g) as (Hr0 & _).
  assert ((if endswith (lower path) ".idx"
           then on_world (WPKFile_init path None None)
           else on_world (WPKFile_init ((os_path.splitext path).1 +:+ ".idx")
                            (Some path) None)) =
          on_world (WPKFile_init
                      (if endswith (lower path) ".idx" then path
                       else (os_path.splitext path).1 +:+ ".idx")
                      (if endswith (lower path) ".idx" then None else Some path)
                      None)) as ->.
  { by destruct (endswith _ _). }
  destruct (MainWindow.unload_wpk g) as [r0 g0] eqn:Hun. simpl in *. subst r0.
  unfold bind. rewrite Hun. unfold on_world at 1.
  destruct (WPKFile_init _ _ None (world g0)) as [[[]|x] s1]; reflexivity.
Qed.

(** X14. The window pairs the two files by name, never by content.  For a
    path that ends in ".idx" in any letter case, [load_wpk] opens
    [WPKFile(path)]; for any other path it takes the path as the data file
    and the path with its extension replaced by ".idx" as the index.  The
    only file it opens is that index file: nothing is sniffed and the data
    file is not looked at.  The archive loaded before is unloaded first, so
    when the new one fails to open the window is left with none.  The names
    the model remembers are not cleared. *)
Theorem load_wpk_pairs_by_name path g :
  let by_name := endswith (lower path) ".idx" in
  let idx := if by_name then path else (os_path.splitext path).1 +:+ ".idx" in
  let g' := (MainWindow.load_wpk path g).2 in
  _file_names_cache g' = _file_names_cache g ∧
  boxes g' = boxes g ∧
  disk (world g') = disk (world g) ∧
  (∃ d, trace (world g') = trace (world g) ++ d ∧
        filter is_decode_work d = [OpenRb idx]) ∧
  ((MainWindow.load_wpk path g).1 = Ok tt ->
   loaded g' = true ∧
   entries (self (world g')) = ∅ ∧
   idx_path (self (world g')) = idx ∧
   wpk_path (self (world g')) =
     if by_name then (os_path.splitext path).1 +:+ ".wpk"
     else if bool_decide (path = "") then (os_path.splitext idx).1 +:+ ".wpk"
     else path) ∧
  (∀ x, (MainWindow.load_wpk path g).1 = Raise x -> loaded g' = false).
Proof.
  cbv zeta. rewrite load_wpk_run. cbv zeta.
  destruct (unload_wpk_frame g) as (_ & Hl0 & Hn0 & Hb0 & Hd0 & d0 & Ht0 & Hw0).
  cbv zeta in *.
  set (g0 := (MainWindow.unload_wpk g).2) in *.
  set (given := if endswith (lower path) ".idx" then None else Some path).
  set (idx := if endswith (lower path) ".idx" then path
              else (os_path.splitext path).1 +:+ ".idx").
  destruct (WPKFile_init_trace idx given None (world g0)) as (idxs & Hs).
  pose proof (WPKFile_init_paths idx given None (world g0)) as Hpaths.
  pose proof (WPKFile_init_entries idx given None (world g0)) as Hentries.
  destruct (WPKFile_init idx given None (world g0)) as [[[]|x] s1] eqn:Hinit;
    simpl in *; subst s1; simpl.
  - split; [done|]. split; [done|]. split; [done|]. split.
    { eexists. rewrite Ht0, <- !app_assoc. split; [reflexivity|].
      rewrite !filter_app, Hw0. simpl. by rewrite is_decode_work_logs. }
    split; [|done]. intros _. split; [done|].
    split; [by apply (Hentries _ eq_refl)|].
    destruct (Hpaths _ eq_refl) as [Hi Hw]. simpl in Hi, Hw.
    split; [done|]. subst given idx.
    by destruct (endswith _ _).
  - split; [done|]. split; [done|]. split; [done|]. split.
    { eexists. rewrite Ht0, <- !app_assoc. split; [reflexivity|].
      rewrite !filter_app, Hw0. simpl.
      rewrite filter_cons_False by (simpl; tauto).
      rewrite filter_cons_True by done. f_equal. apply is_decode_work_logs. }
    split; [done|]. intros _ _. done.
Qed.

Lemma load_wpk_names path g :
  _file_names_cache (MainWindow.load_wpk path g).2 = _file_names_cache g ∧
  ((MainWindow.load_wpk path g).1 = Ok tt ->
   entries (self (world (MainWindow.load_wpk path g).2)) = ∅).
Proof.
  rewrite load_wpk_run. cbv zeta.
  destruct (unload_wpk_frame g) as (_ & _ & Hn0 & _). cbv zeta in Hn0.
  pose proof (WPKFile_init_entries
                (if endswith (lower path) ".idx" then path
                 else (os_path.splitext path).1 +:+ ".idx")
                (if endswith (lower path) ".idx" then None else Some path) None
                (world (MainWindow.unload_wpk g).2)) as Hentries.
  destruct (WPKFile_init _ _ None _) as [[[]|x] s1]; simpl; (split; [done|]).
  - intros _. by apply Hentries.
  - done.
Qed.

(** X15. The names the list shows outlive the archive they came from.
    The names cache is a class attribute keyed by row alone, and loading
    another archive does not clear it: a name that [get_filename] has
    returned for a row is returned again, for that row, after any
    [load_wpk], and it is what the list displays for the row of the new
    archive, whatever the new index table calls it.  Only a call that asks
    to invalidate the cache fetches the record's name. *)
Theorem file_names_outlive_the_archive index name g g1 path :
  isValid index = true ->
  WPKFileModel.get_filename index false g = (Ok name, g1) ->
  let g2 := (MainWindow.load_wpk path g1).2 in
  WPKFileModel.get_filename index false g2 = (Ok name, g2) ∧
  ((MainWindow.load_wpk path g1).1 = Ok tt ->
   (WPKFileModel.data index DisplayRole g2).1 = Ok (Text name)) ∧
  (∀ idx, getitem (indices (self (world g2))) (row index) = Ok idx ->
          (WPKFileModel.get_filename index true g2).1 = Ok (filename idx)).
Proof.
  intros Hv Hname g2.
  pose proof (get_filename_remembers _ _ _ _ _ Hv Hname) as Hc.
  destruct (load_wpk_names path g1) as [Hn Hentries]. fold g2 in Hn, Hentries.
  assert (_file_names_cache g2 !! row index = Some name) as Hc2 by (by rewrite Hn).
  pose proof (get_filename_cached index g2 name Hv Hc2) as Hget.
  split; [exact Hget|]. split.
  - intros Hok. unfold WPKFileModel.data. rewrite Hv. simpl.
    unfold bind at 1. rewrite Hget.
    unfold bind, on_world, is_entry_loaded, get_self, ret. simpl.
    rewrite (Hentries Hok), lookup_empty.
    rewrite bool_decide_false by (by intros [? ?]). done.
  - intros idx Hidx. unfold WPKFileModel.get_filename. rewrite Hv. simpl.
    unfold bind, get_application, on_world, lift, remember_name, ret.
    rewrite Hc2. simpl. by rewrite Hidx.
Qed.

End WindowProperties.


Section ListViewProperties.
Context {FS : Type} `{!FileSystem FS} `{!Collaborators}.

Implicit Types (g : application FS) (index : QModelIndex) (s : state FS) (p : string).









End ListViewProperties.


(** * The further properties on the concrete world *)

Section ConcreteMore.
#[local] Existing Instance Fake.fs.
#[local] Existing Instance Fake.collaborators.

(** X1 at work: "index.idx" starts with the IDX signature. *)
Lemma index_idx_is_sniffed_as_idx :
  (detect_file_type "index.idx" Fake.s0).1 = Ok (Some "idx").
Proof.
  destruct (detect_file_type_verdict "index.idx" Fake.s0
              (IDX_SIGNATURE ++ Fake.encode_indices Fake.game))
    as (v & Hrun & Hidx & _); [vm_compute; reflexivity|].
  rewrite Hrun. f_equal. apply Hidx. vm_compute. reflexivity.
Defined.

(** X2 at work: there is no "missing.idx". *)
Lemma missing_input_fails :
  (parse_args (FakeWindow.command_line "missing.idx") Fake.s0).1 =
    Raise (OSError "missing.idx").
Proof.
  destruct (parse_args_unreadable_input (FakeWindow.command_line "missing.idx")
              Fake.s0 (OSError "missing.idx")) as [Hrun _].
  - reflexivity.
  - vm_compute. reflexivity.
  - rewrite Hrun. reflexivity.
Defined.

(** X3 at work: "game.idx" given alone. *)
Lemma game_idx_alone :
  parse_args (FakeWindow.command_line "game.idx") Fake.s0 =
    (WPKFile_init "game.idx" None (Some Fake.no_key);; extract_all "out")
      (after Fake.s0 [OpenRb "game.idx"; Read 4 (take 4 (Fake.encode_indices Fake.game))]).
Proof.
  destruct (parse_args_opens_then_extracts (FakeWindow.command_line "game.idx")
              Fake.s0 (Fake.encode_indices Fake.game)) as [_ Halone].
  - reflexivity.
  - vm_compute. reflexivity.
  - apply Halone; [vm_compute; discriminate|reflexivity].
Defined.

(** X4 at work: "sealed" cannot be decrypted; the container is as before. *)
Lemma sealed_leaves_odd_alone :
  self (read_entry 0 (Fake.odd_at Fake.no_key)).2 = self (Fake.odd_at Fake.no_key).
Proof.
  assert (returned (read_entry 0 (Fake.odd_at Fake.no_key)).1 = false) as Hraised
    by (vm_compute; reflexivity).
  destruct (read_entry 0 (Fake.odd_at Fake.no_key)) as [[e|x] s'] eqn:Hrun;
    [discriminate Hraised|].
  exact (proj1 (read_entry_raise_leaves_container 0 _ x s' Hrun)).
Defined.

(** X5 at work: "greeting" survives the loss of every file. *)
Lemma greeting_survives_an_empty_disk :
  let s' := (read_entry 0 (Fake.game_at Fake.no_key)).2 in
  (read_entry 0 (with_disk s' ∅)).1 = (read_entry 0 (Fake.game_at Fake.no_key)).1.
Proof.
  assert (returned (read_entry 0 (Fake.game_at Fake.no_key)).1 = true) as Hok
    by (vm_compute; reflexivity).
  destruct (read_entry 0 (Fake.game_at Fake.no_key)) as [[e|x] s'] eqn:Hrun;
    [|discriminate Hok].
  pose proof (resolved_entry_is_a_snapshot 0 (Fake.game_at Fake.no_key) e s'
                ltac:(unfold valid_ordinal; simpl; lia) Hrun [] ∅ []) as Hagain.
  cbv zeta in Hagain. change (read_entry 0 (with_disk s' ∅) = (Ok e, with_disk s' ∅)) in Hagain.
  cbv zeta. change ((read_entry 0 (with_disk s' ∅)).1 = Ok e).
  rewrite Hagain. reflexivity.
Defined.

(** X6 at work: "greeting" is plain text. *)
Lemma greeting_is_stored_verbatim :
  ∃ e s',
    read_entry 0 (Fake.game_at Fake.no_key) = (Ok e, s') ∧
    get_data e = list_byte_of_string "hello" ∧
    filename e = "greeting.txt".
Proof.
  destruct (plain_entry_is_the_raw_slice 0 (Fake.game_at Fake.no_key) Fake.greeting
              Fake.wpk_bytes false "txt" (Category "txt"))
    as (e & s' & Hrun & Hdata & _ & _ & _ & Hname & _);
    try reflexivity.
  exists e, s'. split; [exact Hrun|]. split; [exact Hdata|exact Hname].
Defined.

(** X7 at work: after "greeting" is resolved, its entry and its record
    agree. *)
Lemma greeting_agrees_with_its_record :
  let s1 := run_operation (OpReadEntry 0) (Fake.game_at Fake.no_key) in
  ∃ e, entries (self s1) !! 0 = Some e ∧ same_fields e Fake.greeting.
Proof.
  intros s1.
  assert (bool_decide (is_Some (entries (self s1) !! 0)) = true) as Hin
    by (vm_compute; reflexivity).
  apply bool_decide_eq_true in Hin as [e He].
  destruct (cache_agrees_with_index s1) with (i := 0) (e := e)
    as (idx & _ & Hr & Hf & _).
  - apply reach_operation, reachable_game.
  - exact He.
  - exists e. split; [exact He|].
    assert (record (self s1) 0 = Some Fake.greeting) as Hr' by reflexivity.
    rewrite Hr' in Hr. injection Hr as <-. exact Hf.
Defined.

(** X8 at work: "tail" comes before "sealed", which cannot be decrypted. *)
Lemma extraction_stops_at_sealed :
  ∃ x s' (es : list WPKEntry) d rest,
    extract_all "out" (FakeWindow.mixed_at Fake.no_key) = (Raise x, s') ∧
    (length es < 2)%nat ∧
    trace s' = trace (FakeWindow.mixed_at Fake.no_key) ++ d ∧
    filter is_output d = (es ≫= outputs "out") ++ rest.
Proof.
  assert (returned (extract_all "out" (FakeWindow.mixed_at Fake.no_key)).1 = false)
    as Hraised by (vm_compute; reflexivity).
  destruct (extract_all "out" (FakeWindow.mixed_at Fake.no_key))
    as [[[]|x] s'] eqn:Hrun; [discriminate Hraised|].
  destruct (extract_all_stops_at_first_failure "out" _ x s' Hrun)
    as (es & d & rest & Hlen & _ & Htrace & Hd & _).
  exists x, s', es, d, rest.
  split; [reflexivity|]. split; [exact Hlen|]. split; [exact Htrace|exact Hd].
Defined.

(** X9 at work: after "game" is extracted, "broken" is loaded. *)
Lemma game_is_loaded_after_extraction :
  let s' := (extract_all "out" (Fake.game_at Fake.no_key)).2 in
  is_entry_loaded 2 s' = (Ok true, s').
Proof.
  intros s'.
  assert (returned (extract_all "out" (Fake.game_at Fake.no_key)).1 = true) as Hok
    by (vm_compute; reflexivity).
  subst s'.
  destruct (extract_all "out" (Fake.game_at Fake.no_key)) as [[[]|x] s'] eqn:Hrun;
    [|discriminate Hok].
  simpl.
  destruct (extract_all_resolves_everything_once "out" _ s' Hrun) as [Hall _].
  apply Hall. unfold valid_ordinal. simpl. lia.
Defined.

(** X10 at work: "greeting" renamed before it is resolved. *)
Lemma greeting_renamed_to_hello :
  let s' := (show_rename_dialog 0 "hello" (Fake.game_at Fake.no_key)).2 in
  record (self s') 0 = Some (set_filename Fake.greeting "hello") ∧
  record (self s') 1 = record (self (Fake.game_at Fake.no_key)) 1.
Proof.
  destruct (rename_reaches_index_and_cache 0 "hello" (Fake.game_at Fake.no_key)
              Fake.greeting) as (_ & Hrec & Hothers & _).
  - reflexivity.
  - discriminate.
  - split; [exact Hrec|]. apply (Hothers 1). discriminate.
Defined.

(** X11 at work: "broken" is flagged ERROR and is unclassified. *)
Lemma broken_is_unclassified :
  ∃ e s',
    read_entry 2 (Fake.game_at Fake.no_key) = (Ok e, s') ∧
    extension e = "" ∧ category e = OTHER ∧
    WPKEntryDataFlags.has (data_flags e) WPKEntryDataFlags.TEXT = false.
Proof.
  assert (match (read_entry 2 (Fake.game_at Fake.no_key)).1 with
          | Ok e => WPKEntryDataFlags.has (data_flags e) WPKEntryDataFlags.ERROR
          | Raise _ => false
          end = true) as Hcheck by (vm_compute; reflexivity).
  destruct (read_entry 2 (Fake.game_at Fake.no_key)) as [[e|x] s'] eqn:Hrun;
    [|discriminate Hcheck].
  simpl in Hcheck.
  destruct (flags_tell_failure_from_classification 2 (Fake.game_at Fake.no_key) e s')
    as (_ & Hfailed & _).
  - apply reachable_game.
  - unfold valid_ordinal. simpl. lia.
  - reflexivity.
  - exact Hrun.
  - destruct Hfailed as (_ & Htext & _ & _ & Hext & Hcat & _).
    { rewrite Hcheck. reflexivity. }
    exists e, s'. split; [reflexivity|]. split; [exact Hext|]. split; [exact Hcat|exact Htext].
Defined.

(** X12 at work: "game.idx" is the root "game", a dot and "idx", and "game"
    has a stem, so the data path is "game.wpk". *)
Lemma game_idx_gives_game_wpk :
  wpk_path (self (Fake.game_at Fake.no_key)) = "game.wpk".
Proof.
  destruct (derived_data_path_replaces_extension "game.idx" None (Some Fake.no_key)
              Fake.s0 (Fake.game_at Fake.no_key))
    as (_ & _ & Hsplit & _).
  - by left.
  - apply opened_game.
  - apply (Hsplit "game" "idx"); [reflexivity| |].
    + apply (bool_decide_unpack _). vm_compute. exact I.
    + apply (bool_decide_unpack _). vm_compute. exact I.
Defined.

(** X15 at work: row 0 of "game" is "greeting"; after "odd" is loaded, whose
    row 0 is "sealed", the list still says "greeting". *)
Lemma greeting_is_shown_for_sealed :
  let row0 := FakeWindow.index_of 0 in
  let g1 := (WPKFileModel.get_filename row0 false
               (FakeWindow.window (Fake.game_at Fake.no_key))).2 in
  let g2 := (MainWindow.load_wpk "odd.idx" g1).2 in
  (WPKFileModel.get_filename row0 false g2).1 = Ok "greeting" ∧
  (WPKFileModel.get_filename row0 true g2).1 = Ok "sealed".
Proof.
  intros row0 g1 g2.
  assert (WPKFileModel.get_filename row0 false
            (FakeWindow.window (Fake.game_at Fake.no_key)) = (Ok "greeting", g1)) as Hget
    by (vm_compute; reflexivity).
  destruct (file_names_outlive_the_archive row0 "greeting" _ g1 "odd.idx" eq_refl Hget)
    as (Hstale & _ & Hfresh).
  fold g2 in Hstale, Hfresh. split.
  - rewrite Hstale. reflexivity.
  - apply (Hfresh Fake.sealed). vm_compute. reflexivity.
Defined.


(** C4 as stated fails: the entry "sealed" of "odd" is encrypted and the
    decryption primitive rejects its bytes.  Ordinal 0 is in range, yet
    [read_entry] returns nothing, the first time or the second; nothing is
    cached, and the second call does all the work of the first again: over
    the two calls the data file is opened twice and read twice, and
    decryption is called twice. *)
Lemma sealed_is_decoded_twice :
  let s := Fake.odd_at Fake.no_key in
  let first := read_entry 0 s in
  let second := read_entry 0 first.2 in
  let raw := raw_slice Fake.wpk_bytes Fake.sealed in
  let once := [OpenRb "odd.wpk"; Seek 11; Read 4 raw;
               Call Decrypt (entry_set_data (entry_of Fake.sealed) raw)] in
  valid_ordinal (self s) 0 ∧
  first.1 = Raise (PrimitiveError "decrypt") ∧
  second.1 = Raise (PrimitiveError "decrypt") ∧
  (¬ ∃ e, first.1 = Ok e) ∧
  entries (self first.2) !! 0 = None ∧
  entries (self second.2) !! 0 = None ∧
  trace first.2 = trace s ++ once ∧
  trace second.2 = trace s ++ once ++ once ∧
  times (rank (OpenRb "")) (once ++ once) = 2%nat ∧
  times (rank (Read 0 [])) (once ++ once) = 2%nat ∧
  length (calls_of Decrypt (once ++ once)) = 2%nat.
Proof.
  cbv zeta.
  assert ((read_entry 0 (Fake.odd_at Fake.no_key)).1 = Raise (PrimitiveError "decrypt"))
    as Hfirst by (vm_compute; reflexivity).
  split; [unfold valid_ordinal; simpl; lia|].
  split; [exact Hfirst|]. split; [vm_compute; reflexivity|].
  split. { intros [e He]. rewrite Hfirst in He. discriminate He. }
  split; [vm_compute; reflexivity|]. split; [vm_compute; reflexivity|].
  split; [vm_compute; reflexivity|]. split; [vm_compute; reflexivity|].
  split; [vm_compute; reflexivity|]. split; vm_compute; reflexivity.
Qed.

(** C4 as amended, at work on the entry "greeting" of "game": the second
    call returns what the first returned and changes nothing, and the first
    call, on a record that is neither encrypted nor compressed, called
    neither decryption nor decompression, and each classification step
    once. *)
Lemma greeting_twice :
  ∃ e s' d,
    read_entry 0 (Fake.game_at Fake.no_key) = (Ok e, s') ∧
    read_entry 0 s' = (Ok e, s') ∧
    trace s' = trace (Fake.game_at Fake.no_key) ++ d ∧
    length (calls_of Decrypt d) = 0%nat ∧
    length (calls_of Decompress d) = 0%nat ∧
    length (calls_of IsBinary d) = 1%nat ∧
    length (calls_of GetExt d) = 1%nat.
Proof.
  assert (match (read_entry 0 (Fake.game_at Fake.no_key)).1 with
          | Ok e => negb (WPKEntryDataFlags.has (data_flags e) WPKEntryDataFlags.ERROR ||
                          WPKEntryDataFlags.has (data_flags e) WPKEntryDataFlags.ENCRYPTED)
          | Raise _ => false
          end = true) as Hok by (vm_compute; reflexivity).
  assert (record (self (Fake.game_at Fake.no_key)) 0 = Some Fake.greeting) as Hgreeting
    by reflexivity.
  destruct (read_entry 0 (Fake.game_at Fake.no_key)) as [[e|x] s'] eqn:Hrun;
    [|discriminate Hok].
  simpl in Hok. apply negb_true_iff in Hok.
  destruct (read_entry_is_idempotent 0 (Fake.game_at Fake.no_key)) as [Hfirst _].
  { unfold valid_ordinal. simpl. lia. }
  destruct (Hfirst e s' Hrun) as (Hsecond & _ & d & Ht & _ & _ & Hfresh).
  destruct Hfresh as (_ & _ & _ & Hstages); [reflexivity|].
  destruct (Hstages (reachable_game _)) as (idx & Hr & Hcount).
  rewrite Hgreeting in Hr. injection Hr as <-.
  exists e, s', d. split; [reflexivity|]. split; [exact Hsecond|].
  split; [exact Ht|]. rewrite !Hcount. unfold stage_runs. rewrite Hok.
  split; [reflexivity|]. split; [reflexivity|]. split; reflexivity.
Defined.

End ConcreteMore.
